(** * Repository metrics route: a shallow embedding of
      [src/webapp/src/app/api/repo-metrics/route.ts]

    Conventions of the embedding.

    - A timestamp of the platform (an ISO-8601 string in the source) is
      identified with the value [new Date(s).getTime()] returns for it: an
      integer number of milliseconds since the epoch, a [Z].  A nullable
      timestamp ([string | null]) is an [option timestamp]; the falsy
      values of the source ([null], [undefined], the empty string) are
      [None].
    - A bound of the window may come verbatim from the request, where
      nothing makes it a date: it is identified with the value
      [new Date(x).getTime()] gives it, an instant or, for what is no
      date, [NaN] ([TimeValue]).  The instants of [Date] are at most
      8.64e15 milliseconds from the epoch, and so are doubles.
    - The counters of a pull request ([additions], [deletions],
      [changed_files], [commits], [id], [number]) are integers, [Z]; sums,
      differences and products of integers are exact (as they are in
      doubles below [2 ^ 53]).
    - Every other arithmetic operation of the source (a division, a product
      with a fraction, the difference of two instants) is the exact
      operation on rationals followed by rounding to the nearest double
      ([JS.binary64], ties to the even significand).  Results beyond the
      largest double are not modelled.  [Math.round] is rounding to the
      nearest integer with ties towards positive infinity, [Math.floor] is
      [Qfloor].
    - A week key (the date string of a Monday) is identified with the
      instant of that day's midnight, UTC.
    - The descriptive [label] of a range descriptor plays no role in any
      computation of the route and is left out of the record. *)

From Stdlib Require Import ZArith QArith Qround Qpower Qabs List Ascii String.
From Stdlib Require Import DecimalString Bool Lia Lqa Permutation Sorted.
From Stdlib Require Import Morphisms Setoid.
Import ListNotations.

Local Open Scope Z_scope.

(** ** JavaScript numbers and [Math] *)

Module JS.

(** The result of [Number(x)]: a finite value, an infinity or [NaN]. *)
Inductive number : Type :=
| NaN
| PosInfinity
| NegInfinity
| Finite (q : Q).

(** [Number.isFinite]. *)
Definition isFinite (n : number) : bool :=
  match n with
  | Finite _ => true
  | _ => false
  end.

(** [n <= 0] on JavaScript numbers; every comparison with [NaN] is false. *)
Definition le0 (n : number) : bool :=
  match n with
  | NaN => false
  | PosInfinity => false
  | NegInfinity => true
  | Finite q => Qle_bool q 0
  end.

(** *** Doubles

    A finite double is a rational [m * 2 ^ e] with [|m| < 2 ^ 53] and
    [e >= -1074]; an operation on doubles gives the double nearest to the
    exact result. *)

Definition pow2 (e : Z) : Q := (2 ^ e)%Q.

(** The integer nearest to [x], the even one of two that are as near. *)
Definition roundHalfEven (x : Q) : Z :=
  let f := Qfloor x in
  match (x - inject_Z f ?= 1 # 2)%Q with
  | Lt => f
  | Gt => f + 1
  | Eq => if Z.even f then f else f + 1
  end.

(** For a positive [q], the [e] with [2 ^ e <= q < 2 ^ (e + 1)]. *)
Definition exponent (q : Q) : Z :=
  let e := Z.log2 (Qnum q) - Z.log2 (Zpos (Qden q)) in
  if Qle_bool (pow2 e) q then e else e - 1.

(** The multiple of [2 ^ ex] nearest to [q]. *)
Definition roundAt (ex : Z) (q : Q) : Q :=
  (inject_Z (roundHalfEven (q / pow2 ex)) * pow2 ex)%Q.

(** The exponent of the last place of the doubles around a positive [q]:
    53 significant bits, and no place below [2 ^ -1074]. *)
Definition quantum (q : Q) : Z := Z.max (exponent q - 52) (-1074).

(** The double nearest to [q]. *)
Definition binary64 (q : Q) : Q :=
  match (q ?= 0)%Q with
  | Eq => 0%Q
  | Gt => roundAt (quantum q) q
  | Lt => (- roundAt (quantum (- q)) (- q))%Q
  end.

(** The operators [+], [-], [*] and [/] on doubles, and a decimal literal
    such as [0.9]. *)
Definition add (a b : Q) : Q := binary64 (a + b).
Definition sub (a b : Q) : Q := binary64 (a - b).
Definition mul (a b : Q) : Q := binary64 (a * b).
Definition div (a b : Q) : Q := binary64 (a / b).
Definition literal (q : Q) : Q := binary64 q.

(** [Math.round] on a finite number: nearest integer, ties towards
    positive infinity. *)
Definition round (q : Q) : Z := Qfloor (q + (1 # 2)).

(** [Math.floor]. *)
Definition floor (q : Q) : Z := Qfloor q.

(** A number that is an integer unless it is [NaN]: what [Math.round]
    gives on a number that is finite or [NaN]. *)
Inductive integer : Type :=
| NotANumber
| Integer (z : Z).

(** [Math.max(k, x)] and [Math.min(k, x)] for an integer constant [k]:
    [NaN] when [x] is. *)
Definition max (k : Z) (x : integer) : integer :=
  match x with
  | NotANumber => NotANumber
  | Integer z => Integer (Z.max k z)
  end.

Definition min (k : Z) (x : integer) : integer :=
  match x with
  | NotANumber => NotANumber
  | Integer z => Integer (Z.min k z)
  end.

End JS.

Arguments JS.binary64 : simpl never.
Arguments JS.round : simpl never.
Arguments JS.add : simpl never.
Arguments JS.sub : simpl never.
Arguments JS.mul : simpl never.
Arguments JS.div : simpl never.
Arguments JS.literal : simpl never.

(** ** Data model *)

Definition timestamp := Z.

(** What [new Date(x).getTime()] gives for a bound of the window: [NaN]
    when [x] is no date. *)
Inductive TimeValue : Type :=
| InvalidDate
| Instant (t : timestamp).

Record RangeDescriptor : Type := mkRange {
  since : TimeValue;
  until : TimeValue
}.

Record GitHubUser : Type := mkUser {
  login : string;
  avatar_url : option string
}.

Record GitHubPullRequest : Type := mkPR {
  id : Z;
  number : Z;
  title : string;
  user : option GitHubUser;
  merged_at : option timestamp;
  created_at : timestamp;
  updated_at : timestamp;
  closed_at : option timestamp;
  additions : Z;
  deletions : Z;
  changed_files : Z;
  commits : Z;
  head_ref : string;
  base_ref : string;
  html_url : string;
  draft : bool
}.

Definition DEFAULT_RANGE_DAYS : Z := 30.
Definition MILLISECONDS_PER_DAY : Z := 24 * 60 * 60 * 1000.

(** What a run ends in: an exception, with its message, or a value. *)
Inductive Outcome (A : Type) : Type :=
| Threw (message : string)
| Returned (value : A).
Arguments Threw {A} message.
Arguments Returned {A} value.

(** ** Range resolver *)

(** The [since] or the [until] of a request, as the resolver meets it. *)
Inductive Bound : Type :=
| Absent
    (* a falsy value: undefined, null, the empty string, 0, false *)
| Kept (value : TimeValue)
    (* a value with a slice method, that is a non-empty string or an
       array: the resolver passes it on as it is; value is what new Date
       makes of it *)
| Unsliceable.
    (* any other value: true, a number other than 0, an object *)

Section RangeResolver.
(** The conversion [Number(x)] of a string or [undefined] to a number. *)
Variable Number : option string -> JS.number.

Definition coerceRange (range : option string) : Z :=
  let numericRange := Number range in
  if negb (JS.isFinite numericRange) || JS.le0 numericRange
  then DEFAULT_RANGE_DAYS
  else
    match numericRange with
    | JS.Finite q => Z.min 90 (Z.max 7 (JS.floor q))
    | _ => DEFAULT_RANGE_DAYS
    end.

(** [computeRangeDescriptor]: [now] is the reading of the clock
    ([new Date()]).  With both bounds given, the label is made of
    [since.slice(0, 10)] and [until.slice(0, 10)], in this order: a bound
    without a [slice] method raises a [TypeError]. *)
Definition computeRangeDescriptor
    (since_in until_in : Bound) (rangeDays : option string)
    (now : timestamp) : Outcome RangeDescriptor :=
  match since_in, until_in with
  | Absent, _ | _, Absent =>
      let days := coerceRange rangeDays in
      Returned (mkRange (Instant (now - days * 24 * 60 * 60 * 1000))
                  (Instant now))
  | Unsliceable, _ => Threw "since.slice is not a function"
  | Kept _, Unsliceable => Threw "until.slice is not a function"
  | Kept s, Kept u => Returned (mkRange s u)
  end.
End RangeResolver.

Definition getRangeDayCount (range : RangeDescriptor) : JS.integer :=
  match until range, since range with
  | Instant u, Instant s =>
      let diff := JS.sub (inject_Z u) (inject_Z s) in
      JS.max 1
        (JS.Integer
           (JS.round (JS.div (Qabs diff) (inject_Z MILLISECONDS_PER_DAY))))
  | _, _ => JS.NotANumber
  end.

(** ** Classification against the window, and the impact scorer *)

(** [time >= bound] and [time <= bound]: false when the bound is [NaN]. *)
Definition notBefore (time : timestamp) (bound : TimeValue) : bool :=
  match bound with
  | Instant b => b <=? time
  | InvalidDate => false
  end.

Definition notAfter (time : timestamp) (bound : TimeValue) : bool :=
  match bound with
  | Instant b => time <=? b
  | InvalidDate => false
  end.

Definition withinRange (ts : option timestamp) (range : RangeDescriptor) : bool :=
  match ts with
  | None => false
  | Some time => notBefore time (since range) && notAfter time (until range)
  end.

Definition calculateImpactScore (pr : GitHubPullRequest) : Z :=
  let sizeFactor : Q :=
    JS.div (inject_Z (Z.min 30 (additions pr + deletions pr))) 30 in
  let filesFactor : Q := JS.div (inject_Z (Z.min 20 (changed_files pr))) 20 in
  let commitsFactor : Q := JS.div (inject_Z (Z.min 10 (commits pr))) 10 in
  let draftPenalty : Q := if draft pr then JS.literal (9 # 10) else 1%Q in
  JS.round
    (JS.mul
       (JS.add (JS.add (JS.mul 50 sizeFactor) (JS.mul 30 filesFactor))
          (JS.mul 20 commitsFactor))
       draftPenalty).

Arguments calculateImpactScore : simpl never.
Arguments getRangeDayCount : simpl never.

(** ** Repository aggregator *)

Record RepoMetric : Type := mkRepoMetric {
  rm_name : string;
  rm_owner : string;
  rm_fullName : string;
  activeContributors : Z;
  rm_mergedPRs : Z;
  openPRs : Z;
  rm_commits : Z;
  rm_linesAdded : Z;
  rm_linesDeleted : Z;
  deploymentFrequency : JS.integer;
  averageLeadTimeHours : Z;
  issuesClosed : Z;
  healthScore : JS.integer;
  languages : list string
}.

Record EngineerMetric : Type := mkEngineer {
  engineer : string;
  avatarUrl : option string;
  repos : list string;
  mergedPRs : Z;
  em_commits : Z;
  reviews : Z;
  linesAdded : Z;
  linesDeleted : Z;
  impactScore : Z;
  avgCycleTimeHours : Z;
  avgReviewTurnaroundHours : Z;
  lastActive : timestamp
}.

Record HighImpactPR : Type := mkHighImpact {
  hi_id : Z;
  hi_title : string;
  hi_repo : string;
  hi_author : string;
  mergedAt : timestamp;
  hi_additions : Z;
  hi_deletions : Z;
  changedFiles : Z;
  leadTimeHours : Z;
  url : string;
  summary : string
}.

(** A JavaScript [Map<string, V>]: keys in insertion order, [set] on a key
    already present replaces the value in place. *)
Module JSMap.
Section WithValue.
Context {V : Type}.

Definition t := list (string * V).

Definition empty : t := [].

Fixpoint get (k : string) (m : t) : option V :=
  match m with
  | [] => None
  | (k', v) :: rest => if String.eqb k k' then Some v else get k rest
  end.

Fixpoint set (k : string) (v : V) (m : t) : t :=
  match m with
  | [] => [(k, v)]
  | (k', v') :: rest =>
      if String.eqb k k' then (k', v) :: rest else (k', v') :: set k v rest
  end.

Definition size (m : t) : Z := Z.of_nat (List.length m).

Definition values (m : t) : list V := List.map snd m.

Definition keys (m : t) : list string := List.map fst m.
End WithValue.
Arguments t : clear implicits.
End JSMap.

(** The author a pull request is attributed to:
    [pr.user?.login ?? "unknown"]. *)
Definition authorOf (pr : GitHubPullRequest) : string :=
  match user pr with
  | Some u => login u
  | None => "unknown"%string
  end.

(** Hours between creation and merge:
    [(new Date(merged).getTime() - new Date(created).getTime())
     / (1000 * 60 * 60)]. *)
Definition leadTime (merged created : timestamp) : Q :=
  JS.div (JS.sub (inject_Z merged) (inject_Z created))
    (inject_Z (1000 * 60 * 60)).

(** [pr.merged_at!]: read only where [withinRange] has succeeded. *)
Definition mergedAtOf (pr : GitHubPullRequest) : timestamp :=
  match merged_at pr with
  | Some t => t
  | None => 0
  end.

Record AggState : Type := mkAgg {
  repoMetric : RepoMetric;
  engineerAccumulator : JSMap.t EngineerMetric;
  highImpact : list HighImpactPR
}.

Definition initRepoMetric (repoName repoOwner : string) : RepoMetric :=
  mkRepoMetric repoName repoOwner (repoOwner ++ "/" ++ repoName)%string
    0 0 0 0 0 0 (JS.Integer 0) 0 0 (JS.Integer 0) [].

Definition initAgg (repoName repoOwner : string) : AggState :=
  mkAgg (initRepoMetric repoName repoOwner) JSMap.empty [].

(** The record created for an author seen for the first time. *)
Definition newEngineer (author : string) (pr : GitHubPullRequest)
  : EngineerMetric :=
  mkEngineer author
    (match user pr with Some u => avatar_url u | None => None end)
    [] 0 0 0 0 0 0 0 0 (updated_at pr).

(** [if (!existing.repos.includes(repoName)) existing.repos.push(repoName)]. *)
Definition touchRepo (repoName : string) (e : EngineerMetric) : EngineerMetric :=
  if existsb (String.eqb repoName) (repos e) then e
  else
    mkEngineer (engineer e) (avatarUrl e) (repos e ++ [repoName])
      (mergedPRs e) (em_commits e) (reviews e) (linesAdded e) (linesDeleted e)
      (impactScore e) (avgCycleTimeHours e) (avgReviewTurnaroundHours e)
      (lastActive e).

(** The updates of the author's record for a pull request merged inside the
    window. *)
Definition creditEngineer (pr : GitHubPullRequest) (e : EngineerMetric)
  : EngineerMetric :=
  mkEngineer (engineer e) (avatarUrl e) (repos e)
    (mergedPRs e + 1)
    (em_commits e + commits pr)
    (reviews e)
    (linesAdded e + additions pr)
    (linesDeleted e + deletions pr)
    (impactScore e + calculateImpactScore pr)
    (avgCycleTimeHours e) (avgReviewTurnaroundHours e)
    (if lastActive e <? updated_at pr then updated_at pr else lastActive e).

(** The updates of the repository record for a pull request merged inside
    the window. *)
Definition creditRepo (pr : GitHubPullRequest) (r : RepoMetric) : RepoMetric :=
  mkRepoMetric (rm_name r) (rm_owner r) (rm_fullName r) (activeContributors r)
    (rm_mergedPRs r + 1)
    (openPRs r)
    (rm_commits r + commits pr)
    (rm_linesAdded r + additions pr)
    (rm_linesDeleted r + deletions pr)
    (deploymentFrequency r) (averageLeadTimeHours r) (issuesClosed r)
    (healthScore r) (languages r).

Definition bumpOpen (r : RepoMetric) : RepoMetric :=
  mkRepoMetric (rm_name r) (rm_owner r) (rm_fullName r) (activeContributors r)
    (rm_mergedPRs r)
    (openPRs r + 1)
    (rm_commits r) (rm_linesAdded r) (rm_linesDeleted r)
    (deploymentFrequency r) (averageLeadTimeHours r) (issuesClosed r)
    (healthScore r) (languages r).

Definition summarize (repoName repoOwner author : string)
    (pr : GitHubPullRequest) : HighImpactPR :=
  mkHighImpact (id pr) (title pr) (repoOwner ++ "/" ++ repoName)%string author
    (mergedAtOf pr) (additions pr) (deletions pr) (changed_files pr)
    (Z.max 1 (JS.round (leadTime (mergedAtOf pr) (created_at pr))))
    (html_url pr)
    ("Merged into " ++ base_ref pr ++ " from " ++ head_ref pr)%string.

(** The body of [pullRequests.forEach] in [aggregateMetrics]. *)
Definition absorb (repoName repoOwner : string) (range : RangeDescriptor)
    (st : AggState) (pr : GitHubPullRequest) : AggState :=
  let author := authorOf pr in
  let existing :=
    match JSMap.get author (engineerAccumulator st) with
    | Some e => e
    | None => newEngineer author pr
    end in
  let existing := touchRepo repoName existing in
  if withinRange (merged_at pr) range then
    mkAgg (creditRepo pr (repoMetric st))
      (JSMap.set author (creditEngineer pr existing) (engineerAccumulator st))
      (highImpact st ++ [summarize repoName repoOwner author pr])
  else
    mkAgg (bumpOpen (repoMetric st))
      (JSMap.set author existing (engineerAccumulator st))
      (highImpact st).

Definition foldPullRequests (repoName repoOwner : string)
    (range : RangeDescriptor) (pullRequests : list GitHubPullRequest)
  : AggState :=
  fold_left (absorb repoName repoOwner range) pullRequests
    (initAgg repoName repoOwner).

(** Sum of the lead times of a list of pull requests ([reduce] from 0). *)
Definition sumLeadTime (prs : list GitHubPullRequest) : Q :=
  fold_left
    (fun acc pr => JS.add acc (leadTime (mergedAtOf pr) (created_at pr)))
    prs 0%Q.

Definition mergedInWindow (range : RangeDescriptor)
    (prs : list GitHubPullRequest) : list GitHubPullRequest :=
  filter (fun pr => withinRange (merged_at pr) range) prs.

(** [pr.user?.login === entry.engineer]: a pull request without a user
    compares [undefined] with a string and never matches. *)
Definition loginIs (name : string) (pr : GitHubPullRequest) : bool :=
  match user pr with
  | Some u => String.eqb (login u) name
  | None => false
  end.

(** The derived fields of the repository record, computed after the fold. *)
Definition deriveRepo (range : RangeDescriptor)
    (pullRequests : list GitHubPullRequest) (contributors : Z)
    (r : RepoMetric) : RepoMetric :=
  let frequency : JS.integer :=
    JS.max 1
      (match getRangeDayCount range with
       | JS.Integer days =>
           JS.Integer
             (JS.round (JS.div (inject_Z (rm_mergedPRs r)) (inject_Z days)))
       | JS.NotANumber => JS.NotANumber
       end) in
  let lead :=
    if 0 <? rm_mergedPRs r
    then JS.round (JS.div (sumLeadTime (mergedInWindow range pullRequests))
                     (inject_Z (rm_mergedPRs r)))
    else 0 in
  let health : JS.integer :=
    JS.max 0
      (JS.min 100
         (match frequency with
          | JS.Integer frequency =>
              JS.Integer
                (JS.round
                   (JS.add
                      (JS.add
                         (JS.mul (inject_Z (rm_mergedPRs r))
                            (JS.literal (3 # 10)))
                         (JS.mul (inject_Z frequency) 6))
                      (inject_Z (Z.max 0 (40 - openPRs r * 2)))))
          | JS.NotANumber => JS.NotANumber
          end)) in
  mkRepoMetric (rm_name r) (rm_owner r) (rm_fullName r) contributors
    (rm_mergedPRs r) (openPRs r) (rm_commits r) (rm_linesAdded r)
    (rm_linesDeleted r) frequency lead (issuesClosed r) health (languages r).

Definition finishEngineer (range : RangeDescriptor)
    (pullRequests : list GitHubPullRequest) (entry : EngineerMetric)
  : EngineerMetric :=
  mkEngineer (engineer entry) (avatarUrl entry) (repos entry)
    (mergedPRs entry) (em_commits entry) (reviews entry) (linesAdded entry)
    (linesDeleted entry) (impactScore entry)
    (if 0 <? mergedPRs entry
     then JS.round
            (JS.div
               (sumLeadTime
                  (mergedInWindow range
                     (filter (loginIs (engineer entry)) pullRequests)))
               (inject_Z (mergedPRs entry)))
     else 0)
    (avgReviewTurnaroundHours entry) (lastActive entry).

(** [Array.prototype.sort(compare)]: a stable sort; [a] is placed before
    [b] when [compare a b] is negative. *)
Fixpoint insertSorted {A : Type} (compare : A -> A -> Z) (x : A)
    (sorted : list A) : list A :=
  match sorted with
  | [] => [x]
  | y :: rest =>
      if compare x y <? 0 then x :: y :: rest
      else y :: insertSorted compare x rest
  end.

Definition sort {A : Type} (compare : A -> A -> Z) (l : list A) : list A :=
  fold_left (fun acc x => insertSorted compare x acc) l [].

(** The comparator of both high-impact rankings:
    [(a, b) => b.additions + b.deletions - (a.additions + a.deletions)]. *)
Definition byChurn (a b : HighImpactPR) : Z :=
  hi_additions b + hi_deletions b - (hi_additions a + hi_deletions a).

Record RepoAggregate : Type := mkRepoAggregate {
  ra_repoMetric : RepoMetric;
  engineerMetrics : list EngineerMetric;
  ra_highImpact : list HighImpactPR
}.

Definition aggregateMetrics (repoName repoOwner : string)
    (pullRequests : list GitHubPullRequest) (range : RangeDescriptor)
  : RepoAggregate :=
  let st := foldPullRequests repoName repoOwner range pullRequests in
  mkRepoAggregate
    (deriveRepo range pullRequests (JSMap.size (engineerAccumulator st))
       (repoMetric st))
    (map (finishEngineer range pullRequests)
       (JSMap.values (engineerAccumulator st)))
    (firstn 10 (sort byChurn (highImpact st))).

(** ** Outbound calls

    The requests of the route to the platform, by endpoint.  A run of the
    route carries the log of the requests sent so far; an exception leaves
    the log as it stands. *)

Record GitHubRepo : Type := mkRepo {
  name : string;
  full_name : string;
  owner_login : string;
  language : option string;
  languages_url : string
}.

Inductive Request : Type :=
| ListOrgRepos (org : string) (page : Z)
    (* /orgs/${org}/repos?per_page=100&page=${page}&sort=pushed *)
| GetRepo (owner name : string)
    (* /repos/${owner}/${name} *)
| GetLanguages (fullName : string)
    (* /repos/${full_name}/languages *)
| ListPulls (owner repo : string) (page : Z)
    (* /repos/${owner}/${repo}/pulls?state=all&per_page=50&page=${page}
       &sort=updated&direction=desc *)
| GetPull (owner repo : string) (number : Z).
    (* /repos/${owner}/${repo}/pulls/${pr.number} *)

(** What the platform answers: the decoded body, or the message of the
    error the call ends in (a response that is not [ok], a network
    failure). *)
Definition Answer (T : Type) : Type := (string + T)%type.

(** [repoInfoDelay] is the time the platform takes to answer the lookup
    of a repository: it decides which of several lookups under way ends
    first. *)
Record Platform : Type := mkPlatform {
  orgRepos : string -> Z -> Answer (list GitHubRepo);
  repoInfo : string -> string -> Answer GitHubRepo;
  repoInfoDelay : string -> string -> Z;
  repoLanguages : string -> Answer (list string);
  pullList : string -> string -> Z -> Answer (list GitHubPullRequest);
  pullDetail : string -> string -> Z -> Answer GitHubPullRequest
}.

Definition Async (A : Type) : Type := list Request -> Outcome A * list Request.

Definition ret {A : Type} (a : A) : Async A := fun log => (Returned a, log).

Definition bind {A B : Type} (c : Async A) (k : A -> Async B) : Async B :=
  fun log =>
    match c log with
    | (Threw e, log') => (Threw e, log')
    | (Returned a, log') => k a log'
    end.

Definition throw {A : Type} (message : string) : Async A :=
  fun log => (Threw message, log).

Definition tryCatch {A : Type} (c : Async A) (handler : string -> Async A)
  : Async A :=
  fun log =>
    match c log with
    | (Threw e, log') => handler e log'
    | (Returned a, log') => (Returned a, log')
    end.

Definition send (r : Request) : Async unit :=
  fun log => (Returned tt, log ++ [r]).

Declare Scope async_scope.
Delimit Scope async_scope with async.
Notation "x <- c ;; k" := (bind c (fun x => k))
  (at level 61, c at next level, right associativity) : async_scope.
Notation "c ;;; k" := (bind c (fun _ => k))
  (at level 61, right associativity) : async_scope.
Local Open Scope async_scope.

(** A string is truthy when it is not empty; [undefined] is falsy. *)
Definition truthy (s : option string) : bool :=
  match s with
  | Some s => negb (String.eqb s "")
  | None => false
  end.

(** [String.prototype.split] on a one-character separator. *)
Fixpoint split (sep : Ascii.ascii) (s : string) : list string :=
  match s with
  | EmptyString => [EmptyString]
  | String c rest =>
      if Ascii.eqb c sep then EmptyString :: split sep rest
      else
        match split sep rest with
        | [] => [String c EmptyString]
        | h :: t => String c h :: t
        end
  end.

(** [const [a, b] = fullName.split("/")], each then spliced into a
    template literal, where a missing component reads "undefined". *)
Definition ownerAndName (fullName : string) : string * string :=
  let parts := split "/"%char fullName in
  (nth 0 parts "undefined"%string, nth 1 parts "undefined"%string).

Section Route.
(** The platform, and [process.env.GITHUB_TOKEN]. *)
Variable platform : Platform.
Variable token : option string.

(** [fetchFromGitHub]: [answer] is what the platform replies to
    [request]. *)
Definition fetchFromGitHub {T : Type} (request : Request)
    (answer : Answer T) : Async T :=
  if negb (truthy token) then throw "Missing GITHUB_TOKEN"
  else
    send request ;;;
    match answer with
    | inl message => throw message
    | inr body => ret body
    end.

(** [listOrgRepos]: the [while] loop, one iteration per unit of fuel. *)
Fixpoint listOrgRepos_loop (fuel : nat) (org : string)
    (repos : list GitHubRepo) (page : Z) (shouldContinue : bool)
  : Async (list GitHubRepo) :=
  match fuel with
  | O => ret repos
  | S fuel' =>
      if shouldContinue && (page <=? 5) then
        chunk <- fetchFromGitHub (ListOrgRepos org page)
                   (orgRepos platform org page) ;;
        listOrgRepos_loop fuel' org (repos ++ chunk) (page + 1)
          (Nat.eqb (List.length chunk) 100)
      else ret repos
  end.

Definition listOrgRepos (org : string) : Async (list GitHubRepo) :=
  listOrgRepos_loop 6 org [] 1 true.

Definition fetchRepoLanguages (repo : GitHubRepo) : Async (list string) :=
  tryCatch
    (fetchFromGitHub (GetLanguages (full_name repo))
       (repoLanguages platform (full_name repo)))
    (fun _ =>
       ret (if truthy (language repo)
            then match language repo with Some l => [l] | None => [] end
            else [])).

(** The [for (const pr of batch)] loop of [fetchPullRequestsForRepo]:
    returns the grown list and the value of [shouldContinue] it leaves
    behind. *)
Fixpoint scanBatch (owner repo : string) (range : RangeDescriptor)
    (batch : list GitHubPullRequest)
    (pullRequests : list GitHubPullRequest) (shouldContinue : bool)
  : Async (list GitHubPullRequest * bool) :=
  match batch with
  | [] => ret (pullRequests, shouldContinue)
  | pr :: rest =>
      if match merged_at pr, since range with
         | Some merged, Instant start => merged <? start - 1000 * 60 * 60 * 24
         | _, _ => false
         end
      then ret (pullRequests, false)
      else
        detail <- fetchFromGitHub (GetPull owner repo (number pr))
                    (pullDetail platform owner repo (number pr)) ;;
        scanBatch owner repo range rest (pullRequests ++ [detail])
          shouldContinue
  end.

Definition perPage : nat := 50.

(** The [while] loop of [fetchPullRequestsForRepo], one iteration per unit
    of fuel. *)
Fixpoint fetchPullRequests_loop (fuel : nat) (owner repo : string)
    (range : RangeDescriptor) (pullRequests : list GitHubPullRequest)
    (page : Z) (shouldContinue : bool) : Async (list GitHubPullRequest) :=
  match fuel with
  | O => ret pullRequests
  | S fuel' =>
      if shouldContinue && (page <=? 5) then
        batch <- fetchFromGitHub (ListPulls owner repo page)
                   (pullList platform owner repo page) ;;
        scanned <- scanBatch owner repo range batch pullRequests
                     shouldContinue ;;
        let '(pullRequests, _) := scanned in
        let shouldContinue := Nat.eqb (List.length batch) perPage in
        fetchPullRequests_loop fuel' owner repo range pullRequests
          (page + 1) shouldContinue
      else ret pullRequests
  end.

Definition fetchPullRequestsForRepo (fullName : string)
    (range : RangeDescriptor) : Async (list GitHubPullRequest) :=
  let '(owner, repo) := ownerAndName fullName in
  fetchPullRequests_loop 6 owner repo range [] 1 true.
End Route.

(** ** Snapshot builder *)

Record TimelinePoint : Type := mkTimelinePoint {
  week : timestamp;
  tp_mergedPRs : Z;
  tp_commits : Z;
  tp_linesAdded : Z;
  tp_linesDeleted : Z
}.

Record MetricSnapshot : Type := mkSnapshot {
  generatedAt : timestamp;
  snapshotRange : RangeDescriptor;
  snapshotRepos : list RepoMetric;
  engineers : list EngineerMetric;
  timeline : list TimelinePoint;
  highImpactPRs : list HighImpactPR
}.

(** [Array.from(new Set(l))]: first occurrences, in order. *)
Definition distinct (l : list string) : list string :=
  fold_left
    (fun seen x => if existsb (String.eqb x) seen then seen else seen ++ [x])
    l [].

(** The merge of an engineer's record from one more repository into the
    record kept so far. *)
Definition mergeEngineer (existing metric : EngineerMetric) : EngineerMetric :=
  mkEngineer (engineer existing) (avatarUrl existing)
    (distinct (repos existing ++ repos metric))
    (mergedPRs existing + mergedPRs metric)
    (em_commits existing + em_commits metric)
    (reviews existing + reviews metric)
    (linesAdded existing + linesAdded metric)
    (linesDeleted existing + linesDeleted metric)
    (impactScore existing + impactScore metric)
    (JS.round
       (JS.div (inject_Z (avgCycleTimeHours existing + avgCycleTimeHours metric))
          2))
    (JS.round
       (JS.div (inject_Z (avgReviewTurnaroundHours existing
                          + avgReviewTurnaroundHours metric)) 2))
    (if lastActive existing <? lastActive metric
     then lastActive metric else lastActive existing).

Definition collectEngineer (aggregator : JSMap.t EngineerMetric)
    (metric : EngineerMetric) : JSMap.t EngineerMetric :=
  match JSMap.get (engineer metric) aggregator with
  | Some existing =>
      JSMap.set (engineer metric) (mergeEngineer existing metric) aggregator
  | None => JSMap.set (engineer metric) metric aggregator
  end.

(** The Monday, 00:00 UTC, of the week of an instant ([getUTCDay] is 0 on
    Sunday; the epoch fell on a Thursday).  The source keys the week by the
    date string of this instant. *)
Definition mondayOf (t : timestamp) : timestamp :=
  let dayNumber := t / MILLISECONDS_PER_DAY in
  let day := (dayNumber + 4) mod 7 in
  let diff := - day + (if day =? 0 then -6 else 1) in
  (dayNumber + diff) * MILLISECONDS_PER_DAY.

(** [timelinePoints]: an object used as a map, keys in insertion order. *)
Fixpoint addToBucket (key : timestamp) (pr : GitHubPullRequest)
    (points : list TimelinePoint) : list TimelinePoint :=
  match points with
  | [] => [mkTimelinePoint key (0 + 1) (0 + commits pr) (0 + additions pr)
             (0 + deletions pr)]
  | p :: rest =>
      if week p =? key then
        mkTimelinePoint (week p) (tp_mergedPRs p + 1)
          (tp_commits p + commits pr) (tp_linesAdded p + additions pr)
          (tp_linesDeleted p + deletions pr) :: rest
      else p :: addToBucket key pr rest
  end.

Record BuildState : Type := mkBuild {
  repoMetrics : list RepoMetric;
  engineerAggregator : JSMap.t EngineerMetric;
  timelinePoints : list TimelinePoint;
  allHighImpact : list HighImpactPR
}.

Definition withLanguages (langs : list string) (r : RepoMetric) : RepoMetric :=
  mkRepoMetric (rm_name r) (rm_owner r) (rm_fullName r) (activeContributors r)
    (rm_mergedPRs r) (openPRs r) (rm_commits r) (rm_linesAdded r)
    (rm_linesDeleted r) (deploymentFrequency r) (averageLeadTimeHours r)
    (issuesClosed r) (healthScore r) langs.

Definition forceNoLanguage (r : GitHubRepo) : GitHubRepo :=
  mkRepo (name r) (full_name r) (owner_login r) None (languages_url r).

Section Snapshot.
Variable platform : Platform.
Variable token : option string.

Local Open Scope async_scope.

(** [Promise.all(selectedRepos.map(async ...))]: every lookup is started,
    in order, before any answer is awaited.  The lookups then end each in
    its own time: when one fails, the error of the whole is that of the
    failing lookup that ends first (the earlier in the list, of two that
    end together). *)
Fixpoint startAll (selected : list string) : Async unit :=
  match selected with
  | [] => ret tt
  | fullName :: rest =>
      let '(owner, name) := ownerAndName fullName in
      (if truthy token then send (GetRepo owner name) else ret tt) ;;;
      startAll rest
  end.

(** The failing lookup that ends first, with the time it takes. *)
Fixpoint firstRejection (selected : list string) : option (Z * string) :=
  match selected with
  | [] => None
  | fullName :: rest =>
      let '(owner, name) := ownerAndName fullName in
      match repoInfo platform owner name, firstRejection rest with
      | inl message, Some (delay, later) =>
          if delay <? repoInfoDelay platform owner name
          then Some (delay, later)
          else Some (repoInfoDelay platform owner name, message)
      | inl message, None => Some (repoInfoDelay platform owner name, message)
      | inr _, later => later
      end
  end.

Definition awaitAll (selected : list string) : Async (list GitHubRepo) :=
  match selected with
  | [] => ret []
  | _ :: _ =>
      if negb (truthy token) then throw "Missing GITHUB_TOKEN"
      else
        match firstRejection selected with
        | Some (_, message) => throw message
        | None =>
            ret (flat_map
                   (fun fullName =>
                      let '(owner, name) := ownerAndName fullName in
                      match repoInfo platform owner name with
                      | inr repo => [forceNoLanguage repo]
                      | inl _ => []
                      end)
                   selected)
        end
  end.

Definition lookupSelected (selected : list string)
  : Async (list GitHubRepo) :=
  startAll selected ;;; awaitAll selected.

(** One turn of [for (const repo of repos)]. *)
Definition buildRepo (range : RangeDescriptor) (st : BuildState)
    (repo : GitHubRepo) : Async BuildState :=
  pullRequests <- fetchPullRequestsForRepo platform token (full_name repo)
                    range ;;
  let aggregate :=
    aggregateMetrics (name repo) (owner_login repo) pullRequests range in
  langs <- fetchRepoLanguages platform token repo ;;
  ret (mkBuild
         (repoMetrics st ++ [withLanguages langs (ra_repoMetric aggregate)])
         (fold_left collectEngineer (engineerMetrics aggregate)
            (engineerAggregator st))
         (fold_left
            (fun points pr => addToBucket (mondayOf (mergedAtOf pr)) pr points)
            (mergedInWindow range pullRequests) (timelinePoints st))
         (allHighImpact st ++ ra_highImpact aggregate)).

Fixpoint buildRepos (range : RangeDescriptor) (st : BuildState)
    (repos : list GitHubRepo) : Async BuildState :=
  match repos with
  | [] => ret st
  | repo :: rest =>
      st' <- buildRepo range st repo ;;
      buildRepos range st' rest
  end.

(** [buildSnapshot]; [clock] is the reading of [new Date()] when the
    snapshot is assembled. *)
Definition buildSnapshot (org : option string)
    (selectedRepos : option (list string)) (range : RangeDescriptor)
    (clock : timestamp) : Async MetricSnapshot :=
  repos <-
    match selectedRepos with
    | Some (fullName :: rest) => lookupSelected (fullName :: rest)
    | _ =>
        match org with
        | Some o =>
            if truthy org then listOrgRepos platform token o
            else throw "Either org or repos must be provided"
        | None => throw "Either org or repos must be provided"
        end
    end ;;
  st <- buildRepos range (mkBuild [] JSMap.empty [] []) repos ;;
  ret (mkSnapshot clock range (repoMetrics st)
         (sort (fun a b => impactScore b - impactScore a)
            (JSMap.values (engineerAggregator st)))
         (sort (fun a b => week a - week b) (timelinePoints st))
         (firstn 20 (sort byChurn (allHighImpact st)))).
End Snapshot.

(** ** The inbound operation *)


    (* any other JSON value, read by its fields: a value that is no
       object, such as a number, has none of them *)




Section Inbound.
Variable platform : Platform.
Variable token : option string.
(** [mockMetricSnapshot] of [@/lib/sample-data]. *)
Variable mockMetricSnapshot : MetricSnapshot.
(** The conversion [Number(x)] of a string or [undefined]. *)
Variable Number : option string -> JS.number.

Local Open Scope async_scope.


End Inbound.

(** ** The dashboard: [src/webapp/src/components/dashboard.tsx]

    The part of the dashboard that reads what the route answers: the
    summary totals and the handling of the response. *)

Module Dashboard.

(** [sum]: [reduce] from 0. *)
Definition sum {T : Type} (collection : list T) (selector : T -> Z) : Z :=
  fold_left (fun acc item => acc + selector item) collection 0.

(** [average]: 0 over an empty collection. *)
Definition average {T : Type} (collection : list T) (selector : T -> Z) : Q :=
  if Nat.eqb (List.length collection) 0 then 0%Q
  else JS.div (inject_Z (sum collection selector))
         (inject_Z (Z.of_nat (List.length collection))).

Record Totals : Type := mkTotals {
  totalMergedPRs : Z;
  totalCommits : Z;
  totalLinesAdded : Z;
  totalLinesDeleted : Z;
  activeEngineers : Z;
  averageImpact : Z
}.

(** The [totals] memo of the [Dashboard] component. *)
Definition totals (metrics : option MetricSnapshot) : Totals :=
  match metrics with
  | None => mkTotals 0 0 0 0 0 0
  | Some metrics =>
      mkTotals
        (sum (snapshotRepos metrics) rm_mergedPRs)
        (sum (snapshotRepos metrics) rm_commits)
        (sum (snapshotRepos metrics) rm_linesAdded)
        (sum (snapshotRepos metrics) rm_linesDeleted)
        (Z.of_nat (List.length (engineers metrics)))
        (JS.round (average (engineers metrics) impactScore))
  end.



End Dashboard.

(** ** Specification-side vocabulary *)

Definition sizeOf (pr : GitHubPullRequest) : Z := additions pr + deletions pr.

(** The score as it is computed from the three inputs once they are
    capped at 30, 20 and 10. *)
Definition weigh (size files commitCount : Z) (isDraft : bool) : Z :=
  JS.round
    (JS.mul
       (JS.add
          (JS.add (JS.mul 50 (JS.div (inject_Z size) 30))
             (JS.mul 30 (JS.div (inject_Z files) 20)))
          (JS.mul 20 (JS.div (inject_Z commitCount) 10)))
       (if isDraft then JS.literal (9 # 10) else 1%Q)).

(** Counters as the platform reports them: never negative. *)
Definition countersNonNegative (pr : GitHubPullRequest) : Prop :=
  0 <= additions pr /\ 0 <= deletions pr /\ 0 <= changed_files pr
  /\ 0 <= commits pr.

Definition samplePR (a d f c : Z) (isDraft : bool) : GitHubPullRequest :=
  mkPR 1 1 "" None None 0 0 None a d f c "" "" "" isDraft.

(** The window between two instants. *)
Definition between (s u : timestamp) : RangeDescriptor :=
  mkRange (Instant s) (Instant u).

(** Both bounds of the window are dates. *)
Definition datedFrom (range : RangeDescriptor) (s u : timestamp) : Prop :=
  since range = Instant s /\ until range = Instant u.

(** A bound of the window is no date. *)
Definition undated (range : RangeDescriptor) : Prop :=
  since range = InvalidDate \/ until range = InvalidDate.

(** An instant in the range of [Date]: at most 8.64e15 milliseconds from
    the epoch. *)
Definition isDate (t : timestamp) : Prop := Z.abs t <= 8640000000000000.

(** The day count as the specification words it: the whole days between
    the two bounds (the quotient rounded down), at least 1. *)
Definition wholeDaysBetween (s u : timestamp) : Z :=
  Z.max 1 (Z.abs (u - s) / MILLISECONDS_PER_DAY).

(** C7 as the specification words it. *)
Definition dayCountIsWholeDays (range : RangeDescriptor) : Prop :=
  exists s u,
    datedFrom range s u /\
    getRangeDayCount range = JS.Integer (wholeDaysBetween s u).

(** The pull requests attributed to one author, in collection order. *)
Definition prsOf (author : string) (prs : list GitHubPullRequest)
  : list GitHubPullRequest :=
  filter (fun pr => String.eqb (authorOf pr) author) prs.

(** The pull requests counted as open: not merged inside the window. *)
Definition notMergedInWindow (range : RangeDescriptor)
    (prs : list GitHubPullRequest) : list GitHubPullRequest :=
  filter (fun pr => negb (withinRange (merged_at pr) range)) prs.

Definition sumOf (f : GitHubPullRequest -> Z) (prs : list GitHubPullRequest)
  : Z :=
  fold_right (fun pr acc => f pr + acc) 0 prs.

Definition count (prs : list GitHubPullRequest) : Z :=
  Z.of_nat (List.length prs).

(** What one pull request does to the record of its author. *)
Definition engineerStep (repoName : string) (range : RangeDescriptor)
    (e : EngineerMetric) (pr : GitHubPullRequest) : EngineerMetric :=
  if withinRange (merged_at pr) range
  then creditEngineer pr (touchRepo repoName e)
  else touchRepo repoName e.

(** What one pull request does to the repository record. *)
Definition repoStep (range : RangeDescriptor) (r : RepoMetric)
    (pr : GitHubPullRequest) : RepoMetric :=
  if withinRange (merged_at pr) range then creditRepo pr r else bumpOpen r.

(** The latest of a list of timestamps, starting from [t0]. *)
Definition latest (t0 : timestamp) (ts : list timestamp) : timestamp :=
  fold_left Z.max ts t0.

(** The latest update among an author's pull requests, merged or not. *)
Definition latestUpdate (l : list GitHubPullRequest) : timestamp :=
  match l with
  | [] => 0
  | first :: rest => latest (updated_at first) (map updated_at rest)
  end.

(** The value the health score is rounded and clamped from:
    [mergedPRs * 0.3 + deploymentFrequency * 6
     + Math.max(0, 40 - openPRs * 2)]. *)
Definition healthRaw (merged frequency open : Z) : Q :=
  JS.add
    (JS.add (JS.mul (inject_Z merged) (JS.literal (3 # 10)))
       (JS.mul (inject_Z frequency) 6))
    (inject_Z (Z.max 0 (40 - open * 2))).

(** C10 as it is stated: the health score is a number from 6 to 100. *)
Definition healthScoreInRange (r : RepoMetric) : Prop :=
  exists h, healthScore r = JS.Integer h /\ 6 <= h <= 100.

(** A pull request by [who], with the given merge and update times. *)
Definition prBy (who : option GitHubUser) (merged : option timestamp)
    (updated : timestamp) : GitHubPullRequest :=
  mkPR 1 1 "" who merged 0 updated None 10 2 1 1 "feature" "main" "" false.

Definition alice : GitHubUser := mkUser "alice" None.

(** One author, a pull request merged inside the window [0, 100] and
    updated at 10, followed by one still open and updated at 50. *)
Definition mergedThenOpen : list GitHubPullRequest :=
  [prBy (Some alice) (Some 5) 10; prBy (Some alice) None 50].

(** C8 as the specification words it: every engineer record carries the
    latest update among all of that engineer's collected pull requests. *)
Definition lastActiveIsLatestUpdate (repoName repoOwner : string)
    (prs : list GitHubPullRequest) (range : RangeDescriptor) : Prop :=
  forall e,
    In e (engineerMetrics (aggregateMetrics repoName repoOwner prs range)) ->
    lastActive e = latestUpdate (prsOf (engineer e) prs).

(** Two pull requests without an author identity. *)
Definition authorless : list GitHubPullRequest :=
  [prBy None (Some 5) 10; prBy None None 50].

(** A window opening one hundred million milliseconds after the epoch. *)
Definition window : RangeDescriptor := between 100000000 300000000.

(** Merged at the epoch: more than a day before [window] opens. *)
Definition stalePR : GitHubPullRequest :=
  mkPR 7 7 "" (Some alice) (Some 0) 0 0 None 1 1 1 1 "old" "main" "" false.

(** Merged inside [window]. *)
Definition recentPR : GitHubPullRequest :=
  mkPR 8 8 "" (Some alice) (Some 200000000) 0 0 None 1 1 1 1 "new" "main" ""
    false.

(** A platform whose first page of pull requests is full (50 entries) and
    opens with [stalePR], and whose second page holds [recentPR] alone. *)
Definition stalePlatform : Platform :=
  mkPlatform
    (fun _ _ => inr [])
    (fun _ _ => inl "404"%string)
    (fun _ _ => 0)
    (fun _ => inr [])
    (fun _ _ page =>
       if page =? 1 then inr (stalePR :: repeat recentPR 49)
       else inr [recentPR])
    (fun _ _ _ => inr recentPR).

(** The early-termination test of the collector. *)
Definition mergedLongBefore (range : RangeDescriptor)
    (pr : GitHubPullRequest) : bool :=
  match merged_at pr, since range with
  | Some merged, Instant start => merged <? start - 1000 * 60 * 60 * 24
  | _, _ => false
  end.

(** The listing requests among the requests of a log. *)
Definition listedPages (log : list Request) : list Z :=
  flat_map
    (fun r => match r with ListPulls _ _ page => [page] | _ => [] end) log.






(** The end-to-end scenario of the specification: two pull requests merged
    inside the window (one of them a draft) and one still open, by three
    authors. *)
Definition scenario : list GitHubPullRequest :=
  [ mkPR 1 1 "A" (Some (mkUser "ann" None)) (Some 50) 10 60 (Some 50)
      40 10 3 5 "a" "main" "" false;
    mkPR 2 2 "B" (Some (mkUser "bob" None)) (Some 60) 20 70 (Some 60)
      5 5 1 1 "b" "main" "" true;
    mkPR 3 3 "C" (Some (mkUser "cy" None)) None 30 80 None
      7 7 7 7 "c" "main" "" false ].

(** A stand-in for [Number] on the day counts used as examples. *)
Definition sampleNumber (range : option string) : JS.number :=
  match range with
  | Some "12.5"%string => JS.Finite (25 # 2)
  | Some "-3"%string => JS.Finite (-3 # 1)
  | Some "400"%string => JS.Finite (400 # 1)
  | _ => JS.NaN
  end.

(** ** Vocabulary of the further properties *)

(** A list in non-increasing order of [key]. *)
Definition descendingBy {A : Type} (key : A -> Z) (l : list A) : Prop :=
  StronglySorted (fun a b => key b <= key a) l.

(** The elements of [l] whose key is [k], in order. *)
Definition withKey {A : Type} (key : A -> Z) (k : Z) (l : list A) : list A :=
  filter (fun a => key a =? k) l.

(** Size of the change a high-impact summary stands for. *)
Definition churn (h : HighImpactPR) : Z := hi_additions h + hi_deletions h.

(** The summaries of the pull requests merged inside the window, in
    collection order. *)
Definition summaries (repoName repoOwner : string) (range : RangeDescriptor)
    (prs : list GitHubPullRequest) : list HighImpactPR :=
  map (fun pr => summarize repoName repoOwner (authorOf pr) pr)
    (mergedInWindow range prs).

(** Total of a field over engineer records. *)
Definition totalOver (f : EngineerMetric -> Z) (l : list EngineerMetric) : Z :=
  fold_right (fun e acc => f e + acc) 0 l.

(** Every record is stored under the name it carries. *)
Definition keyedByName (m : JSMap.t EngineerMetric) : Prop :=
  Forall (fun kv => engineer (snd kv) = fst kv) m.

(** Three pull requests merged inside [0, 100] by two authors, the last
    two of the same size. *)
Definition rankedSample : list GitHubPullRequest :=
  [ mkPR 1 1 "small" (Some alice) (Some 40) 10 45 None 3 1 1 1 "a" "main" ""
      false;
    mkPR 2 2 "large" (Some (mkUser "bob" None)) (Some 50) 20 55 None 30 10 4 2
      "b" "main" "" false;
    mkPR 3 3 "large too" (Some alice) (Some 60) 30 65 None 20 20 2 1 "c"
      "main" "" true ].

(** Pull requests that are all outside the window [0, 100]. *)
Definition allOpen : list GitHubPullRequest :=
  [prBy (Some alice) None 10; prBy None (Some 500) 20;
   prBy (Some alice) None 30].

(** An authorless pull request created at 0 and merged ten hours later. *)
Definition slowAuthorless : list GitHubPullRequest :=
  [mkPR 4 4 "" None (Some 36000000) 0 36000000 None 1 1 1 1 "x" "main" ""
     false].

(** The string has no occurrence of the character. *)
Fixpoint freeOf (c : ascii) (s : string) : Prop :=
  match s with
  | EmptyString => True
  | String c' rest => c' <> c /\ freeOf c rest
  end.

(** [getUTCDay()] of an instant: 0 on Sunday, 1 on Monday. *)
Definition utcDay (t : timestamp) : Z := (t / MILLISECONDS_PER_DAY + 4) mod 7.

(** [n] consecutive page numbers, starting at [page]. *)
Definition pagesFrom (page : Z) (n : nat) : list Z :=
  map (fun i => page + Z.of_nat i) (seq 0 n).

(** The pull requests of a page that the collector looks up: those ahead
    of the first one merged more than a day before the window. *)
Fixpoint aheadOfStale (range : RangeDescriptor)
    (batch : list GitHubPullRequest) : list GitHubPullRequest :=
  match batch with
  | [] => []
  | pr :: rest =>
      if mergedLongBefore range pr then []
      else pr :: aheadOfStale range rest
  end.

(** What the platform has on a page, nothing when the listing fails. *)
Definition pageOf (platform : Platform) (owner repo : string) (page : Z)
  : list GitHubPullRequest :=
  match pullList platform owner repo page with
  | inr batch => batch
  | inl _ => []
  end.

Definition orgPageOf (platform : Platform) (org : string) (page : Z)
  : list GitHubRepo :=
  match orgRepos platform org page with
  | inr chunk => chunk
  | inl _ => []
  end.

(** The platform answers the request with the error [message]. *)
Definition failsWith (platform : Platform) (r : Request) (message : string)
  : Prop :=
  match r with
  | ListOrgRepos org page => orgRepos platform org page = inl message
  | GetRepo owner name => repoInfo platform owner name = inl message
  | GetLanguages fullName => repoLanguages platform fullName = inl message
  | ListPulls owner repo page => pullList platform owner repo page = inl message
  | GetPull owner repo number =>
      pullDetail platform owner repo number = inl message
  end.

(** The platform answers the request with a body, not with an error. *)
Definition answered (platform : Platform) (r : Request) : Prop :=
  forall message, ~ failsWith platform r message.

(** A run that only appends to the log and stops at the first request
    that fails: when it returns, every request it sent was answered; when
    it throws, it throws the error of the last request it sent, every
    request sent before that one was answered, and that one was sent
    once. *)
Definition abortsOnFailure {A : Type} (platform : Platform) (c : Async A)
  : Prop :=
  forall log outcome log',
    c log = (outcome, log') ->
    exists sent,
      log' = log ++ sent /\
      match outcome with
      | Returned _ => Forall (answered platform) sent
      | Threw message =>
          exists earlier r,
            sent = earlier ++ [r] /\
            failsWith platform r message /\
            Forall (answered platform) earlier /\
            ~ In r earlier
      end.

(** The detail lookups among the requests of a log. *)
Definition lookedUp (log : list Request) : list Z :=
  flat_map
    (fun r => match r with GetPull _ _ number => [number] | _ => [] end) log.

(** A platform that lists two full pages of repositories for an
    organisation and fails the third. *)
Definition flakyPlatform : Platform :=
  mkPlatform
    (fun _ page =>
       if page <=? 2
       then inr (repeat (mkRepo "web" "acme/web" "acme" None "") 100)
       else inl "502"%string)
    (fun _ _ => inl "404"%string)
    (fun _ _ => 0)
    (fun _ => inl "503"%string)
    (fun _ _ _ => inr [])
    (fun _ _ _ => inl "404"%string).

(** The full records of the pull requests of a page that are looked up. *)
Definition detailsOf (platform : Platform) (owner repo : string)
    (range : RangeDescriptor) (batch : list GitHubPullRequest)
  : list GitHubPullRequest :=
  flat_map
    (fun pr =>
       match pullDetail platform owner repo (number pr) with
       | inr detail => [detail]
       | inl _ => []
       end)
    (aheadOfStale range batch).

(** The requests one page gives rise to: its listing, then the lookups. *)
Definition requestsOfPage (platform : Platform) (owner repo : string)
    (range : RangeDescriptor) (page : Z) : list Request :=
  ListPulls owner repo page
  :: map (fun pr => GetPull owner repo (number pr))
       (aheadOfStale range (pageOf platform owner repo page)).

(** A platform with three pages of pull requests: two full ones, the first
    of which has a stale entry in second place, and a short third one. *)
Definition threePages : Platform :=
  mkPlatform
    (fun _ _ => inr [])
    (fun _ _ => inl "404"%string)
    (fun _ _ => 0)
    (fun _ => inr [])
    (fun _ _ page =>
       if page =? 1 then inr (recentPR :: stalePR :: repeat recentPR 48)
       else if page =? 2 then inr (repeat recentPR 50)
       else inr [recentPR])
    (fun _ _ _ => inr recentPR).

(** The language list a failed lookup falls back on: the primary language
    of the repository when it has one. *)
Definition primaryLanguage (repo : GitHubRepo) : list string :=
  match language repo with
  | Some l => if String.eqb l "" then [] else [l]
  | None => []
  end.

(** Totals over the repositories and over the weeks of a snapshot. *)
Definition totalOfRepos (f : RepoMetric -> Z) (l : list RepoMetric) : Z :=
  fold_right (fun r acc => f r + acc) 0 l.

Definition totalOfWeeks (f : TimelinePoint -> Z) (l : list TimelinePoint) : Z :=
  fold_right (fun p acc => f p + acc) 0 l.

(** The state of a snapshot build is consistent: the engineers are stored
    under their own, distinct names; there is one bucket per week, keyed
    by a Monday midnight; and the merged pull requests, commits and lines
    counted per repository, per engineer and per week are the same in
    total. *)
Record consistent (st : BuildState) : Prop := mkConsistent {
  names_keyed : keyedByName (engineerAggregator st);
  names_distinct : NoDup (JSMap.keys (engineerAggregator st));
  weeks_distinct : NoDup (map week (timelinePoints st));
  weeks_mondays :
    Forall (fun p => mondayOf (week p) = week p) (timelinePoints st);
  merged_agree :
    totalOfRepos rm_mergedPRs (repoMetrics st) =
      totalOver mergedPRs (JSMap.values (engineerAggregator st)) /\
    totalOfRepos rm_mergedPRs (repoMetrics st) =
      totalOfWeeks tp_mergedPRs (timelinePoints st);
  commits_agree :
    totalOfRepos rm_commits (repoMetrics st) =
      totalOver em_commits (JSMap.values (engineerAggregator st)) /\
    totalOfRepos rm_commits (repoMetrics st) =
      totalOfWeeks tp_commits (timelinePoints st);
  added_agree :
    totalOfRepos rm_linesAdded (repoMetrics st) =
      totalOver linesAdded (JSMap.values (engineerAggregator st)) /\
    totalOfRepos rm_linesAdded (repoMetrics st) =
      totalOfWeeks tp_linesAdded (timelinePoints st);
  deleted_agree :
    totalOfRepos rm_linesDeleted (repoMetrics st) =
      totalOver linesDeleted (JSMap.values (engineerAggregator st)) /\
    totalOfRepos rm_linesDeleted (repoMetrics st) =
      totalOfWeeks tp_linesDeleted (timelinePoints st)
}.

(** What one repository, with the pull requests collected for it and the
    languages found, adds to the state of a snapshot build. *)
Definition accountRepo (range : RangeDescriptor) (st : BuildState)
    (repo : GitHubRepo) (pullRequests : list GitHubPullRequest)
    (langs : list string) : BuildState :=
  let aggregate :=
    aggregateMetrics (name repo) (owner_login repo) pullRequests range in
  mkBuild
    (repoMetrics st ++ [withLanguages langs (ra_repoMetric aggregate)])
    (fold_left collectEngineer (engineerMetrics aggregate)
       (engineerAggregator st))
    (fold_left
       (fun points pr => addToBucket (mondayOf (mergedAtOf pr)) pr points)
       (mergedInWindow range pullRequests) (timelinePoints st))
    (allHighImpact st ++ ra_highImpact aggregate).

(** A list in strictly increasing order of [key]. *)
Definition increasingBy {A : Type} (key : A -> Z) (l : list A) : Prop :=
  StronglySorted (fun a b => key a < key b) l.

(** A platform with one repository whose pull requests are [rankedSample]
    and whose language lookup fails. *)
Definition smallPlatform : Platform :=
  mkPlatform
    (fun _ page => inr [mkRepo "web" "acme/web" "acme" (Some "Go"%string) ""])
    (fun owner name => inr (mkRepo name (owner ++ "/" ++ name) owner
                              (Some "Go"%string) ""))
    (fun _ _ => 0)
    (fun _ => inl "503"%string)
    (fun _ _ page => if page =? 1 then inr rankedSample else inr [])
    (fun _ _ number =>
       match filter (fun pr => id pr =? number) rankedSample with
       | pr :: _ => inr pr
       | [] => inl "404"%string
       end).

(** The working set of a snapshot build: the repositories selected, looked
    up one by one, or else those the organisation lists. *)
Definition workingSet (platform : Platform) (token : option string)
    (org : option string) (selectedRepos : option (list string))
  : Async (list GitHubRepo) :=
  match selectedRepos with
  | Some (fullName :: rest) => lookupSelected platform token (fullName :: rest)
  | _ =>
      match org with
      | Some o =>
          if truthy org then listOrgRepos platform token o
          else throw "Either org or repos must be provided"
      | None => throw "Either org or repos must be provided"
      end
  end.

(** The snapshot assembled from the final state of a build. *)
Definition assemble (clock : timestamp) (range : RangeDescriptor)
    (st : BuildState) : MetricSnapshot :=
  mkSnapshot clock range (repoMetrics st)
    (sort (fun a b => impactScore b - impactScore a)
       (JSMap.values (engineerAggregator st)))
    (sort (fun a b => week a - week b) (timelinePoints st))
    (firstn 20 (sort byChurn (allHighImpact st))).

Definition emptyBuild : BuildState := mkBuild [] JSMap.empty [] [].

(** The derived fields of a repository record over a window whose bounds
    are dates: a deployment frequency of at least 1 and a health score
    from 6 to 100.  Over any other window both are [NaN]. *)
Definition soundHealth (r : RepoMetric) : Prop :=
  exists f h,
    deploymentFrequency r = JS.Integer f /\ healthScore r = JS.Integer h /\
    1 <= f /\ 6 <= h <= 100.

Definition noHealth (r : RepoMetric) : Prop :=
  deploymentFrequency r = JS.NotANumber /\ healthScore r = JS.NotANumber.

(** The identity of a repository record, and of a repository. *)
Definition recordIdentity (r : RepoMetric) : string * string * string :=
  (rm_name r, rm_owner r, rm_fullName r).

Definition repoIdentity (repo : GitHubRepo) : string * string * string :=
  (name repo, owner_login repo, (owner_login repo ++ "/" ++ name repo)%string).

(** A platform on which the lookup of every repository fails, that of a
    repository named "slow" later than any other. *)
Definition racingPlatform : Platform :=
  mkPlatform
    (fun _ _ => inr [])
    (fun _ name =>
       if String.eqb name "slow" then inl "500"%string else inl "404"%string)
    (fun _ name => if String.eqb name "slow" then 9 else 1)
    (fun _ => inr [])
    (fun _ _ _ => inr [])
    (fun _ _ _ => inl "404"%string).

(** * Properties *)

(** ** Rounding of quotients *)

Lemma inject_Z_nonzero (d : Z) : d <> 0 -> ~ (inject_Z d == 0)%Q.
Proof.
  intros Hd H. unfold Qeq in H. simpl in H. lia.
Qed.

Lemma inject_Z_sub (a b : Z) : (inject_Z (a - b) == inject_Z a - inject_Z b)%Q.
Proof.
  unfold Z.sub. rewrite inject_Z_plus, inject_Z_opp. reflexivity.
Qed.

Ltac push_inject_Z :=
  repeat (rewrite inject_Z_plus || rewrite inject_Z_mult
          || rewrite inject_Z_opp || rewrite inject_Z_sub).

Lemma round_div (n d : Z) :
  0 < d -> JS.round (inject_Z n / inject_Z d) = (2 * n + d) / (2 * d).
Proof.
  intros Hd. unfold JS.round. rewrite Zdiv_Qdiv. apply Qfloor_comp.
  push_inject_Z. field. apply inject_Z_nonzero. lia.
Qed.

(** [Math.round] of a quotient is the integer nearest to it. *)
Lemma round_div_nearest (n d : Z) :
  0 < d ->
  let r := JS.round (inject_Z n / inject_Z d) in
  2 * n - d < 2 * d * r <= 2 * n + d.
Proof.
  intros Hd r. subst r. rewrite round_div by assumption.
  pose proof (Z.mul_div_le (2 * n + d) (2 * d) ltac:(lia)).
  pose proof (Z.mul_succ_div_gt (2 * n + d) (2 * d) ltac:(lia)).
  lia.
Qed.

Lemma round_div_floor (n d : Z) :
  0 < d ->
  n / d <= JS.round (inject_Z n / inject_Z d) <= n / d + 1.
Proof.
  intros Hd. pose proof (round_div_nearest n d Hd) as Hr. cbv zeta in Hr.
  pose proof (Z.mul_div_le n d Hd).
  pose proof (Z.mul_succ_div_gt n d Hd).
  set (r := JS.round (inject_Z n / inject_Z d)) in *.
  set (k := n / d) in *.
  split.
  - destruct (Z_lt_le_dec r k) as [Hlt|]; [|assumption].
    assert (d * r <= d * (k - 1)) by (apply Z.mul_le_mono_nonneg_l; lia).
    lia.
  - destruct (Z_lt_le_dec (k + 1) r) as [Hlt|]; [|assumption].
    assert (d * (k + 2) <= d * r) by (apply Z.mul_le_mono_nonneg_l; lia).
    lia.
Qed.

Lemma round_mono (x y : Q) : (x <= y)%Q -> JS.round x <= JS.round y.
Proof.
  intros H. unfold JS.round. apply Qfloor_resp_le.
  apply Qplus_le_compat; [exact H | apply Qle_refl].
Qed.

Lemma round_comp (x y : Q) : (x == y)%Q -> JS.round x = JS.round y.
Proof.
  intros H. unfold JS.round. apply Qfloor_comp. rewrite H. reflexivity.
Qed.

Lemma round_Z (k : Z) : JS.round (inject_Z k) = k.
Proof.
  unfold JS.round.
  pose proof (Qfloor_le (inject_Z k + (1 # 2))) as Hl.
  pose proof (Qlt_floor (inject_Z k + (1 # 2))) as Hu.
  set (f := Qfloor (inject_Z k + (1 # 2))) in *.
  assert (inject_Z f < inject_Z (k + 1))%Q as H1
    by (rewrite inject_Z_plus; change (inject_Z 1) with 1%Q; lra).
  assert (inject_Z k < inject_Z (f + 1))%Q as H2 by lra.
  rewrite <- Zlt_Qlt in H1, H2. lia.
Qed.

(** [Math.round] gives [j] on the numbers from [j - 1/2] up to, and not
    including, [j + 1/2]. *)
Lemma round_between (x : Q) (j : Z) :
  (inject_Z j - (1 # 2) <= x)%Q -> (x < inject_Z j + (1 # 2))%Q ->
  JS.round x = j.
Proof.
  intros Hl Hu. unfold JS.round.
  pose proof (Qfloor_le (x + (1 # 2))) as Fl.
  pose proof (Qlt_floor (x + (1 # 2))) as Fu.
  set (f := Qfloor (x + (1 # 2))) in *.
  assert (inject_Z f < inject_Z (j + 1))%Q as H1
    by (rewrite inject_Z_plus; change (inject_Z 1) with 1%Q; lra).
  assert (inject_Z j < inject_Z (f + 1))%Q as H2 by lra.
  rewrite <- Zlt_Qlt in H1, H2. lia.
Qed.

(** ** Doubles: rounding to the nearest is monotone, and exact on doubles *)

Section Binary64.
Local Open Scope Q_scope.

Lemma pow2_pos (e : Z) : 0 < JS.pow2 e.
Proof. apply Qpower_0_lt. reflexivity. Qed.

Lemma pow2_add (a b : Z) : JS.pow2 (a + b) == JS.pow2 a * JS.pow2 b.
Proof. apply Qpower_plus. discriminate. Qed.

Lemma pow2_le (a b : Z) : (a <= b)%Z -> JS.pow2 a <= JS.pow2 b.
Proof. intros H. apply Qpower_le_compat_l; [exact H | discriminate]. Qed.

Lemma pow2_Z (n : Z) : (0 <= n)%Z -> JS.pow2 n == inject_Z (2 ^ n).
Proof.
  intros H. unfold JS.pow2. rewrite Zpower_Qpower by exact H. reflexivity.
Qed.

Lemma pow2_sub (a b : Z) : JS.pow2 (a - b) == JS.pow2 a / JS.pow2 b.
Proof.
  unfold Z.sub. rewrite pow2_add. unfold JS.pow2 at 2.
  rewrite Qpower_opp. reflexivity.
Qed.

Lemma inject_Z_pos (z : Z) : (0 < z)%Z -> 0 < inject_Z z.
Proof. intros H. change 0 with (inject_Z 0). rewrite <- Zlt_Qlt. exact H. Qed.

(** [JS.exponent] is the binary exponent of a positive rational. *)
Lemma exponent_spec (q : Q) :
  0 < q -> JS.pow2 (JS.exponent q) <= q /\ q < JS.pow2 (JS.exponent q + 1).
Proof.
  intros Hq. destruct q as [n d]. unfold JS.exponent. cbn [Qnum Qden].
  assert (0 < n)%Z as Hn by (unfold Qlt in Hq; cbn in Hq; lia).
  set (a := Z.log2 n). set (b := Z.log2 (Z.pos d)).
  assert (2 ^ a <= n < 2 ^ (a + 1))%Z as Ha.
  { pose proof (Z.log2_spec n Hn) as H. fold a in H.
    replace (a + 1)%Z with (Z.succ a) by lia. exact H. }
  assert (2 ^ b <= Z.pos d < 2 ^ (b + 1))%Z as Hb.
  { pose proof (Z.log2_spec (Z.pos d) ltac:(lia)) as H. fold b in H.
    replace (b + 1)%Z with (Z.succ b) by lia. exact H. }
  assert (0 <= a)%Z as Ha0 by apply Z.log2_nonneg.
  assert (0 <= b)%Z as Hb0 by apply Z.log2_nonneg.
  assert (0 < 2 ^ a)%Z as Hpa by (apply Z.pow_pos_nonneg; lia).
  assert (0 < 2 ^ b)%Z as Hpb by (apply Z.pow_pos_nonneg; lia).
  assert (n # d < JS.pow2 (a - b + 1)) as Hupper.
  { replace (a - b + 1)%Z with ((a + 1) - b)%Z by lia.
    rewrite pow2_sub, !pow2_Z by lia.
    apply Qlt_shift_div_l; [apply inject_Z_pos, Hpb|].
    rewrite (Qmake_Qdiv n d). unfold Qdiv.
    rewrite <- Qmult_assoc, (Qmult_comm (/ _)), Qmult_assoc.
    apply Qlt_shift_div_r; [apply inject_Z_pos; lia|].
    rewrite <- !inject_Z_mult, <- Zlt_Qlt. nia. }
  assert (JS.pow2 (a - b - 1) <= n # d) as Hlower.
  { replace (a - b - 1)%Z with (a - (b + 1))%Z by lia.
    rewrite pow2_sub, !pow2_Z by lia.
    apply Qle_shift_div_r; [apply inject_Z_pos; lia|].
    rewrite (Qmake_Qdiv n d). unfold Qdiv.
    rewrite <- Qmult_assoc, (Qmult_comm (/ _)), Qmult_assoc.
    apply Qle_shift_div_l; [apply inject_Z_pos; lia|].
    rewrite <- !inject_Z_mult, <- Zle_Qle. nia. }
  destruct (Qle_bool (JS.pow2 (a - b)) (n # d)) eqn:E.
  - apply Qle_bool_iff in E. split; assumption.
  - assert (n # d < JS.pow2 (a - b)) as Hlt.
    { apply Qnot_le_lt. intros H. apply Qle_bool_iff in H. congruence. }
    replace (a - b - 1 + 1)%Z with (a - b)%Z by lia. split; assumption.
Qed.

Lemma exponent_unique (q : Q) (e : Z) :
  0 < q -> JS.pow2 e <= q -> q < JS.pow2 (e + 1) -> JS.exponent q = e.
Proof.
  intros Hq Hl Hu. destruct (exponent_spec q Hq) as [Hl' Hu'].
  destruct (Z.lt_trichotomy (JS.exponent q) e) as [H | [H | H]];
    [| exact H |]; exfalso.
  - assert (JS.pow2 (JS.exponent q + 1) <= JS.pow2 e)
      by (apply pow2_le; lia).
    lra.
  - assert (JS.pow2 (e + 1) <= JS.pow2 (JS.exponent q))
      by (apply pow2_le; lia).
    lra.
Qed.

Lemma exponent_comp (q q' : Q) :
  0 < q -> q == q' -> JS.exponent q = JS.exponent q'.
Proof.
  intros Hq E. symmetry. destruct (exponent_spec q Hq) as [Hl Hu].
  apply exponent_unique; rewrite <- E; assumption.
Qed.

Lemma exponent_mono (q q' : Q) :
  0 < q -> q <= q' -> (JS.exponent q <= JS.exponent q')%Z.
Proof.
  intros Hq Hle. assert (0 < q') as Hq' by lra.
  destruct (exponent_spec q Hq) as [Hl Hu].
  destruct (exponent_spec q' Hq') as [Hl' Hu'].
  destruct (Z.le_gt_cases (JS.exponent q) (JS.exponent q')) as [H | H];
    [exact H |].
  exfalso.
  assert (JS.pow2 (JS.exponent q' + 1) <= JS.pow2 (JS.exponent q))
    by (apply pow2_le; lia).
  lra.
Qed.

(** *** Rounding to the nearest integer, ties to the even one *)

Lemma roundHalfEven_near (x : Q) :
  inject_Z (JS.roundHalfEven x) - (1 # 2) <= x /\
  x <= inject_Z (JS.roundHalfEven x) + (1 # 2).
Proof.
  unfold JS.roundHalfEven.
  pose proof (Qfloor_le x) as Hl. pose proof (Qlt_floor x) as Hu.
  rewrite inject_Z_plus in Hu. change (inject_Z 1) with 1 in Hu.
  destruct (Qcompare_spec (x - inject_Z (Qfloor x)) (1 # 2)) as [E | E | E].
  - destruct (Z.even (Qfloor x));
      [| rewrite inject_Z_plus; change (inject_Z 1) with 1]; lra.
  - lra.
  - rewrite inject_Z_plus. change (inject_Z 1) with 1. lra.
Qed.

Lemma roundHalfEven_comp (x y : Q) :
  x == y -> JS.roundHalfEven x = JS.roundHalfEven y.
Proof.
  intros E. unfold JS.roundHalfEven. rewrite (Qfloor_comp x y E).
  assert ((x - inject_Z (Qfloor y) ?= 1 # 2)
          = (y - inject_Z (Qfloor y) ?= 1 # 2)) as ->
    by (apply Qcompare_comp; [rewrite E|]; reflexivity).
  reflexivity.
Qed.

Lemma roundHalfEven_Z (k : Z) : JS.roundHalfEven (inject_Z k) = k.
Proof.
  unfold JS.roundHalfEven. rewrite Qfloor_Z.
  assert ((inject_Z k - inject_Z k ?= 1 # 2) = Lt) as ->; [|reflexivity].
  apply Qlt_alt. setoid_replace (inject_Z k - inject_Z k) with 0 by ring.
  reflexivity.
Qed.

Lemma roundHalfEven_mono (x y : Q) :
  x <= y -> (JS.roundHalfEven x <= JS.roundHalfEven y)%Z.
Proof.
  intros Hle.
  destruct (Z.le_gt_cases (JS.roundHalfEven x) (JS.roundHalfEven y))
    as [H | H]; [exact H |].
  exfalso.
  destruct (roundHalfEven_near x) as [Hx _].
  destruct (roundHalfEven_near y) as [_ Hy].
  assert (JS.roundHalfEven y + 1 <= JS.roundHalfEven x)%Z as H1 by lia.
  rewrite Zle_Qle, inject_Z_plus in H1. change (inject_Z 1) with 1 in H1.
  assert (x == y) as E by lra.
  rewrite (roundHalfEven_comp x y E) in H. lia.
Qed.

(** *** Rounding to a multiple of [2 ^ ex] *)

Lemma roundAt_comp (ex : Z) (x y : Q) :
  x == y -> JS.roundAt ex x == JS.roundAt ex y.
Proof.
  intros E. unfold JS.roundAt.
  rewrite (roundHalfEven_comp (x / JS.pow2 ex) (y / JS.pow2 ex));
    [reflexivity |].
  rewrite E. reflexivity.
Qed.

Lemma roundAt_mono (ex : Z) (x y : Q) :
  x <= y -> JS.roundAt ex x <= JS.roundAt ex y.
Proof.
  intros Hle. unfold JS.roundAt. pose proof (pow2_pos ex) as Hp.
  apply Qmult_le_compat_r; [| lra].
  rewrite <- Zle_Qle. apply roundHalfEven_mono.
  unfold Qdiv. apply Qmult_le_compat_r; [exact Hle |].
  apply Qlt_le_weak, Qinv_lt_0_compat, Hp.
Qed.

Lemma roundAt_multiple (ex k : Z) (x : Q) :
  x == inject_Z k * JS.pow2 ex -> JS.roundAt ex x == x.
Proof.
  intros E. unfold JS.roundAt. pose proof (pow2_pos ex) as Hp.
  rewrite (roundHalfEven_comp _ (inject_Z k)).
  - rewrite roundHalfEven_Z. symmetry. exact E.
  - rewrite E. field. lra.
Qed.

Lemma roundAt_near (ex : Z) (x : Q) :
  JS.roundAt ex x - (1 # 2) * JS.pow2 ex <= x /\
  x <= JS.roundAt ex x + (1 # 2) * JS.pow2 ex.
Proof.
  unfold JS.roundAt. pose proof (pow2_pos ex) as Hp.
  destruct (roundHalfEven_near (x / JS.pow2 ex)) as [Hl Hu].
  set (m := inject_Z (JS.roundHalfEven (x / JS.pow2 ex))) in *.
  assert ((x / JS.pow2 ex) * JS.pow2 ex == x) as Ex by (field; lra).
  assert ((m - (1 # 2)) * JS.pow2 ex <= (x / JS.pow2 ex) * JS.pow2 ex)
    as H1 by (apply Qmult_le_compat_r; lra).
  assert ((x / JS.pow2 ex) * JS.pow2 ex <= (m + (1 # 2)) * JS.pow2 ex)
    as H2 by (apply Qmult_le_compat_r; lra).
  rewrite Ex in H1, H2.
  split.
  - setoid_replace (m * JS.pow2 ex - (1 # 2) * JS.pow2 ex)
      with ((m - (1 # 2)) * JS.pow2 ex) by ring.
    exact H1.
  - setoid_replace (m * JS.pow2 ex + (1 # 2) * JS.pow2 ex)
      with ((m + (1 # 2)) * JS.pow2 ex) by ring.
    exact H2.
Qed.

Lemma roundAt_nonneg (ex : Z) (q : Q) : 0 <= q -> 0 <= JS.roundAt ex q.
Proof.
  intros H. rewrite <- (roundAt_multiple ex 0 0) by ring.
  apply roundAt_mono, H.
Qed.

(** *** The nearest double *)

Lemma binary64_pos (q : Q) :
  0 < q -> JS.binary64 q = JS.roundAt (JS.quantum q) q.
Proof.
  intros H. unfold JS.binary64.
  destruct (Qcompare_spec q 0) as [E | E | E]; [lra | lra | reflexivity].
Qed.

Lemma binary64_neg (q : Q) :
  q < 0 -> JS.binary64 q = - JS.roundAt (JS.quantum (- q)) (- q).
Proof.
  intros H. unfold JS.binary64.
  destruct (Qcompare_spec q 0) as [E | E | E]; [lra | reflexivity | lra].
Qed.

Lemma binary64_zero (q : Q) : q == 0 -> JS.binary64 q = 0.
Proof.
  intros H. unfold JS.binary64.
  destruct (Qcompare_spec q 0) as [E | E | E]; [reflexivity | lra | lra].
Qed.

Lemma quantum_comp (q q' : Q) :
  0 < q -> q == q' -> JS.quantum q = JS.quantum q'.
Proof.
  intros Hq E. unfold JS.quantum. rewrite (exponent_comp q q' Hq E).
  reflexivity.
Qed.

Lemma binary64_comp (q q' : Q) : q == q' -> JS.binary64 q == JS.binary64 q'.
Proof.
  intros E. destruct (Qcompare_spec q 0) as [H | H | H].
  - rewrite (binary64_zero q H), (binary64_zero q')
      by (rewrite <- E; exact H).
    reflexivity.
  - rewrite (binary64_neg q H), (binary64_neg q') by (rewrite <- E; exact H).
    rewrite (quantum_comp (- q) (- q')) by (try rewrite E; lra).
    rewrite (roundAt_comp _ (- q) (- q')) by (rewrite E; reflexivity).
    reflexivity.
  - rewrite (binary64_pos q H), (binary64_pos q') by (rewrite <- E; exact H).
    rewrite (quantum_comp q q' H E).
    apply roundAt_comp, E.
Qed.

Lemma binary64_opp (q : Q) : JS.binary64 (- q) == - JS.binary64 q.
Proof.
  destruct (Qcompare_spec q 0) as [H | H | H].
  - rewrite (binary64_zero q H), (binary64_zero (- q)) by lra. reflexivity.
  - rewrite (binary64_neg q H), (binary64_pos (- q)) by lra. ring.
  - rewrite (binary64_pos q H), (binary64_neg (- q)) by lra.
    rewrite (quantum_comp (- - q) q) by (try lra; ring).
    rewrite (roundAt_comp _ (- - q) q) by ring. reflexivity.
Qed.

(** Two positive numbers in rounded order: either they are rounded in the
    same place, or a power of two lies between them, and that is a
    double. *)
Lemma binary64_mono_pos (q q' : Q) :
  0 < q -> q <= q' -> JS.binary64 q <= JS.binary64 q'.
Proof.
  intros Hq Hle. assert (0 < q') as Hq' by lra.
  rewrite (binary64_pos q Hq), (binary64_pos q' Hq').
  pose proof (exponent_mono q q' Hq Hle) as He.
  destruct (Z.eq_dec (JS.quantum q) (JS.quantum q')) as [E | N].
  - rewrite E. apply roundAt_mono, Hle.
  - unfold JS.quantum in *.
    set (e := JS.exponent q) in *. set (e' := JS.exponent q') in *.
    assert (e < e')%Z as He' by lia.
    assert (Z.max (e' - 52) (-1074) = e' - 52)%Z as Hx by lia.
    rewrite Hx in *.
    destruct (exponent_spec q Hq) as [_ Hu].
    destruct (exponent_spec q' Hq') as [Hl' _].
    fold e in Hu. fold e' in Hl'.
    assert (JS.pow2 (e + 1) <= JS.pow2 e') as Hmid by (apply pow2_le; lia).
    apply Qle_trans with (JS.pow2 e').
    + set (x := Z.max (e - 52) (-1074)) in *.
      rewrite <- (roundAt_multiple x (2 ^ (e' - x)) (JS.pow2 e')).
      * apply roundAt_mono. lra.
      * rewrite <- pow2_Z by lia. rewrite <- pow2_add.
        replace (e' - x + x)%Z with e' by lia. reflexivity.
    + rewrite <- (roundAt_multiple (e' - 52) (2 ^ 52) (JS.pow2 e')) at 1.
      * apply roundAt_mono. exact Hl'.
      * rewrite <- (pow2_Z 52) by lia. rewrite <- pow2_add.
        replace (52 + (e' - 52))%Z with e' by lia. reflexivity.
Qed.

Lemma binary64_nonneg (q : Q) : 0 <= q -> 0 <= JS.binary64 q.
Proof.
  intros H. destruct (Qcompare_spec q 0) as [E | E | E].
  - rewrite (binary64_zero q E). lra.
  - lra.
  - rewrite (binary64_pos q E). apply roundAt_nonneg, H.
Qed.

Lemma binary64_nonpos (q : Q) : q <= 0 -> JS.binary64 q <= 0.
Proof.
  intros H.
  assert (0 <= JS.binary64 (- q)) as H' by (apply binary64_nonneg; lra).
  rewrite binary64_opp in H'. lra.
Qed.

(** Rounding to the nearest double is monotone. *)
Lemma binary64_mono (q q' : Q) : q <= q' -> JS.binary64 q <= JS.binary64 q'.
Proof.
  intros Hle. destruct (Qlt_le_dec 0 q) as [Hq | Hq].
  - apply binary64_mono_pos; assumption.
  - destruct (Qlt_le_dec q' 0) as [Hq' | Hq'].
    + assert (JS.binary64 (- q') <= JS.binary64 (- q)) as H
        by (apply binary64_mono_pos; lra).
      rewrite !binary64_opp in H. lra.
    + pose proof (binary64_nonpos q Hq).
      pose proof (binary64_nonneg q' Hq'). lra.
Qed.

(** A number [m * 2 ^ e] with [|m| <= 2 ^ 53] and [e >= -1074] is a
    double: rounding leaves it as it is. *)
Lemma binary64_exact_pos (q : Q) (m e : Z) :
  q == inject_Z m * JS.pow2 e -> (0 < m <= 2 ^ 53)%Z -> (-1074 <= e)%Z ->
  JS.binary64 q == q.
Proof.
  intros E Hm He. pose proof (pow2_pos e) as Hp.
  assert (0 < q) as Hq.
  { rewrite E. apply Qmult_lt_0_compat; [apply inject_Z_pos; lia | exact Hp]. }
  rewrite (binary64_pos q Hq).
  pose proof (Z.log2_spec m ltac:(lia)) as Hlog.
  assert (0 <= Z.log2 m)%Z as Hl0 by apply Z.log2_nonneg.
  assert (JS.exponent q = Z.log2 m + e)%Z as Hexp.
  { apply exponent_unique; [exact Hq | |].
    - rewrite E, pow2_add, (pow2_Z (Z.log2 m)) by lia.
      apply Qmult_le_compat_r; [| lra]. rewrite <- Zle_Qle. lia.
    - rewrite E.
      replace (Z.log2 m + e + 1)%Z with (Z.succ (Z.log2 m) + e)%Z by lia.
      rewrite pow2_add, (pow2_Z (Z.succ (Z.log2 m))) by lia.
      apply Qmult_lt_compat_r; [exact Hp |]. rewrite <- Zlt_Qlt. lia. }
  unfold JS.quantum. rewrite Hexp.
  assert (Z.log2 m <= 53)%Z as Hl53.
  { destruct (Z.le_gt_cases (Z.log2 m) 53) as [H | H]; [exact H |].
    exfalso.
    assert (2 ^ 54 <= 2 ^ Z.log2 m)%Z by (apply Z.pow_le_mono_r; lia).
    lia. }
  destruct (Z.eq_dec (Z.log2 m) 53) as [E53 | N53].
  - assert (m = 2 ^ 53)%Z as Em by (rewrite E53 in Hlog; lia).
    rewrite E53.
    replace (Z.max (53 + e - 52) (-1074)) with (e + 1)%Z by lia.
    apply (roundAt_multiple (e + 1) (2 ^ 52)).
    rewrite E, Em, (pow2_add e 1).
    change (JS.pow2 1) with 2.
    change (inject_Z (2 ^ 53)) with (inject_Z (2 ^ 52) * 2). ring.
  - set (x := Z.max (Z.log2 m + e - 52) (-1074)).
    assert (x <= e)%Z as Hx by (unfold x; lia).
    apply (roundAt_multiple x (m * 2 ^ (e - x))).
    rewrite E, inject_Z_mult, <- pow2_Z by lia.
    rewrite <- Qmult_assoc, <- pow2_add.
    replace (e - x + x)%Z with e by lia. reflexivity.
Qed.

Lemma binary64_exact (q : Q) (m e : Z) :
  q == inject_Z m * JS.pow2 e -> (Z.abs m <= 2 ^ 53)%Z -> (-1074 <= e)%Z ->
  JS.binary64 q == q.
Proof.
  intros E Hm He. destruct (Z.lt_trichotomy m 0) as [H | [H | H]].
  - assert (JS.binary64 (- q) == - q) as H'.
    { apply (binary64_exact_pos (- q) (- m) e); [| lia | exact He].
      rewrite E, inject_Z_opp. ring. }
    rewrite binary64_opp in H'. lra.
  - subst m. rewrite (binary64_zero q); [| rewrite E; ring].
    rewrite E. ring.
  - apply (binary64_exact_pos q m e); [exact E | lia | exact He].
Qed.

(** An integer of magnitude at most [2 ^ 53] is a double. *)
Lemma binary64_Z (z : Z) :
  (Z.abs z <= 2 ^ 53)%Z -> JS.binary64 (inject_Z z) == inject_Z z.
Proof.
  intros H. apply (binary64_exact (inject_Z z) z 0); [| exact H | lia].
  change (JS.pow2 0) with 1. ring.
Qed.

(** Below [2 ^ 27] the nearest double is within [2 ^ -27]. *)
Lemma binary64_near (q : Q) :
  0 < q -> q < JS.pow2 27 ->
  JS.binary64 q - JS.pow2 (-27) <= q /\ q <= JS.binary64 q + JS.pow2 (-27).
Proof.
  intros Hq Hlt. rewrite (binary64_pos q Hq).
  destruct (exponent_spec q Hq) as [Hl _].
  assert (JS.exponent q <= 26)%Z as He.
  { destruct (Z.le_gt_cases (JS.exponent q) 26) as [H | H]; [exact H |].
    exfalso.
    assert (JS.pow2 27 <= JS.pow2 (JS.exponent q)) by (apply pow2_le; lia).
    lra. }
  assert (JS.quantum q <= -26)%Z as Hx by (unfold JS.quantum; lia).
  destruct (roundAt_near (JS.quantum q) q) as [H1 H2].
  apply pow2_le in Hx. change (JS.pow2 (-26)) with (1 # 67108864) in Hx.
  change (JS.pow2 (-27)) with (1 # 134217728).
  generalize dependent (JS.pow2 (JS.quantum q)).
  generalize dependent (JS.roundAt (JS.quantum q) q). intros. split; lra.
Qed.

End Binary64.

#[global] Instance binary64_proper : Proper (Qeq ==> Qeq) JS.binary64.
Proof. intros x y H. apply binary64_comp, H. Qed.

#[global] Instance round_proper : Proper (Qeq ==> eq) JS.round.
Proof. intros x y H. apply round_comp, H. Qed.

#[global] Instance add_proper : Proper (Qeq ==> Qeq ==> Qeq) JS.add.
Proof. intros x y H x' y' H'. unfold JS.add. rewrite H, H'. reflexivity. Qed.

#[global] Instance sub_proper : Proper (Qeq ==> Qeq ==> Qeq) JS.sub.
Proof. intros x y H x' y' H'. unfold JS.sub. rewrite H, H'. reflexivity. Qed.

#[global] Instance mul_proper : Proper (Qeq ==> Qeq ==> Qeq) JS.mul.
Proof. intros x y H x' y' H'. unfold JS.mul. rewrite H, H'. reflexivity. Qed.

#[global] Instance div_proper : Proper (Qeq ==> Qeq ==> Qeq) JS.div.
Proof. intros x y H x' y' H'. unfold JS.div. rewrite H, H'. reflexivity. Qed.

Section DoubleArithmetic.
Local Open Scope Q_scope.

(** Rounding does not cross a double. *)
Lemma binary64_below (q : Q) (k : Z) :
  (Z.abs k <= 2 ^ 53)%Z -> q <= inject_Z k -> JS.binary64 q <= inject_Z k.
Proof.
  intros Hk H. rewrite <- (binary64_Z k Hk). apply binary64_mono, H.
Qed.

Lemma binary64_above (q : Q) (k : Z) :
  (Z.abs k <= 2 ^ 53)%Z -> inject_Z k <= q -> inject_Z k <= JS.binary64 q.
Proof.
  intros Hk H. rewrite <- (binary64_Z k Hk). apply binary64_mono, H.
Qed.

Lemma add_mono (a a' b b' : Q) :
  a <= a' -> b <= b' -> JS.add a b <= JS.add a' b'.
Proof.
  intros Ha Hb. apply binary64_mono, Qplus_le_compat; assumption.
Qed.

Lemma mul_mono_l (k a b : Q) : 0 <= k -> a <= b -> JS.mul k a <= JS.mul k b.
Proof.
  intros Hk H. apply binary64_mono. rewrite !(Qmult_comm k).
  apply Qmult_le_compat_r; assumption.
Qed.

Lemma mul_mono_r (k a b : Q) : 0 <= k -> a <= b -> JS.mul a k <= JS.mul b k.
Proof.
  intros Hk H. apply binary64_mono. apply Qmult_le_compat_r; assumption.
Qed.

Lemma div_mono (d : Z) (a b : Z) :
  (0 < d)%Z -> (a <= b)%Z ->
  JS.div (inject_Z a) (inject_Z d) <= JS.div (inject_Z b) (inject_Z d).
Proof.
  intros Hd H. apply binary64_mono. unfold Qdiv.
  apply Qmult_le_compat_r; [rewrite <- Zle_Qle; exact H |].
  apply Qlt_le_weak, Qinv_lt_0_compat.
  change 0 with (inject_Z 0). rewrite <- Zlt_Qlt. exact Hd.
Qed.

Lemma add_nonneg (a b : Q) : 0 <= a -> 0 <= b -> 0 <= JS.add a b.
Proof.
  intros Ha Hb. apply binary64_nonneg.
  setoid_replace 0 with (0 + 0) by ring. apply Qplus_le_compat; assumption.
Qed.

Lemma mul_nonneg (a b : Q) : 0 <= a -> 0 <= b -> 0 <= JS.mul a b.
Proof.
  intros Ha Hb. apply binary64_nonneg, Qmult_le_0_compat; assumption.
Qed.

(** On integers whose quotient is an integer, division is exact. *)
Lemma div_exact (k d : Z) :
  (0 < d)%Z -> (Z.abs k <= 2 ^ 53)%Z ->
  JS.div (inject_Z (k * d)) (inject_Z d) == inject_Z k.
Proof.
  intros Hd Hk. unfold JS.div.
  assert (inject_Z (k * d) / inject_Z d == inject_Z k) as ->.
  { rewrite inject_Z_mult. field. apply inject_Z_nonzero. lia. }
  apply binary64_Z, Hk.
Qed.

Lemma sub_exact (a b : Z) :
  (Z.abs (a - b) <= 2 ^ 53)%Z ->
  JS.sub (inject_Z a) (inject_Z b) == inject_Z (a - b).
Proof.
  intros H. unfold JS.sub. rewrite <- inject_Z_sub. apply binary64_Z, H.
Qed.

Lemma binary64_abs (q : Q) : Qabs (JS.binary64 q) == JS.binary64 (Qabs q).
Proof.
  destruct (Qlt_le_dec q 0) as [Hneg | Hpos].
  - rewrite (Qabs_neg q) by lra. rewrite binary64_opp.
    apply Qabs_neg, binary64_nonpos. lra.
  - rewrite (Qabs_pos q) by exact Hpos.
    apply Qabs_pos, binary64_nonneg, Hpos.
Qed.

(** A whole number of days, up to [2 ^ 53] of them, is a double when
    counted in milliseconds. *)
Lemma days_exact (k : Z) :
  (Z.abs k <= 2 ^ 36)%Z ->
  JS.binary64 (inject_Z (k * MILLISECONDS_PER_DAY))
  == inject_Z (k * MILLISECONDS_PER_DAY).
Proof.
  intros Hk. apply (binary64_exact _ (k * 84375) 10); [| | lia].
  - change (JS.pow2 10) with (inject_Z 1024).
    rewrite <- inject_Z_mult. unfold MILLISECONDS_PER_DAY.
    replace (k * 84375 * 1024)%Z with (k * (24 * 60 * 60 * 1000))%Z by lia.
    reflexivity.
  - assert (2 ^ 36 * 84375 <= 2 ^ 53)%Z by (vm_compute; discriminate). lia.
Qed.

Lemma div_zero (q : Q) : JS.div 0 q == 0.
Proof.
  unfold JS.div. rewrite (binary64_zero (0 / q)); [reflexivity |].
  unfold Qdiv. ring.
Qed.
End DoubleArithmetic.

(** ** Impact scorer *)

Lemma calculateImpactScore_weigh (pr : GitHubPullRequest) :
  calculateImpactScore pr =
  weigh (Z.min 30 (sizeOf pr)) (Z.min 20 (changed_files pr))
    (Z.min 10 (commits pr)) (draft pr).
Proof. unfold calculateImpactScore, weigh, sizeOf. reflexivity. Qed.

Lemma penalty_range (isDraft : bool) :
  (0 <= (if isDraft then JS.literal (9 # 10) else 1) <= 1)%Q.
Proof.
  destruct isDraft; split; unfold Qle; vm_compute; discriminate.
Qed.

Lemma weighted_nonneg (k : Q) (a d : Z) :
  (0 <= k)%Q -> 0 < d -> 0 <= a ->
  (0 <= JS.mul k (JS.div (inject_Z a) (inject_Z d)))%Q.
Proof.
  intros Hk Hd Ha. apply mul_nonneg; [exact Hk |].
  rewrite <- (div_zero (inject_Z d)). apply (div_mono d 0 a); assumption.
Qed.

(** The score does not decrease when an input grows. *)
Lemma weigh_mono (s s' f f' c c' : Z) (isDraft : bool) :
  s <= s' -> f <= f' -> c <= c' ->
  weigh s f c isDraft <= weigh s' f' c' isDraft.
Proof.
  intros Hs Hf Hc. unfold weigh. apply round_mono.
  apply mul_mono_r; [apply penalty_range |].
  repeat apply add_mono; apply mul_mono_l; try discriminate.
  - apply (div_mono 30); [reflexivity | exact Hs].
  - apply (div_mono 20); [reflexivity | exact Hf].
  - apply (div_mono 10); [reflexivity | exact Hc].
Qed.

(** Marking a pull request as a draft does not raise its score. *)
Lemma weigh_draft (s f c : Z) :
  0 <= s -> 0 <= f -> 0 <= c -> weigh s f c true <= weigh s f c false.
Proof.
  intros Hs Hf Hc. unfold weigh. apply round_mono.
  apply binary64_mono.
  set (total := JS.add _ _).
  assert (0 <= total)%Q as Htotal.
  { unfold total. repeat apply add_nonneg.
    - apply (weighted_nonneg 50 s 30);
        [discriminate | reflexivity | exact Hs].
    - apply (weighted_nonneg 30 f 20);
        [discriminate | reflexivity | exact Hf].
    - apply (weighted_nonneg 20 c 10);
        [discriminate | reflexivity | exact Hc]. }
  rewrite !(Qmult_comm total). apply Qmult_le_compat_r; [| exact Htotal].
  apply (penalty_range true).
Qed.

Lemma score_range (pr : GitHubPullRequest) :
  countersNonNegative pr ->
  0 <= calculateImpactScore pr <= (if draft pr then 90 else 100).
Proof.
  intros (Ha & Hd & Hf & Hc). rewrite calculateImpactScore_weigh.
  unfold sizeOf. split.
  - assert (weigh 0 0 0 (draft pr) = 0) as H0
      by (destruct (draft pr); vm_compute; reflexivity).
    rewrite <- H0 at 1. apply weigh_mono; lia.
  - assert (weigh 30 20 10 (draft pr) = if draft pr then 90 else 100) as <-
      by (destruct (draft pr); vm_compute; reflexivity).
    apply weigh_mono; lia.
Qed.

(** C4: the impact score of a pull request is an integer (a [Z]); it lies
    in [0, 100] when the pull request is not a draft and in [0, 90] when it
    is one. *)
Theorem impact_score_bounds (pr : GitHubPullRequest) :
  countersNonNegative pr ->
  (draft pr = false -> 0 <= calculateImpactScore pr <= 100) /\
  (draft pr = true -> 0 <= calculateImpactScore pr <= 90).
Proof.
  intros Hpr. pose proof (score_range pr Hpr) as H.
  split; intros Hd; rewrite Hd in H; exact H.
Qed.

Lemma impact_score_bounds_witness :
  countersNonNegative (samplePR 40 10 3 5 false) /\
  0 <= calculateImpactScore (samplePR 40 10 3 5 false) <= 100.
Proof.
  assert (countersNonNegative (samplePR 40 10 3 5 false)) as H
    by (unfold countersNonNegative; simpl; lia).
  split; [exact H|].
  exact (proj1 (impact_score_bounds (samplePR 40 10 3 5 false) H) eq_refl).
Defined.

(** C5: with the draft flag and the two other inputs held fixed, the impact
    score does not decrease when additions+deletions, the number of changed
    files or the number of commits grows; from the saturation point of an
    input on (30, 20 and 10) the score no longer depends on that input. *)
Theorem impact_score_monotone (p q : GitHubPullRequest) :
  draft p = draft q ->
  (changed_files p = changed_files q -> commits p = commits q ->
   sizeOf p <= sizeOf q ->
   calculateImpactScore p <= calculateImpactScore q /\
   (30 <= sizeOf p -> calculateImpactScore p = calculateImpactScore q)) /\
  (sizeOf p = sizeOf q -> commits p = commits q ->
   changed_files p <= changed_files q ->
   calculateImpactScore p <= calculateImpactScore q /\
   (20 <= changed_files p ->
    calculateImpactScore p = calculateImpactScore q)) /\
  (sizeOf p = sizeOf q -> changed_files p = changed_files q ->
   commits p <= commits q ->
   calculateImpactScore p <= calculateImpactScore q /\
   (10 <= commits p -> calculateImpactScore p = calculateImpactScore q)).
Proof.
  intros Hd. rewrite !calculateImpactScore_weigh, Hd.
  split; [|split]; intros E1 E2 Hle; rewrite E1, E2; split.
  - apply weigh_mono; lia.
  - intros Hsat.
    rewrite (Z.min_l 30 (sizeOf p)), (Z.min_l 30 (sizeOf q)) by lia.
    reflexivity.
  - apply weigh_mono; lia.
  - intros Hsat.
    rewrite (Z.min_l 20 (changed_files p)), (Z.min_l 20 (changed_files q))
      by lia.
    reflexivity.
  - apply weigh_mono; lia.
  - intros Hsat.
    rewrite (Z.min_l 10 (commits p)), (Z.min_l 10 (commits q)) by lia.
    reflexivity.
Qed.

Lemma impact_score_monotone_witness :
  calculateImpactScore (samplePR 5 5 1 1 true)
  <= calculateImpactScore (samplePR 9 5 1 1 true).
Proof.
  refine (proj1 (proj1 (impact_score_monotone
                          (samplePR 5 5 1 1 true) (samplePR 9 5 1 1 true)
                          eq_refl) eq_refl eq_refl _)).
  unfold sizeOf; simpl; lia.
Defined.

(** The scorer on the pull request that changes five lines in no file and
    has no commit: the draft scores 7, where rounding the exact product
    [50 * 5 / 30 * 9 / 10 = 7.5] would give 8. *)
Example score_of_a_small_draft :
  calculateImpactScore (samplePR 5 0 0 0 true) = 7 /\
  calculateImpactScore (samplePR 5 0 0 0 false) = 8 /\
  JS.round (50 * (5 / 30) * (9 # 10)) = 8.
Proof. repeat split; vm_compute; reflexivity. Qed.

(** ** Range resolver *)

Section RangeResolverFacts.
Variable Number : option string -> JS.number.

Lemma coerceRange_finite_pos (range : option string) (q : Q) :
  Number range = JS.Finite q -> (0 < q)%Q ->
  coerceRange Number range = Z.min 90 (Z.max 7 (Qfloor q)).
Proof.
  intros Hn Hq. unfold coerceRange. rewrite Hn. simpl.
  destruct (Qle_bool q 0) eqn:E; [|reflexivity].
  apply Qle_bool_iff in E. exfalso. apply (Qlt_not_le _ _ Hq E).
Qed.

Lemma coerceRange_range (range : option string) :
  7 <= coerceRange Number range <= 90.
Proof.
  unfold coerceRange, DEFAULT_RANGE_DAYS.
  destruct (negb (JS.isFinite (Number range)) || JS.le0 (Number range));
    [lia|].
  destruct (Number range); lia.
Qed.
End RangeResolverFacts.

(** For a positive rational, [Math.floor] is truncation towards zero. *)
Lemma floor_positive_is_truncation (q : Q) :
  (0 < q)%Q -> JS.floor q = Z.quot (Qnum q) (Z.pos (Qden q)).
Proof.
  intros Hq. destruct q as [n d]. unfold JS.floor, Qfloor. simpl.
  unfold Qlt in Hq. simpl in Hq.
  symmetry. apply Z.quot_div_nonneg; lia.
Qed.

Lemma getRangeDayCount_dated (range : RangeDescriptor) (s u : timestamp) :
  datedFrom range s u ->
  getRangeDayCount range =
  JS.Integer
    (Z.max 1
       (JS.round
          (JS.div (Qabs (JS.sub (inject_Z u) (inject_Z s)))
             (inject_Z MILLISECONDS_PER_DAY)))).
Proof.
  intros (Hs & Hu). unfold getRangeDayCount. rewrite Hs, Hu. reflexivity.
Qed.

Lemma getRangeDayCount_undated (range : RangeDescriptor) :
  undated range -> getRangeDayCount range = JS.NotANumber.
Proof.
  unfold getRangeDayCount.
  intros [H | H]; rewrite H; [destruct (until range) |]; reflexivity.
Qed.

Lemma dayCount_of_window (now days : Z) :
  1 <= days <= 90 ->
  getRangeDayCount (between (now - days * 24 * 60 * 60 * 1000) now)
  = JS.Integer days.
Proof.
  intros Hd.
  rewrite (getRangeDayCount_dated _ (now - days * 24 * 60 * 60 * 1000) now)
    by (split; reflexivity).
  replace (now - days * 24 * 60 * 60 * 1000)
    with (now - days * MILLISECONDS_PER_DAY)
    by (unfold MILLISECONDS_PER_DAY; lia).
  assert (Z.abs (days * MILLISECONDS_PER_DAY) <= 2 ^ 53) as Hsmall.
  { unfold MILLISECONDS_PER_DAY.
    assert (90 * (24 * 60 * 60 * 1000) <= 2 ^ 53) by (vm_compute; discriminate).
    lia. }
  rewrite sub_exact
    by (replace (now - (now - days * MILLISECONDS_PER_DAY))
          with (days * MILLISECONDS_PER_DAY) by lia; exact Hsmall).
  replace (now - (now - days * MILLISECONDS_PER_DAY))
    with (days * MILLISECONDS_PER_DAY) by lia.
  rewrite Qabs_pos
    by (change 0%Q with (inject_Z 0); rewrite <- Zle_Qle;
        unfold MILLISECONDS_PER_DAY; lia).
  rewrite div_exact;
    [| reflexivity | assert (90 <= 2 ^ 53) by (vm_compute; discriminate); lia].
  rewrite round_Z. f_equal. lia.
Qed.

(** C6: a day count whose numeric value is not a finite number, or is at
    most zero, resolves to the default of 30 days; a positive finite one is
    truncated to an integer and clamped to [7, 90]; in every case the window
    built from the day count ends at the reading of the clock and is that
    many days long, between 7 and 90. *)
Theorem coerceRange_spec
    (Number : option string -> JS.number) (range : option string) :
  let n := Number range in
  (JS.isFinite n = false \/ JS.le0 n = true ->
   coerceRange Number range = 30) /\
  (forall q, n = JS.Finite q -> (0 < q)%Q ->
     coerceRange Number range =
     Z.min 90 (Z.max 7 (Z.quot (Qnum q) (Z.pos (Qden q))))) /\
  7 <= coerceRange Number range <= 90 /\
  (forall since_in until_in now,
     since_in = Absent \/ until_in = Absent ->
     exists r start,
       computeRangeDescriptor Number since_in until_in range now = Returned r /\
       until r = Instant now /\
       since r = Instant start /\
       now - start = coerceRange Number range * MILLISECONDS_PER_DAY /\
       getRangeDayCount r = JS.Integer (coerceRange Number range)).
Proof.
  intros n. split; [|split; [|split]].
  - intros [H|H]; unfold coerceRange; fold n; rewrite H.
    + reflexivity.
    + rewrite orb_true_r. reflexivity.
  - intros q Hn Hq.
    rewrite (coerceRange_finite_pos Number range q) by assumption.
    rewrite <- floor_positive_is_truncation by assumption. reflexivity.
  - apply coerceRange_range.
  - intros since_in until_in now Hnone.
    pose proof (coerceRange_range Number range) as Hr.
    exists (between (now - coerceRange Number range * 24 * 60 * 60 * 1000) now),
      (now - coerceRange Number range * 24 * 60 * 60 * 1000).
    split.
    { unfold computeRangeDescriptor.
      destruct Hnone as [-> | ->]; [reflexivity|].
      destruct since_in; reflexivity. }
    split; [reflexivity|]. split; [reflexivity|]. split.
    + unfold MILLISECONDS_PER_DAY. lia.
    + apply dayCount_of_window. lia.
Qed.

Lemma coerceRange_spec_witness :
  coerceRange sampleNumber (Some "-3"%string) = 30 /\
  coerceRange sampleNumber (Some "12.5"%string) = 12 /\
  exists r,
    computeRangeDescriptor sampleNumber Absent Absent (Some "12.5"%string)
      1700000000000 = Returned r /\
    getRangeDayCount r = JS.Integer 12.
Proof.
  split; [|split].
  - apply (proj1 (coerceRange_spec sampleNumber (Some "-3"%string))).
    right. reflexivity.
  - rewrite (proj1 (proj2 (coerceRange_spec sampleNumber (Some "12.5"%string)))
               (25 # 2) eq_refl eq_refl).
    reflexivity.
  - destruct (proj2 (proj2 (proj2
                (coerceRange_spec sampleNumber (Some "12.5"%string))))
                Absent Absent 1700000000000 (or_introl eq_refl))
      as (r & start & Hr & _ & _ & _ & H).
    exists r. split; [exact Hr|].
    rewrite H.
    rewrite (proj1 (proj2 (coerceRange_spec sampleNumber (Some "12.5"%string)))
               (25 # 2) eq_refl eq_refl).
    reflexivity.
Defined.

(** ** Day count of a window *)

Section DayCount.
Local Open Scope Q_scope.

(** Up to [2 ^ 53] milliseconds, rounding the quotient by the length of a
    day to a double does not change the day it is nearest to: the quotient
    is nearer than [2 ^ -27] to the double, and, short of a half, at least
    [1 / 86400000] away from it. *)
Lemma round_of_days (d : Z) :
  (0 <= d <= 2 ^ 53)%Z ->
  JS.round (JS.div (inject_Z d) (inject_Z MILLISECONDS_PER_DAY)) =
  JS.round (inject_Z d / inject_Z MILLISECONDS_PER_DAY).
Proof.
  intros Hd.
  assert (0 < MILLISECONDS_PER_DAY)%Z as Hms by reflexivity.
  pose proof (round_div_nearest d MILLISECONDS_PER_DAY Hms) as Hj.
  cbv zeta in Hj.
  set (j := JS.round (inject_Z d / inject_Z MILLISECONDS_PER_DAY)) in *.
  set (x := inject_Z d / inject_Z MILLISECONDS_PER_DAY) in *.
  assert (0 < inject_Z MILLISECONDS_PER_DAY) as Hms' by reflexivity.
  assert (x * inject_Z MILLISECONDS_PER_DAY == inject_Z d) as Hx
    by (unfold x; field; discriminate).
  unfold MILLISECONDS_PER_DAY in Hj.
  assert (inject_Z j - (1 # 2) <= x) as Hlow.
  { apply Qmult_lt_0_le_reg_r with (inject_Z MILLISECONDS_PER_DAY);
      [exact Hms' |].
    rewrite Hx.
    setoid_replace ((inject_Z j - (1 # 2)) * inject_Z MILLISECONDS_PER_DAY)
      with (inject_Z (j * 86400000 - 43200000))
      by (rewrite inject_Z_sub, inject_Z_mult; unfold MILLISECONDS_PER_DAY;
          simpl; ring).
    rewrite <- Zle_Qle. lia. }
  assert (x + (1 # 86400000) <= inject_Z j + (1 # 2)) as Hhigh.
  { apply Qmult_lt_0_le_reg_r with (inject_Z MILLISECONDS_PER_DAY);
      [exact Hms' |].
    setoid_replace ((x + (1 # 86400000)) * inject_Z MILLISECONDS_PER_DAY)
      with (x * inject_Z MILLISECONDS_PER_DAY + 1)
      by (unfold MILLISECONDS_PER_DAY; simpl; ring).
    rewrite Hx.
    setoid_replace ((inject_Z j + (1 # 2)) * inject_Z MILLISECONDS_PER_DAY)
      with (inject_Z (j * 86400000 + 43200000))
      by (rewrite inject_Z_plus, inject_Z_mult; unfold MILLISECONDS_PER_DAY;
          simpl; ring).
    change 1 with (inject_Z 1). rewrite <- inject_Z_plus, <- Zle_Qle. lia. }
  apply round_between.
  - (* the half below [j] is a double *)
    assert (0 <= j)%Z as Hj0 by lia.
    assert (j <= 2 ^ 27)%Z as Hj27.
    { assert (2 ^ 53 < 2 ^ 27 * 86400000)%Z by (vm_compute; reflexivity).
      assert (2 * 86400000 * j <= 2 * 86400000 * 2 ^ 27)%Z by lia.
      lia. }
    assert (JS.binary64 (inject_Z j - (1 # 2)) == inject_Z j - (1 # 2)) as <-.
    { apply (binary64_exact _ (2 * j - 1) (-1)).
      - rewrite inject_Z_sub, inject_Z_mult.
        change (JS.pow2 (-1)) with (1 # 2). simpl. ring.
      - assert (2 * 2 ^ 27 <= 2 ^ 53)%Z by (vm_compute; discriminate). lia.
      - lia. }
    apply binary64_mono, Hlow.
  - destruct (Z.eq_dec d 0) as [-> | Hnz].
    + unfold JS.div. rewrite (binary64_zero (inject_Z 0 / _)) by reflexivity.
      assert (0 <= j)%Z by lia.
      assert (0 <= inject_Z j)
        by (change 0 with (inject_Z 0); rewrite <- Zle_Qle; lia).
      lra.
    + assert (0 < x) as Hpos.
      { unfold x. apply Qlt_shift_div_l; [exact Hms' |].
        rewrite Qmult_0_l. change 0 with (inject_Z 0).
        rewrite <- Zlt_Qlt. lia. }
      assert (x < JS.pow2 27) as Hsmall.
      { unfold x. apply Qlt_shift_div_r; [exact Hms' |].
        change (JS.pow2 27) with (inject_Z (2 ^ 27)).
        rewrite <- inject_Z_mult, <- Zlt_Qlt.
        assert (2 ^ 53 < 2 ^ 27 * MILLISECONDS_PER_DAY)%Z
          by (vm_compute; reflexivity).
        lia. }
      destruct (binary64_near x Hpos Hsmall) as [Hnear _].
      change (JS.pow2 (-27)) with (1 # 134217728) in Hnear.
      unfold JS.div. fold x.
      generalize dependent (JS.binary64 x). intros b Hnear.
      generalize dependent (inject_Z j). intros. lra.
Qed.
End DayCount.

Section DayCountOfDates.
Local Open Scope Q_scope.

(** Between any two dates, the helper's quotient is rounded from a number
    between the number of whole days and the next. *)
Lemma round_of_days_floor (s u : timestamp) :
  isDate s -> isDate u ->
  let k := (Z.abs (u - s) / MILLISECONDS_PER_DAY)%Z in
  (k <= JS.round (JS.div (Qabs (JS.sub (inject_Z u) (inject_Z s)))
                    (inject_Z MILLISECONDS_PER_DAY)) <= k + 1)%Z.
Proof.
  intros Hs Hu k. unfold isDate in Hs, Hu.
  assert (0 < MILLISECONDS_PER_DAY)%Z as Hms by reflexivity.
  assert (0 < inject_Z MILLISECONDS_PER_DAY) as Hms' by reflexivity.
  set (D := Z.abs (u - s)) in *.
  pose proof (Z.mul_div_le D MILLISECONDS_PER_DAY Hms) as Hlow.
  pose proof (Z.mul_succ_div_gt D MILLISECONDS_PER_DAY Hms) as Hhigh.
  fold k in Hlow, Hhigh.
  assert (0 <= k <= 200000000)%Z as Hk.
  { assert (0 <= D <= 17280000000000000)%Z as HD by (unfold D; lia).
    unfold k. split; [apply Z.div_pos; lia|].
    apply Z.div_le_upper_bound; [lia|]. unfold MILLISECONDS_PER_DAY. lia. }
  assert (200000001 <= 2 ^ 36)%Z as Hsmall by (vm_compute; discriminate).
  assert (Z.abs k <= 2 ^ 53 /\ Z.abs (k + 1) <= 2 ^ 53)%Z as (Hk53 & Hk53').
  { assert (2 ^ 36 <= 2 ^ 53)%Z by (vm_compute; discriminate). lia. }
  unfold JS.sub. rewrite binary64_abs, <- inject_Z_sub.
  change (Qabs (inject_Z (u - s))) with (inject_Z D).
  set (y := JS.binary64 (inject_Z D)).
  assert (inject_Z (k * MILLISECONDS_PER_DAY) <= y) as Hy1.
  { unfold y. rewrite <- (days_exact k) by lia.
    apply binary64_mono. rewrite <- Zle_Qle. lia. }
  assert (y <= inject_Z ((k + 1) * MILLISECONDS_PER_DAY)) as Hy2.
  { unfold y. rewrite <- (days_exact (k + 1)) by lia.
    apply binary64_mono. rewrite <- Zle_Qle. lia. }
  split.
  - apply Z.le_trans with (JS.round (inject_Z k)); [rewrite round_Z; lia|].
    apply round_mono.
    apply binary64_above; [exact Hk53|].
    apply Qle_shift_div_l; [exact Hms'|].
    rewrite <- inject_Z_mult. exact Hy1.
  - apply Z.le_trans with (JS.round (inject_Z (k + 1)));
      [|rewrite round_Z; lia].
    apply round_mono.
    apply binary64_below; [exact Hk53'|].
    apply Qle_shift_div_r; [exact Hms'|].
    rewrite <- inject_Z_mult. exact Hy2.
Qed.
End DayCountOfDates.

(** C7 (as stated) fails: over a window of a day and a half the helper
    answers 2, the number of whole days is 1.  Nor is there a minimum of 1
    when a bound of the window is no date: the answer is [NaN].  (Beyond
    [2 ^ 53] milliseconds the difference of the two bounds is itself
    rounded: the last window is 115740741.49999999 days long, the helper
    answers 115740742.) *)
Lemma getRangeDayCount_not_floor :
  getRangeDayCount (between 0 129600000) = JS.Integer 2 /\
  wholeDaysBetween 0 129600000 = 1 /\
  ~ dayCountIsWholeDays (between 0 129600000) /\
  getRangeDayCount (mkRange InvalidDate (Instant 129600000)) = JS.NotANumber /\
  ~ dayCountIsWholeDays (mkRange InvalidDate (Instant 129600000)) /\
  getRangeDayCount (between (-5000000000000000) 5000000065599999)
  = JS.Integer 115740742.
Proof.
  split; [vm_compute; reflexivity|]. split; [reflexivity|].
  split; [|split; [reflexivity|split; [|vm_compute; reflexivity]]].
  - intros (s & u & (Hs & Hu) & H).
    injection Hs as <-. injection Hu as <-.
    vm_compute in H. discriminate.
  - intros (s & u & (Hs & _) & _). discriminate.
Qed.

(** C7 (amended): for a window whose bounds are dates, the helper returns
    the number of whole days between [since] and [until] or one more, and
    at least 1; when the bounds are at most [2 ^ 53] milliseconds apart,
    this is the distance in days rounded to the nearest integer (a half
    rounds up).  For a window with a bound that is no date it returns
    [NaN]. *)
Theorem getRangeDayCount_nearest (range : RangeDescriptor) :
  (forall s u,
     datedFrom range s u -> isDate s -> isDate u ->
     exists days,
       getRangeDayCount range = JS.Integer days /\
       1 <= days /\
       wholeDaysBetween s u <= days <= wholeDaysBetween s u + 1) /\
  (forall s u,
     datedFrom range s u ->
     let d := Z.abs (u - s) in
     d <= 2 ^ 53 ->
     exists n,
       getRangeDayCount range = JS.Integer (Z.max 1 n) /\
       2 * d - MILLISECONDS_PER_DAY < 2 * MILLISECONDS_PER_DAY * n
         <= 2 * d + MILLISECONDS_PER_DAY /\
       d / MILLISECONDS_PER_DAY <= n <= d / MILLISECONDS_PER_DAY + 1 /\
       wholeDaysBetween s u <= Z.max 1 n <= wholeDaysBetween s u + 1) /\
  (undated range -> getRangeDayCount range = JS.NotANumber).
Proof.
  split; [|split; [|apply getRangeDayCount_undated]].
  { intros s u Hdated Hs Hu.
    pose proof (round_of_days_floor s u Hs Hu) as Hk. cbv zeta in Hk.
    rewrite (getRangeDayCount_dated range s u Hdated).
    eexists. split; [reflexivity|]. unfold wholeDaysBetween. lia. }
  intros s u Hdated d Hd.
  assert (0 < MILLISECONDS_PER_DAY) as Hms by reflexivity.
  exists (JS.round (inject_Z d / inject_Z MILLISECONDS_PER_DAY)).
  pose proof (round_div_nearest d MILLISECONDS_PER_DAY Hms) as Hn.
  pose proof (round_div_floor d MILLISECONDS_PER_DAY Hms) as Hf.
  cbv zeta in Hn.
  split; [|unfold wholeDaysBetween; fold d; repeat split; lia].
  rewrite (getRangeDayCount_dated range s u Hdated).
  rewrite sub_exact by (fold d in Hd |- *; unfold d in *; lia).
  assert (Qabs (inject_Z (u - s)) = inject_Z d) as -> by reflexivity.
  rewrite (round_of_days d) by (unfold d; lia).
  reflexivity.
Qed.

Lemma getRangeDayCount_nearest_witness :
  exists n,
    getRangeDayCount (between 0 129600000) = JS.Integer (Z.max 1 n) /\
    2 * 129600000 - MILLISECONDS_PER_DAY < 2 * MILLISECONDS_PER_DAY * n
      <= 2 * 129600000 + MILLISECONDS_PER_DAY.
Proof.
  destruct (proj1 (proj2 (getRangeDayCount_nearest (between 0 129600000)))
              0 129600000 (conj eq_refl eq_refl))
    as (n & H1 & H2 & _).
  - vm_compute. discriminate.
  - exists n. split; [exact H1 | exact H2].
Defined.
(** ** The insertion-ordered map *)

Section JSMapFacts.
Context {V : Type}.
Implicit Types (m : JSMap.t V) (k : string) (v : V).

Lemma get_set_same k v m : JSMap.get k (JSMap.set k v m) = Some v.
Proof.
  induction m as [|[k' v'] m IH]; simpl.
  - rewrite String.eqb_refl. reflexivity.
  - destruct (String.eqb k k') eqn:E; simpl; rewrite E; auto.
Qed.

Lemma get_set_other k k' v m :
  k <> k' -> JSMap.get k' (JSMap.set k v m) = JSMap.get k' m.
Proof.
  intros Hne. induction m as [|[k0 v0] m IH]; simpl.
  - apply String.eqb_neq in Hne. rewrite String.eqb_sym, Hne. reflexivity.
  - destruct (String.eqb_spec k k0) as [->|E]; simpl.
    + apply not_eq_sym, String.eqb_neq in Hne. rewrite Hne. reflexivity.
    + rewrite IH. reflexivity.
Qed.

Lemma keys_set k v m :
  JSMap.keys (JSMap.set k v m) =
  match JSMap.get k m with
  | Some _ => JSMap.keys m
  | None => JSMap.keys m ++ [k]
  end.
Proof.
  induction m as [|[k' v'] m IH]; simpl; [reflexivity|].
  destruct (String.eqb k k') eqn:E; simpl; [reflexivity|].
  change (k' :: JSMap.keys (JSMap.set k v m) =
          match JSMap.get k m with
          | Some _ => k' :: JSMap.keys m
          | None => (k' :: JSMap.keys m) ++ [k]
          end).
  rewrite IH. destruct (JSMap.get k m); reflexivity.
Qed.

Lemma get_None_keys k m : JSMap.get k m = None <-> ~ In k (JSMap.keys m).
Proof.
  induction m as [|[k' v'] m IH]; simpl; [tauto|].
  destruct (String.eqb_spec k k') as [->|Hne].
  - split; [discriminate|]. intros H. exfalso. apply H. now left.
  - rewrite IH. split.
    + intros H [E|E]; [congruence|contradiction].
    + intros H E. apply H. now right.
Qed.

Lemma NoDup_keys_set k v m :
  NoDup (JSMap.keys m) -> NoDup (JSMap.keys (JSMap.set k v m)).
Proof.
  intros Hnd. rewrite keys_set.
  destruct (JSMap.get k m) eqn:E; [assumption|].
  apply get_None_keys in E.
  apply NoDup_app; [assumption| repeat constructor; intros [] | ].
  intros x Hx [<-|[]]. contradiction.
Qed.

Lemma In_get k v m :
  NoDup (JSMap.keys m) -> In (k, v) m -> JSMap.get k m = Some v.
Proof.
  induction m as [|[k' v'] m IH]; simpl; [tauto|].
  intros Hnd [E|Hin].
  - inversion E; subst. rewrite String.eqb_refl. reflexivity.
  - inversion Hnd as [|? ? Hnotin Hnd']; subst.
    destruct (String.eqb_spec k k') as [->|Hne].
    + exfalso. apply Hnotin. change (In (fst (k', v)) (map fst m)).
      apply in_map. assumption.
    + apply IH; assumption.
Qed.

Lemma get_In k v m : JSMap.get k m = Some v -> In (k, v) m.
Proof.
  induction m as [|[k' v'] m IH]; simpl; [discriminate|].
  destruct (String.eqb_spec k k') as [->|Hne].
  - intros [= ->]. now left.
  - intros H. right. apply IH. assumption.
Qed.
End JSMapFacts.

(** ** The fold of the repository aggregator *)

Section Fold.
Variables (repoName repoOwner : string) (range : RangeDescriptor).

Let step := absorb repoName repoOwner range.

Lemma absorb_repoMetric st pr :
  repoMetric (step st pr) = repoStep range (repoMetric st) pr.
Proof.
  unfold step, absorb, repoStep.
  destruct (withinRange (merged_at pr) range); reflexivity.
Qed.

Lemma absorb_accumulator st pr :
  engineerAccumulator (step st pr) =
  JSMap.set (authorOf pr)
    (engineerStep repoName range
       (match JSMap.get (authorOf pr) (engineerAccumulator st) with
        | Some e => e
        | None => newEngineer (authorOf pr) pr
        end) pr)
    (engineerAccumulator st).
Proof.
  unfold step, absorb, engineerStep.
  destruct (withinRange (merged_at pr) range); reflexivity.
Qed.

Lemma fold_repoMetric prs st :
  repoMetric (fold_left step prs st) =
  fold_left (repoStep range) prs (repoMetric st).
Proof.
  revert st. induction prs as [|pr prs IH]; intros st; simpl.
  - reflexivity.
  - rewrite IH, absorb_repoMetric. reflexivity.
Qed.

(** The entry of an author depends on the pull requests of that author
    only. *)
Lemma fold_get prs : forall st a,
  JSMap.get a (engineerAccumulator (fold_left step prs st)) =
  match JSMap.get a (engineerAccumulator st) with
  | Some e => Some (fold_left (engineerStep repoName range) (prsOf a prs) e)
  | None =>
      match prsOf a prs with
      | [] => None
      | first :: _ =>
          Some (fold_left (engineerStep repoName range) (prsOf a prs)
                  (newEngineer a first))
      end
  end.
Proof.
  induction prs as [|pr prs IH]; intros st a; simpl.
  - destruct (JSMap.get a (engineerAccumulator st)); reflexivity.
  - rewrite IH, absorb_accumulator.
    destruct (String.eqb_spec (authorOf pr) a) as [Ha|Ha].
    + subst a. rewrite get_set_same. simpl.
      destruct (JSMap.get (authorOf pr) (engineerAccumulator st));
        reflexivity.
    + rewrite get_set_other by assumption.
      destruct (JSMap.get a (engineerAccumulator st)); reflexivity.
Qed.

Lemma fold_keys_NoDup prs : forall st,
  NoDup (JSMap.keys (engineerAccumulator st)) ->
  NoDup (JSMap.keys (engineerAccumulator (fold_left step prs st))).
Proof.
  induction prs as [|pr prs IH]; intros st Hnd; simpl; [assumption|].
  apply IH. rewrite absorb_accumulator. apply NoDup_keys_set. assumption.
Qed.

Lemma fold_keys_In prs : forall st a,
  In a (JSMap.keys (engineerAccumulator (fold_left step prs st))) <->
  In a (JSMap.keys (engineerAccumulator st)) \/ In a (map authorOf prs).
Proof.
  induction prs as [|pr prs IH]; intros st a; simpl; [tauto|].
  rewrite IH, absorb_accumulator, keys_set.
  destruct (JSMap.get (authorOf pr) (engineerAccumulator st)) eqn:E.
  - assert (In (authorOf pr) (JSMap.keys (engineerAccumulator st))) as Hin.
    { destruct (in_dec string_dec (authorOf pr)
                  (JSMap.keys (engineerAccumulator st))) as [|Hn];
        [assumption|].
      apply get_None_keys in Hn. congruence. }
    intuition (subst; auto).
  - rewrite in_app_iff. simpl. tauto.
Qed.
End Fold.

Section Accounting.
Variables (repoName : string) (range : RangeDescriptor).

Lemma touchRepo_fields e :
  engineer (touchRepo repoName e) = engineer e /\
  mergedPRs (touchRepo repoName e) = mergedPRs e /\
  em_commits (touchRepo repoName e) = em_commits e /\
  linesAdded (touchRepo repoName e) = linesAdded e /\
  linesDeleted (touchRepo repoName e) = linesDeleted e /\
  lastActive (touchRepo repoName e) = lastActive e.
Proof.
  unfold touchRepo.
  destruct (existsb (String.eqb repoName) (repos e)); simpl; auto 10.
Qed.

(** The record of one author after that author's pull requests [l]. *)
Lemma engineer_fold l : forall e,
  let e' := fold_left (engineerStep repoName range) l e in
  let merged := mergedInWindow range l in
  engineer e' = engineer e /\
  mergedPRs e' = mergedPRs e + count merged /\
  em_commits e' = em_commits e + sumOf commits merged /\
  linesAdded e' = linesAdded e + sumOf additions merged /\
  linesDeleted e' = linesDeleted e + sumOf deletions merged /\
  lastActive e' = latest (lastActive e) (map updated_at merged).
Proof.
  induction l as [|pr l IH]; intros e; cbv zeta.
  - unfold count, latest; simpl. repeat split; lia.
  - simpl fold_left. specialize (IH (engineerStep repoName range e pr)).
    cbv zeta in IH. destruct IH as (H1 & H2 & H3 & H4 & H5 & H6).
    rewrite H1, H2, H3, H4, H5, H6. clear H1 H2 H3 H4 H5 H6.
    destruct (touchRepo_fields e) as (T1 & T2 & T3 & T4 & T5 & T6).
    unfold engineerStep, mergedInWindow. simpl filter.
    destruct (withinRange (merged_at pr) range); simpl.
    + rewrite T1, T2, T3, T4, T5, T6. unfold count, latest.
      cbn [List.length]. repeat split; try lia.
      f_equal. destruct (Z.ltb_spec (lastActive e) (updated_at pr)); lia.
    + rewrite T1, T2, T3, T4, T5, T6. repeat split; reflexivity.
Qed.

(** The repository record after the pull requests [l]. *)
Lemma repo_fold l : forall r,
  let r' := fold_left (repoStep range) l r in
  let merged := mergedInWindow range l in
  rm_mergedPRs r' = rm_mergedPRs r + count merged /\
  rm_commits r' = rm_commits r + sumOf commits merged /\
  rm_linesAdded r' = rm_linesAdded r + sumOf additions merged /\
  rm_linesDeleted r' = rm_linesDeleted r + sumOf deletions merged /\
  openPRs r' = openPRs r + count (notMergedInWindow range l).
Proof.
  induction l as [|pr l IH]; intros r; cbv zeta.
  - unfold count; simpl. repeat split; lia.
  - simpl fold_left. specialize (IH (repoStep range r pr)).
    cbv zeta in IH. destruct IH as (H1 & H2 & H3 & H4 & H5).
    rewrite H1, H2, H3, H4, H5. clear H1 H2 H3 H4 H5.
    unfold repoStep, mergedInWindow, notMergedInWindow. simpl filter.
    destruct (withinRange (merged_at pr) range); simpl;
      unfold count; cbn [List.length]; repeat split; lia.
Qed.
End Accounting.

Lemma withinRange_iff (ts : option timestamp) (range : RangeDescriptor) :
  withinRange ts range = true <->
  exists t s u, ts = Some t /\ datedFrom range s u /\ s <= t <= u.
Proof.
  unfold withinRange, datedFrom.
  destruct ts as [t|];
    [|split; [discriminate | intros (t & s & u & H & _); discriminate]].
  split.
  - intros H. apply andb_true_iff in H. destruct H as [H1 H2].
    unfold notBefore, notAfter in *.
    destruct (since range) as [|s]; [discriminate|].
    destruct (until range) as [|u]; [discriminate|].
    apply Z.leb_le in H1, H2. exists t, s, u. repeat split; assumption.
  - intros (t' & s & u & [= <-] & (Hs & Hu) & H). rewrite Hs, Hu.
    unfold notBefore, notAfter. apply andb_true_iff.
    rewrite !Z.leb_le. lia.
Qed.

(** With a bound that is no date, nothing is inside the window. *)
Lemma withinRange_undated (ts : option timestamp) (range : RangeDescriptor) :
  undated range -> withinRange ts range = false.
Proof.
  intros Hun. destruct (withinRange ts range) eqn:E; [|reflexivity].
  apply withinRange_iff in E. destruct E as (t & s & u & _ & (Hs & Hu) & _).
  destruct Hun as [H | H]; congruence.
Qed.

Lemma split_by_window (range : RangeDescriptor) (l : list GitHubPullRequest) :
  count l = count (mergedInWindow range l) + count (notMergedInWindow range l).
Proof.
  unfold count, mergedInWindow, notMergedInWindow.
  induction l as [|pr l IH]; [reflexivity|].
  cbn [filter]. destruct (withinRange (merged_at pr) range);
    cbn [negb List.length]; lia.
Qed.

(** ** The repository aggregator *)

Section Aggregate.
Variables (repoName repoOwner : string) (range : RangeDescriptor).
Variable prs : list GitHubPullRequest.

Let result := aggregateMetrics repoName repoOwner prs range.
Let final := foldPullRequests repoName repoOwner range prs.

Lemma final_get a :
  JSMap.get a (engineerAccumulator final) =
  match prsOf a prs with
  | [] => None
  | first :: _ =>
      Some (fold_left (engineerStep repoName range) (prsOf a prs)
              (newEngineer a first))
  end.
Proof.
  unfold final, foldPullRequests. rewrite fold_get. reflexivity.
Qed.

Lemma final_keys_NoDup : NoDup (JSMap.keys (engineerAccumulator final)).
Proof.
  unfold final, foldPullRequests. apply fold_keys_NoDup. constructor.
Qed.

Lemma final_keys_In a :
  In a (JSMap.keys (engineerAccumulator final)) <-> In a (map authorOf prs).
Proof.
  unfold final, foldPullRequests. rewrite fold_keys_In. simpl. tauto.
Qed.

(** Every engineer record of the result is the fold of that engineer's
    pull requests, started from the record made for the first of them. *)
Lemma engineerMetrics_inv e :
  In e (engineerMetrics result) ->
  exists first rest,
    prsOf (engineer e) prs = first :: rest /\
    e = finishEngineer range prs
          (fold_left (engineerStep repoName range) (first :: rest)
             (newEngineer (engineer e) first)).
Proof.
  unfold result, aggregateMetrics. simpl. fold final.
  unfold JSMap.values. rewrite map_map. intros Hin.
  apply in_map_iff in Hin. destruct Hin as ([k v] & <- & Hin). simpl.
  apply (In_get _ _ _ final_keys_NoDup) in Hin.
  rewrite final_get in Hin.
  destruct (prsOf k prs) as [|first rest] eqn:E; [discriminate|].
  injection Hin as <-.
  destruct (engineer_fold repoName range (first :: rest)
              (newEngineer k first)) as (Hname & _).
  simpl engineer at 2 in Hname.
  assert (engineer
            (fold_left (engineerStep repoName range) (first :: rest)
               (newEngineer k first)) = k) as Hk by exact Hname.
  exists first, rest.
  simpl fold_left in Hk |- *. rewrite Hk. split; [assumption|reflexivity].
Qed.

Lemma engineerMetrics_complete pr :
  In pr prs ->
  exists e, In e (engineerMetrics result) /\ engineer e = authorOf pr.
Proof.
  intros Hin.
  assert (In pr (prsOf (authorOf pr) prs)) as Hmine.
  { unfold prsOf. apply filter_In. split; [assumption|].
    apply String.eqb_refl. }
  pose proof (final_get (authorOf pr)) as Hget.
  destruct (prsOf (authorOf pr) prs) as [|first rest] eqn:E;
    [contradiction|].
  apply get_In in Hget.
  set (v := fold_left (engineerStep repoName range) (first :: rest)
              (newEngineer (authorOf pr) first)) in *.
  exists (finishEngineer range prs v). split.
  - unfold result, aggregateMetrics. simpl. fold final.
    apply in_map. unfold JSMap.values.
    apply (in_map snd) in Hget. exact Hget.
  - change (engineer v = authorOf pr).
    apply (engineer_fold repoName range (first :: rest)
             (newEngineer (authorOf pr) first)).
Qed.

Lemma result_repo_totals :
  let r := ra_repoMetric result in
  let merged := mergedInWindow range prs in
  rm_mergedPRs r = count merged /\
  rm_commits r = sumOf commits merged /\
  rm_linesAdded r = sumOf additions merged /\
  rm_linesDeleted r = sumOf deletions merged /\
  openPRs r = count (notMergedInWindow range prs).
Proof.
  unfold result, aggregateMetrics, foldPullRequests. simpl.
  rewrite fold_repoMetric.
  destruct (repo_fold range prs (repoMetric (initAgg repoName repoOwner)))
    as (H1 & H2 & H3 & H4 & H5).
  simpl in H1, H2, H3, H4, H5. repeat split; assumption.
Qed.
Lemma engineerMetrics_totals e :
  In e (engineerMetrics result) ->
  let mine := mergedInWindow range (prsOf (engineer e) prs) in
  mergedPRs e = count mine /\
  linesAdded e = sumOf additions mine /\
  linesDeleted e = sumOf deletions mine /\
  em_commits e = sumOf commits mine.
Proof.
  intros He mine.
  apply engineerMetrics_inv in He. destruct He as (first & rest & Hmine & He).
  destruct (engineer_fold repoName range (first :: rest)
              (newEngineer (engineer e) first)) as (_ & E2 & E3 & E4 & E5 & _).
  unfold mine. rewrite Hmine.
  set (v := fold_left _ _ _) in *.
  assert (mergedPRs e = mergedPRs v /\ linesAdded e = linesAdded v /\
          linesDeleted e = linesDeleted v /\ em_commits e = em_commits v)
    as (F2 & F4 & F5 & F3) by (rewrite He; repeat split; reflexivity).
  rewrite F2, F3, F4, F5, E2, E3, E4, E5. simpl. repeat split; lia.
Qed.
End Aggregate.

(** The end-to-end scenario of the specification. *)
Example scenario_totals :
  let result := aggregateMetrics "web" "acme" scenario (between 0 100) in
  let r := ra_repoMetric result in
  (rm_mergedPRs r, openPRs r, activeContributors r,
   rm_linesAdded r, rm_linesDeleted r) = (2, 1, 3, 45, 15) /\
  map impactScore (engineerMetrics result) = [65; 18; 0].
Proof. split; reflexivity. Qed.

(** C3: a collected pull request is counted on the merged side exactly when
    its merge timestamp is present and lies in [since, until], bounds
    included (so never when a bound is no date).  The merged count, the
    lines added and deleted and the commits of the repository record are
    the totals over those pull requests, and those of every engineer
    record the totals over those among that engineer's pull requests;
    every other pull request adds one to [openPRs] and nothing else. *)
Theorem merged_in_window_accounting
    (repoName repoOwner : string) (prs : list GitHubPullRequest)
    (range : RangeDescriptor) :
  let result := aggregateMetrics repoName repoOwner prs range in
  let r := ra_repoMetric result in
  let merged := mergedInWindow range prs in
  (forall pr,
     In pr merged <->
     In pr prs /\
     exists t s u,
       merged_at pr = Some t /\ since range = Instant s /\
       until range = Instant u /\ s <= t <= u) /\
  (forall pr,
     In pr (notMergedInWindow range prs) <-> In pr prs /\ ~ In pr merged) /\
  rm_mergedPRs r = count merged /\
  rm_linesAdded r = sumOf additions merged /\
  rm_linesDeleted r = sumOf deletions merged /\
  rm_commits r = sumOf commits merged /\
  openPRs r = count (notMergedInWindow range prs) /\
  openPRs r = count prs - count merged /\
  (forall pr, In pr prs ->
     exists e, In e (engineerMetrics result) /\ engineer e = authorOf pr) /\
  (forall e, In e (engineerMetrics result) ->
     let mine := mergedInWindow range (prsOf (engineer e) prs) in
     mergedPRs e = count mine /\
     linesAdded e = sumOf additions mine /\
     linesDeleted e = sumOf deletions mine /\
     em_commits e = sumOf commits mine).
Proof.
  intros result r merged.
  destruct (result_repo_totals repoName repoOwner range prs)
    as (H1 & H2 & H3 & H4 & H5).
  assert (forall pr,
            In pr merged <->
            In pr prs /\
            exists t s u,
              merged_at pr = Some t /\ since range = Instant s /\
              until range = Instant u /\ s <= t <= u)
    as Hmerged.
  { intros pr. unfold merged, mergedInWindow.
    rewrite filter_In, withinRange_iff. unfold datedFrom.
    split; intros (Hin & t & s & u & H); (split; [exact Hin|]);
      exists t, s, u; tauto. }
  split; [exact Hmerged|]. split.
  { intros pr. unfold notMergedInWindow, merged, mergedInWindow.
    rewrite !filter_In, negb_true_iff.
    destruct (withinRange (merged_at pr) range); intuition congruence. }
  repeat (split; [assumption|]).
  split; [|split].
  - pose proof (split_by_window range prs) as Hsplit.
    subst r result merged. lia.
  - intros pr. apply engineerMetrics_complete.
  - intros e He. apply (engineerMetrics_totals repoName repoOwner). exact He.
Qed.

Lemma merged_in_window_accounting_witness :
  rm_mergedPRs
    (ra_repoMetric (aggregateMetrics "web" "acme" mergedThenOpen (between 0 100)))
  = 1 /\
  openPRs
    (ra_repoMetric (aggregateMetrics "web" "acme" mergedThenOpen (between 0 100)))
  = 1.
Proof.
  destruct (merged_in_window_accounting "web" "acme" mergedThenOpen
              (between 0 100)) as (_ & _ & Hm & _ & _ & _ & Ho & _).
  split; [rewrite Hm | rewrite Ho]; reflexivity.
Defined.

(** C8 (as stated) fails: for an author whose first pull request was merged
    inside the window and updated at 10, and whose second is still open and
    was updated at 50, [lastActive] is 10 and not 50. *)
Lemma lastActive_ignores_open_prs :
  map lastActive
    (engineerMetrics
       (aggregateMetrics "web" "acme" mergedThenOpen (between 0 100))) = [10]
  /\ latestUpdate (prsOf "alice" mergedThenOpen) = 50
  /\ ~ lastActiveIsLatestUpdate "web" "acme" mergedThenOpen (between 0 100).
Proof.
  split; [reflexivity|]. split; [reflexivity|].
  intros H.
  specialize (H _ (or_introl eq_refl)).
  vm_compute in H. discriminate.
Qed.

(** C8 (amended): the [lastActive] field of an engineer record is the latest
    among the update timestamp of the first pull request collected for that
    engineer and the update timestamps of that engineer's pull requests
    merged inside the window. *)
Theorem lastActive_spec
    (repoName repoOwner : string) (prs : list GitHubPullRequest)
    (range : RangeDescriptor) (e : EngineerMetric) :
  In e (engineerMetrics (aggregateMetrics repoName repoOwner prs range)) ->
  exists first rest,
    prsOf (engineer e) prs = first :: rest /\
    lastActive e =
    latest (updated_at first)
      (map updated_at (mergedInWindow range (prsOf (engineer e) prs))).
Proof.
  intros He.
  apply engineerMetrics_inv in He. destruct He as (first & rest & Hmine & He).
  exists first, rest. split; [assumption|].
  destruct (engineer_fold repoName range (first :: rest)
              (newEngineer (engineer e) first)) as (_ & _ & _ & _ & _ & E6).
  rewrite Hmine.
  set (v := fold_left _ _ _) in *.
  assert (lastActive e = lastActive v) as -> by (rewrite He; reflexivity).
  exact E6.
Qed.

Lemma lastActive_spec_witness :
  exists e first rest,
    In e (engineerMetrics
            (aggregateMetrics "web" "acme" mergedThenOpen (between 0 100))) /\
    prsOf (engineer e) mergedThenOpen = first :: rest /\
    lastActive e =
    latest (updated_at first)
      (map updated_at
         (mergedInWindow (between 0 100) (prsOf (engineer e) mergedThenOpen))).
Proof.
  eexists. 
  destruct (lastActive_spec "web" "acme" mergedThenOpen (between 0 100) _
              (or_introl eq_refl)) as (first & rest & H1 & H2).
  exists first, rest. split; [left; reflexivity|]. split; assumption.
Defined.

Lemma singleton_of_NoDup {A : Type} (a : A) (l : list A) :
  NoDup l -> (forall x, In x l <-> x = a) -> l = [a].
Proof.
  intros Hnd Hall. destruct l as [|x l].
  - exfalso. apply (proj2 (Hall a) eq_refl).
  - assert (x = a) as -> by (apply Hall; now left).
    destruct l as [|y l]; [reflexivity|].
    assert (y = a) as -> by (apply Hall; right; now left).
    inversion Hnd as [|? ? Hnotin _]. exfalso. apply Hnotin. now left.
Qed.

(** [activeContributors] is the number of distinct authors among the
    collected pull requests, merged or not. *)
Lemma activeContributors_distinct_authors
    (repoName repoOwner : string) (prs : list GitHubPullRequest)
    (range : RangeDescriptor) :
  activeContributors
    (ra_repoMetric (aggregateMetrics repoName repoOwner prs range)) =
  Z.of_nat (List.length (nodup string_dec (map authorOf prs))).
Proof.
  unfold aggregateMetrics. simpl. unfold JSMap.size. f_equal.
  rewrite <- (length_map fst).
  apply Permutation_length, NoDup_Permutation.
  - apply final_keys_NoDup.
  - apply NoDup_nodup.
  - intros a. rewrite nodup_In. apply final_keys_In.
Qed.

(** C9: when no collected pull request has an author identity (and there
    is at least one pull request), each of them is attributed to "unknown",
    the engineer records of the repository are a single record named
    "unknown" that carries all their merged-side totals, and
    [activeContributors] is exactly 1. *)
Theorem authorless_fold_into_unknown
    (repoName repoOwner : string) (prs : list GitHubPullRequest)
    (range : RangeDescriptor) :
  prs <> [] ->
  Forall (fun pr => user pr = None) prs ->
  let result := aggregateMetrics repoName repoOwner prs range in
  (forall pr, In pr prs -> authorOf pr = "unknown"%string) /\
  activeContributors (ra_repoMetric result) = 1 /\
  exists e,
    engineerMetrics result = [e] /\
    engineer e = "unknown"%string /\
    mergedPRs e = count (mergedInWindow range prs) /\
    linesAdded e = sumOf additions (mergedInWindow range prs) /\
    linesDeleted e = sumOf deletions (mergedInWindow range prs) /\
    em_commits e = sumOf commits (mergedInWindow range prs).
Proof.
  intros Hne Hall result.
  assert (forall pr, In pr prs -> authorOf pr = "unknown"%string) as Hauth.
  { intros pr Hin. rewrite Forall_forall in Hall.
    unfold authorOf. rewrite (Hall pr Hin). reflexivity. }
  assert (prsOf "unknown" prs = prs) as Hmine.
  { unfold prsOf. apply forallb_filter_id. apply forallb_forall.
    intros pr Hin. rewrite (Hauth pr Hin). apply String.eqb_refl. }
  set (final := foldPullRequests repoName repoOwner range prs).
  assert (JSMap.keys (engineerAccumulator final) = ["unknown"%string]) as Hkeys.
  { apply singleton_of_NoDup; [apply final_keys_NoDup|].
    intros a. unfold final. rewrite final_keys_In, in_map_iff. split.
    - intros (pr & <- & Hin). auto.
    - intros ->. destruct prs as [|pr rest]; [contradiction|].
      exists pr. split; [apply Hauth|]; now left. }
  assert (exists v, engineerAccumulator final = [("unknown"%string, v)])
    as (v & Hacc).
  { unfold JSMap.keys in Hkeys.
    destruct (engineerAccumulator final) as [|[k v] [|? ?]];
      try discriminate.
    injection Hkeys as ->. exists v. reflexivity. }
  split; [exact Hauth|]. split.
  - unfold result, aggregateMetrics. simpl. fold final. rewrite Hacc.
    reflexivity.
  - exists (finishEngineer range prs v).
    assert (In (finishEngineer range prs v) (engineerMetrics result)) as Hin.
    { unfold result, aggregateMetrics. simpl. fold final. rewrite Hacc.
      now left. }
    split.
    { unfold result, aggregateMetrics. simpl. fold final. rewrite Hacc.
      reflexivity. }
    destruct (engineerMetrics_complete repoName repoOwner range prs)
      with (pr := hd (samplePR 0 0 0 0 false) prs) as (e' & He' & Hname).
    { destruct prs; [contradiction|now left]. }
    assert (e' = finishEngineer range prs v) as ->.
    { unfold aggregateMetrics in He'. simpl in He'. fold final in He'.
      rewrite Hacc in He'. destruct He' as [<-|[]]. reflexivity. }
    rewrite Hauth in Hname by (destruct prs; [contradiction|now left]).
    split; [exact Hname|].
    pose proof (engineerMetrics_totals repoName repoOwner range prs _ Hin)
      as Heng.
    cbv zeta in Heng. rewrite Hname, Hmine in Heng. exact Heng.
Qed.

Lemma authorless_fold_into_unknown_witness :
  activeContributors
    (ra_repoMetric (aggregateMetrics "web" "acme" authorless (between 0 100)))
  = 1.
Proof.
  refine (proj1 (proj2 (authorless_fold_into_unknown
                          "web" "acme" authorless (between 0 100) _ _))).
  - discriminate.
  - repeat constructor.
Defined.

(** ** Health score *)

Lemma getRangeDayCount_positive (range : RangeDescriptor) (s u : timestamp) :
  datedFrom range s u ->
  exists days, getRangeDayCount range = JS.Integer days /\ 1 <= days.
Proof.
  intros H. rewrite (getRangeDayCount_dated range s u H).
  eexists. split; [reflexivity|]. lia.
Qed.

(** The repository record once its derived fields are set, for a window
    whose bounds are dates. *)
Lemma deriveRepo_dated (range : RangeDescriptor) (s u : timestamp)
    (prs : list GitHubPullRequest) (n : Z) (r : RepoMetric) :
  datedFrom range s u ->
  exists days,
    getRangeDayCount range = JS.Integer days /\ 1 <= days /\
    let frequency :=
      Z.max 1 (JS.round (JS.div (inject_Z (rm_mergedPRs r)) (inject_Z days))) in
    deploymentFrequency (deriveRepo range prs n r) = JS.Integer frequency /\
    healthScore (deriveRepo range prs n r) =
      JS.Integer
        (Z.max 0
           (Z.min 100
              (JS.round (healthRaw (rm_mergedPRs r) frequency (openPRs r))))).
Proof.
  intros H.
  destruct (getRangeDayCount_positive range s u H) as (days & Hd & H1).
  exists days. split; [exact Hd|]. split; [exact H1|].
  unfold deriveRepo, healthRaw. cbn [deploymentFrequency healthScore].
  rewrite Hd. split; reflexivity.
Qed.

(** With a bound that is no date, both derived fields are [NaN]. *)
Lemma deriveRepo_undated (range : RangeDescriptor)
    (prs : list GitHubPullRequest) (n : Z) (r : RepoMetric) :
  undated range ->
  deploymentFrequency (deriveRepo range prs n r) = JS.NotANumber /\
  healthScore (deriveRepo range prs n r) = JS.NotANumber.
Proof.
  intros H. unfold deriveRepo. cbn [deploymentFrequency healthScore].
  rewrite (getRangeDayCount_undated range H). split; reflexivity.
Qed.

Lemma deriveRepo_counts (range : RangeDescriptor)
    (prs : list GitHubPullRequest) (n : Z) (r : RepoMetric) :
  rm_mergedPRs (deriveRepo range prs n r) = rm_mergedPRs r /\
  openPRs (deriveRepo range prs n r) = openPRs r.
Proof. split; reflexivity. Qed.

(** With no negative merged count and a frequency of at least 1, the value
    the health score is rounded from is at least 6. *)
Lemma healthRaw_lower (merged frequency open : Z) :
  0 <= merged -> 1 <= frequency ->
  (6 <= healthRaw merged frequency open)%Q.
Proof.
  intros Hm Hf. unfold healthRaw.
  assert (0 <= JS.mul (inject_Z merged) (JS.literal (3 # 10)))%Q as Ha.
  { apply mul_nonneg.
    - change 0%Q with (inject_Z 0). rewrite <- Zle_Qle. exact Hm.
    - apply binary64_nonneg. discriminate. }
  assert (6 <= JS.mul (inject_Z frequency) 6)%Q as Hb.
  { apply (binary64_above _ 6); [vm_compute; discriminate|].
    change (inject_Z 6) with (inject_Z 1 * 6)%Q.
    apply Qmult_le_compat_r; [rewrite <- Zle_Qle; exact Hf | discriminate]. }
  assert (0 <= inject_Z (Z.max 0 (40 - open * 2)))%Q as Hc
    by (change 0%Q with (inject_Z 0); rewrite <- Zle_Qle; lia).
  assert (6 <= JS.add (JS.mul (inject_Z merged) (JS.literal (3 # 10)))
                 (JS.mul (inject_Z frequency) 6))%Q as Hab.
  { apply (binary64_above _ 6); [vm_compute; discriminate|].
    change (inject_Z 6) with 6%Q. lra. }
  apply (binary64_above _ 6); [vm_compute; discriminate|].
  change (inject_Z 6) with 6%Q. lra.
Qed.

(** The derived fields of the record the aggregator returns. *)
Lemma aggregate_health
    (repoName repoOwner : string) (prs : list GitHubPullRequest)
    (range : RangeDescriptor) :
  let r := ra_repoMetric (aggregateMetrics repoName repoOwner prs range) in
  (forall s u,
     datedFrom range s u ->
     exists f h,
       deploymentFrequency r = JS.Integer f /\ 1 <= f /\
       (6 <= healthRaw (rm_mergedPRs r) f (openPRs r))%Q /\
       6 <= JS.round (healthRaw (rm_mergedPRs r) f (openPRs r)) /\
       healthScore r = JS.Integer h /\
       h = Z.min 100 (JS.round (healthRaw (rm_mergedPRs r) f (openPRs r))) /\
       6 <= h <= 100) /\
  (undated range ->
   deploymentFrequency r = JS.NotANumber /\ healthScore r = JS.NotANumber).
Proof.
  intros r.
  destruct (result_repo_totals repoName repoOwner range prs) as (Hm & _).
  fold r in Hm.
  assert (0 <= rm_mergedPRs r) as Hm0 by (rewrite Hm; unfold count; lia).
  set (st := foldPullRequests repoName repoOwner range prs) in *.
  assert (r = deriveRepo range prs (JSMap.size (engineerAccumulator st))
                (repoMetric st)) as Hr by reflexivity.
  destruct (deriveRepo_counts range prs (JSMap.size (engineerAccumulator st))
              (repoMetric st)) as (Cm & Co).
  rewrite <- Hr in Cm, Co.
  split.
  - intros s u Hdated.
    destruct (deriveRepo_dated range s u prs
                (JSMap.size (engineerAccumulator st)) (repoMetric st) Hdated)
      as (days & _ & _ & Hf & Hh).
    cbv zeta in Hf, Hh. rewrite <- Hr, <- Cm in Hf.
    rewrite <- Hr, <- Cm, <- Co in Hh.
    set (f := Z.max 1 _) in *.
    assert (1 <= f) as Hf1 by (unfold f; lia).
    pose proof (healthRaw_lower (rm_mergedPRs r) f (openPRs r) Hm0 Hf1) as Hraw.
    assert (6 <= JS.round (healthRaw (rm_mergedPRs r) f (openPRs r))) as Hround.
    { rewrite <- (round_Z 6). apply round_mono. exact Hraw. }
    exists f, (Z.min 100 (JS.round (healthRaw (rm_mergedPRs r) f (openPRs r)))).
    split; [exact Hf|]. split; [exact Hf1|]. split; [exact Hraw|].
    split; [exact Hround|]. split; [|split; [reflexivity|lia]].
    rewrite Hh. f_equal. lia.
  - intros Hun. rewrite Hr. apply deriveRepo_undated, Hun.
Qed.

(** C10 (as stated) fails: over a window whose opening bound is no date
    the deployment frequency and the health score of the record are [NaN],
    no number from 6 to 100. *)
Lemma healthScore_not_a_number :
  let r :=
    ra_repoMetric
      (aggregateMetrics "web" "acme" scenario
         (mkRange InvalidDate (Instant 100))) in
  deploymentFrequency r = JS.NotANumber /\
  healthScore r = JS.NotANumber /\
  ~ healthScoreInRange r.
Proof.
  cbv zeta. split; [reflexivity|]. split; [reflexivity|].
  intros (h & H & _). discriminate.
Qed.

(** C10 (amended): for a window whose bounds are dates, the health score
    of every repository record lies in [6, 100].  The deployment frequency
    is at least 1 and the merged count is not negative, so the value before
    clamping is at least 6, its rounding is at least 6, and the lower clamp
    at 0 never binds.  For a window with a bound that is no date, the
    deployment frequency and the health score are [NaN]. *)
Theorem healthScore_bounds
    (repoName repoOwner : string) (prs : list GitHubPullRequest)
    (range : RangeDescriptor) :
  let r := ra_repoMetric (aggregateMetrics repoName repoOwner prs range) in
  (forall s u,
     datedFrom range s u ->
     exists f h,
       deploymentFrequency r = JS.Integer f /\ 1 <= f /\
       (6 <= healthRaw (rm_mergedPRs r) f (openPRs r))%Q /\
       6 <= JS.round (healthRaw (rm_mergedPRs r) f (openPRs r)) /\
       healthScore r = JS.Integer h /\
       h = Z.min 100 (JS.round (healthRaw (rm_mergedPRs r) f (openPRs r))) /\
       6 <= h <= 100) /\
  (undated range ->
   deploymentFrequency r = JS.NotANumber /\ healthScore r = JS.NotANumber).
Proof. apply aggregate_health. Qed.

Lemma healthScore_bounds_witness :
  exists h,
    healthScore
      (ra_repoMetric (aggregateMetrics "web" "acme" scenario (between 0 100)))
    = JS.Integer h /\ 6 <= h <= 100.
Proof.
  destruct (proj1 (healthScore_bounds "web" "acme" scenario (between 0 100))
              0 100 (conj eq_refl eq_refl))
    as (f & h & _ & _ & _ & _ & Hh & _ & Hrange).
  exists h. split; [exact Hh | exact Hrange].
Defined.

(** ** Pull request collector *)

Section Collector.
Variable platform : Platform.
Variable token : option string.
Hypothesis token_present : truthy token = true.
Variables (owner repo : string) (range : RangeDescriptor).

Lemma fetchFromGitHub_answer {T : Type} (request : Request)
    (answer : Answer T) (log : list Request) :
  fetchFromGitHub token request answer log =
  (match answer with
   | inl message => Threw message
   | inr body => Returned body
   end, log ++ [request]).
Proof.
  unfold fetchFromGitHub. rewrite token_present. simpl.
  unfold bind, send. destruct answer; reflexivity.
Qed.

(** Inside a page, a pull request merged more than a day before the
    window ends the scan on the spot: neither it nor the rest of the page
    is looked up, and the flag is lowered. *)
Lemma scanBatch_breaks pr rest prs flag log :
  mergedLongBefore range pr = true ->
  scanBatch platform token owner repo range (pr :: rest) prs flag log =
  (Returned (prs, false), log).
Proof.
  unfold mergedLongBefore. intros H. cbn [scanBatch]. rewrite H.
  reflexivity.
Qed.

(** Once the flag is down the loop issues no further request. *)
Lemma fetch_loop_stops fuel prs page log :
  fetchPullRequests_loop platform token fuel owner repo range prs page
    false log = (Returned prs, log).
Proof. destruct fuel; reflexivity. Qed.

(** After page 5 the loop issues no further request. *)
Lemma fetch_loop_ceiling fuel prs page flag log :
  5 < page ->
  fetchPullRequests_loop platform token fuel owner repo range prs page
    flag log = (Returned prs, log).
Proof.
  intros Hp. destruct fuel; [reflexivity|]. simpl.
  destruct (Z.leb_spec page 5); [lia|].
  rewrite andb_false_r. reflexivity.
Qed.

(** One turn of the loop: whatever flag the scan of the page leaves
    behind, the loop goes on with the flag "the page was full". *)
Lemma fetch_loop_turn fuel prs page log batch prs' flag log' :
  page <= 5 ->
  pullList platform owner repo page = inr batch ->
  scanBatch platform token owner repo range batch prs true
    (log ++ [ListPulls owner repo page]) = (Returned (prs', flag), log') ->
  fetchPullRequests_loop platform token (S fuel) owner repo range prs page
    true log =
  fetchPullRequests_loop platform token fuel owner repo range prs'
    (page + 1) (Nat.eqb (List.length batch) perPage) log'.
Proof.
  intros Hp Hbatch Hscan. simpl.
  destruct (Z.leb_spec page 5); [|lia].
  unfold bind at 1. rewrite fetchFromGitHub_answer, Hbatch.
  unfold bind at 1. rewrite Hscan. reflexivity.
Qed.

(** A page short of 50 entries is the last one requested. *)
Lemma short_page_ends_pagination fuel prs page log batch prs' flag log' :
  page <= 5 ->
  pullList platform owner repo page = inr batch ->
  List.length batch <> perPage ->
  scanBatch platform token owner repo range batch prs true
    (log ++ [ListPulls owner repo page]) = (Returned (prs', flag), log') ->
  fetchPullRequests_loop platform token (S fuel) owner repo range prs page
    true log = (Returned prs', log').
Proof.
  intros Hp Hbatch Hshort Hscan.
  rewrite (fetch_loop_turn fuel prs page log batch prs' flag log')
    by assumption.
  apply Nat.eqb_neq in Hshort. rewrite Hshort. apply fetch_loop_stops.
Qed.

(** The fuel given to the loop is never the reason it stops. *)
Lemma fetch_loop_fuel fuel : forall prs page flag log,
  1 <= page ->
  (Z.to_nat (6 - page) <= fuel)%nat ->
  fetchPullRequests_loop platform token fuel owner repo range prs page
    flag log =
  fetchPullRequests_loop platform token (Z.to_nat (6 - page)) owner repo
    range prs page flag log.
Proof.
  induction fuel as [|fuel IH]; intros prs page flag log Hp Hfuel.
  - replace (Z.to_nat (6 - page)) with 0%nat by lia. reflexivity.
  - destruct (Z.leb_spec page 5) as [Hle|Hgt].
    + replace (Z.to_nat (6 - page)) with (S (Z.to_nat (6 - (page + 1))))
        by lia.
      simpl. destruct (flag && (page <=? 5)); [|reflexivity].
      unfold bind.
      destruct (fetchFromGitHub token (ListPulls owner repo page)
                  (pullList platform owner repo page) log)
        as [[message|batch] log1]; [reflexivity|].
      destruct (scanBatch platform token owner repo range batch prs flag
                  log1) as [[message|[prs' flag']] log2]; [reflexivity|].
      apply IH; lia.
    + rewrite !fetch_loop_ceiling by assumption. reflexivity.
Qed.
End Collector.

Section Listing.
Variable platform : Platform.
Variable token : option string.

Lemma listOrgRepos_ceiling fuel org repos page flag log :
  5 < page ->
  listOrgRepos_loop platform token fuel org repos page flag log =
  (Returned repos, log).
Proof.
  intros Hp. destruct fuel; [reflexivity|]. simpl.
  destruct (Z.leb_spec page 5); [lia|].
  rewrite andb_false_r. reflexivity.
Qed.

(** The fuel given to the listing loop is never the reason it stops. *)
Lemma listOrgRepos_fuel fuel : forall org repos page flag log,
  1 <= page ->
  (Z.to_nat (6 - page) <= fuel)%nat ->
  listOrgRepos_loop platform token fuel org repos page flag log =
  listOrgRepos_loop platform token (Z.to_nat (6 - page)) org repos page flag
    log.
Proof.
  induction fuel as [|fuel IH]; intros org repos page flag log Hp Hfuel.
  - replace (Z.to_nat (6 - page)) with 0%nat by lia. reflexivity.
  - destruct (Z.leb_spec page 5) as [Hle|Hgt].
    + replace (Z.to_nat (6 - page)) with (S (Z.to_nat (6 - (page + 1))))
        by lia.
      simpl. destruct (flag && (page <=? 5)); [|reflexivity].
      unfold bind.
      destruct (fetchFromGitHub token (ListOrgRepos org page)
                  (orgRepos platform org page) log)
        as [[message|chunk] log1]; [reflexivity|].
      apply IH; lia.
    + rewrite !listOrgRepos_ceiling by assumption. reflexivity.
Qed.

(** Both paginated loops return what they return with any larger fuel. *)
Lemma pagination_total fuel org fullName range log :
  (6 <= fuel)%nat ->
  listOrgRepos_loop platform token fuel org [] 1 true log =
    listOrgRepos platform token org log /\
  (let '(owner, repo) := ownerAndName fullName in
   fetchPullRequests_loop platform token fuel owner repo range [] 1 true log)
  = fetchPullRequestsForRepo platform token fullName range log.
Proof.
  intros Hfuel. split.
  - unfold listOrgRepos.
    rewrite (listOrgRepos_fuel fuel), (listOrgRepos_fuel 6) by (simpl; lia).
    reflexivity.
  - unfold fetchPullRequestsForRepo.
    destruct (ownerAndName fullName) as [owner repo].
    rewrite (fetch_loop_fuel platform token owner repo range fuel),
      (fetch_loop_fuel platform token owner repo range 6) by (simpl; lia).
    reflexivity.
Qed.
End Listing.

(** C1 (the code departs from it): on a full first page that opens with a
    pull request merged more than a day before the window, the scan of the
    page stops, yet the second page is requested and its pull request is
    looked up and collected. *)
Theorem early_stop_still_fetches_next_page :
  mergedLongBefore window stalePR = true /\
  pullList stalePlatform "acme" "web" 1 = inr (stalePR :: repeat recentPR 49) /\
  fetchPullRequestsForRepo stalePlatform (Some "secret"%string) "acme/web"
    window [] =
  (Returned [recentPR],
   [ListPulls "acme" "web" 1; ListPulls "acme" "web" 2;
    GetPull "acme" "web" 8]).
Proof.
  split; [reflexivity|]. split; [reflexivity|]. vm_compute. reflexivity.
Qed.

(** ** The inbound operation *)

Section InboundFacts.
Variable platform : Platform.
Variable token : option string.
Variable mock : MetricSnapshot.
Variable Number : option string -> JS.number.


End InboundFacts.

Section PostFacts.
Variable platform : Platform.
Variable token : option string.
Variable mock : MetricSnapshot.
Variable Number : option string -> JS.number.


End PostFacts.




(** * Further properties of the route *)

(** ** The stable sort *)

Lemma filter_none {A : Type} (p : A -> bool) (l : list A) :
  (forall z, In z l -> p z = false) -> filter p l = [].
Proof.
  induction l as [|y l IH]; intros H; simpl; [reflexivity|].
  rewrite (H y (or_introl eq_refl)). apply IH. intros z Hz. apply H. now right.
Qed.

Section SortFacts.
Context {A : Type}.
Variable compare : A -> A -> Z.

Lemma insertSorted_perm x l : Permutation (insertSorted compare x l) (x :: l).
Proof.
  induction l as [|y l IH]; simpl; [reflexivity|].
  destruct (compare x y <? 0); [reflexivity|].
  rewrite IH. apply perm_swap.
Qed.

Lemma sort_from_perm l : forall acc,
  Permutation (fold_left (fun acc x => insertSorted compare x acc) l acc)
    (acc ++ l).
Proof.
  induction l as [|x l IH]; intros acc; simpl.
  - rewrite app_nil_r. reflexivity.
  - rewrite IH, insertSorted_perm.
    change (x :: acc) with ([x] ++ acc).
    rewrite (Permutation_app_comm [x] acc), <- app_assoc. reflexivity.
Qed.

Lemma sort_perm l : Permutation (sort compare l) l.
Proof. unfold sort. rewrite sort_from_perm. reflexivity. Qed.

(** The comparator orders by a key, largest first. *)
Variable key : A -> Z.
Hypothesis compare_key : forall a b, compare a b = key b - key a.

Lemma insertSorted_descending x l :
  descendingBy key l -> descendingBy key (insertSorted compare x l).
Proof.
  unfold descendingBy.
  induction l as [|y l IH]; intros Hs; simpl.
  - repeat constructor.
  - rewrite compare_key. inversion Hs as [|? ? Hl Hy]; subst.
    destruct (Z.ltb_spec (key y - key x) 0) as [Hlt|Hge].
    + constructor; [assumption|]. constructor; [lia|].
      rewrite Forall_forall in Hy |- *. intros z Hz.
      specialize (Hy z Hz). lia.
    + constructor; [apply IH; assumption|].
      rewrite Forall_forall in Hy |- *. intros z Hz.
      apply (Permutation_in _ (insertSorted_perm x l)) in Hz.
      destruct Hz as [<-|Hz]; [lia|auto].
Qed.

Lemma sort_from_descending l : forall acc,
  descendingBy key acc ->
  descendingBy key (fold_left (fun acc x => insertSorted compare x acc) l acc).
Proof.
  induction l as [|x l IH]; intros acc Hacc; simpl; [assumption|].
  apply IH, insertSorted_descending, Hacc.
Qed.

Lemma sort_descending l : descendingBy key (sort compare l).
Proof. apply sort_from_descending. constructor. Qed.

(** Insertion places an element after the elements of the same key. *)
Lemma insertSorted_withKey x l k :
  descendingBy key l ->
  withKey key k (insertSorted compare x l) =
  withKey key k l ++ (if key x =? k then [x] else []).
Proof.
  unfold descendingBy, withKey.
  induction l as [|y l IH]; intros Hs; simpl.
  - destruct (key x =? k); reflexivity.
  - rewrite compare_key. inversion Hs as [|? ? Hl Hy]; subst.
    destruct (Z.ltb_spec (key y - key x) 0) as [Hlt|Hge].
    + simpl. destruct (Z.eqb_spec (key x) k) as [Hx|Hx].
      * assert (filter (fun a => key a =? k) (y :: l) = []) as Hnone.
        { apply filter_none. intros z Hz.
          apply Z.eqb_neq. destruct Hz as [<-|Hz]; [lia|].
          rewrite Forall_forall in Hy. specialize (Hy z Hz). lia. }
        simpl in Hnone. rewrite Hnone. reflexivity.
      * rewrite app_nil_r. reflexivity.
    + simpl. rewrite IH by assumption.
      destruct (key y =? k); reflexivity.
Qed.

Lemma sort_from_withKey l k : forall acc,
  descendingBy key acc ->
  withKey key k (fold_left (fun acc x => insertSorted compare x acc) l acc) =
  withKey key k acc ++ withKey key k l.
Proof.
  induction l as [|x l IH]; intros acc Hacc; simpl.
  - rewrite app_nil_r. reflexivity.
  - rewrite IH by (apply insertSorted_descending; assumption).
    rewrite insertSorted_withKey by assumption.
    rewrite <- app_assoc. f_equal.
    unfold withKey. simpl. destruct (key x =? k); reflexivity.
Qed.

(** The sort is stable: elements of equal key keep their order. *)
Lemma sort_stable l k : withKey key k (sort compare l) = withKey key k l.
Proof.
  unfold sort. rewrite sort_from_withKey by constructor. reflexivity.
Qed.
End SortFacts.

(** ** More on the repository aggregator *)

Section JSMapTotals.
Variable f : EngineerMetric -> Z.

Lemma totalOver_set k v (m : JSMap.t EngineerMetric) :
  totalOver f (JSMap.values (JSMap.set k v m)) =
  totalOver f (JSMap.values m) + f v
  - match JSMap.get k m with Some old => f old | None => 0 end.
Proof.
  unfold JSMap.values.
  induction m as [|[k' v'] m IH]; simpl.
  - lia.
  - destruct (String.eqb k k'); simpl.
    + lia.
    + rewrite IH. lia.
Qed.
End JSMapTotals.

Lemma existsb_keys {V : Type} (k : string) (m : JSMap.t V) :
  existsb (String.eqb k) (JSMap.keys m) =
  match JSMap.get k m with Some _ => true | None => false end.
Proof.
  induction m as [|[k' v'] m IH]; simpl; [reflexivity|].
  destruct (String.eqb k k'); simpl; [reflexivity|]. exact IH.
Qed.

Section FoldMore.
Variables (repoName repoOwner : string) (range : RangeDescriptor).

Let step := absorb repoName repoOwner range.

Lemma fold_highImpact prs : forall st,
  highImpact (fold_left step prs st) =
  highImpact st ++ summaries repoName repoOwner range prs.
Proof.
  unfold summaries, mergedInWindow.
  induction prs as [|pr prs IH]; intros st; simpl.
  - rewrite app_nil_r. reflexivity.
  - rewrite IH. unfold step, absorb.
    destruct (withinRange (merged_at pr) range); simpl.
    + rewrite <- app_assoc. reflexivity.
    + reflexivity.
Qed.

Lemma fold_keys prs : forall st,
  JSMap.keys (engineerAccumulator (fold_left step prs st)) =
  fold_left
    (fun seen x => if existsb (String.eqb x) seen then seen else seen ++ [x])
    (map authorOf prs) (JSMap.keys (engineerAccumulator st)).
Proof.
  induction prs as [|pr prs IH]; intros st; simpl; [reflexivity|].
  rewrite IH. f_equal. unfold step. rewrite absorb_accumulator, keys_set.
  rewrite existsb_keys.
  destruct (JSMap.get (authorOf pr) (engineerAccumulator st)); reflexivity.
Qed.

Lemma engineerStep_engineer e pr :
  engineer (engineerStep repoName range e pr) = engineer e.
Proof.
  apply (engineer_fold repoName range [pr] e).
Qed.

Lemma keyedByName_set k v (m : JSMap.t EngineerMetric) :
  engineer v = k -> keyedByName m -> keyedByName (JSMap.set k v m).
Proof.
  unfold keyedByName. intros Hv.
  induction m as [|[k' v'] m IH]; intros Hm; simpl.
  - repeat constructor. assumption.
  - apply Forall_cons_iff in Hm. destruct Hm as [Hhd Htl].
    destruct (String.eqb_spec k k') as [Heq|Hne].
    + constructor; [simpl; congruence|assumption].
    + constructor; [assumption|]. apply IH. assumption.
Qed.

Lemma keyedByName_get k v (m : JSMap.t EngineerMetric) :
  keyedByName m -> JSMap.get k m = Some v -> engineer v = k.
Proof.
  intros Hm Hget. apply get_In in Hget.
  unfold keyedByName in Hm. rewrite Forall_forall in Hm.
  apply (Hm (k, v) Hget).
Qed.

Lemma fold_keyedByName prs : forall st,
  keyedByName (engineerAccumulator st) ->
  keyedByName (engineerAccumulator (fold_left step prs st)).
Proof.
  induction prs as [|pr prs IH]; intros st Hst; simpl; [assumption|].
  apply IH. unfold step. rewrite absorb_accumulator.
  apply keyedByName_set; [|assumption].
  rewrite engineerStep_engineer.
  destruct (JSMap.get (authorOf pr) (engineerAccumulator st)) eqn:E.
  - apply (keyedByName_get _ _ _ Hst E).
  - reflexivity.
Qed.

Lemma keyedByName_values (m : JSMap.t EngineerMetric) :
  keyedByName m -> map engineer (JSMap.values m) = JSMap.keys m.
Proof.
  unfold keyedByName, JSMap.values, JSMap.keys.
  induction 1 as [|[k v] m Hk _ IH]; simpl; [reflexivity|].
  simpl in Hk. rewrite Hk, IH. reflexivity.
Qed.

(** A field that merged pull requests add to, and nothing else touches. *)
Variable f : EngineerMetric -> Z.
Variable g : GitHubPullRequest -> Z.
Hypothesis f_credit : forall pr e, f (creditEngineer pr e) = f e + g pr.
Hypothesis f_touch : forall e, f (touchRepo repoName e) = f e.
Hypothesis f_new : forall a pr, f (newEngineer a pr) = 0.

Lemma fold_totalOver prs : forall st,
  totalOver f (JSMap.values (engineerAccumulator (fold_left step prs st))) =
  totalOver f (JSMap.values (engineerAccumulator st))
  + sumOf g (mergedInWindow range prs).
Proof.
  unfold mergedInWindow.
  induction prs as [|pr prs IH]; intros st; simpl; [lia|].
  rewrite IH. unfold step. rewrite absorb_accumulator, totalOver_set.
  unfold engineerStep.
  destruct (JSMap.get (authorOf pr) (engineerAccumulator st)) as [old|];
    destruct (withinRange (merged_at pr) range); simpl;
    rewrite ?f_credit, ?f_touch, ?f_new; lia.
Qed.
End FoldMore.

Section RecordShape.
Variables (repoName : string) (range : RangeDescriptor).

Lemma touchRepo_member e :
  existsb (String.eqb repoName) (repos (touchRepo repoName e)) = true.
Proof.
  unfold touchRepo.
  destruct (existsb (String.eqb repoName) (repos e)) eqn:E; [assumption|].
  simpl. rewrite existsb_app. simpl. rewrite String.eqb_refl.
  rewrite orb_true_r. reflexivity.
Qed.

Lemma touchRepo_idempotent e :
  touchRepo repoName (touchRepo repoName e) = touchRepo repoName e.
Proof.
  unfold touchRepo at 1. rewrite touchRepo_member. reflexivity.
Qed.

Lemma engineerStep_repos e pr :
  repos (engineerStep repoName range e pr) = repos (touchRepo repoName e).
Proof.
  unfold engineerStep. destruct (withinRange (merged_at pr) range); reflexivity.
Qed.

Lemma touchRepo_repos_ext e e' :
  repos e = repos e' ->
  repos (touchRepo repoName e) = repos (touchRepo repoName e').
Proof.
  intros H. unfold touchRepo. rewrite H.
  destruct (existsb (String.eqb repoName) (repos e')); simpl; congruence.
Qed.

Lemma engineer_fold_repos l : forall e pr,
  repos (fold_left (engineerStep repoName range) (pr :: l) e) =
  repos (touchRepo repoName e).
Proof.
  induction l as [|pr' l IH]; intros e pr.
  - apply engineerStep_repos.
  - change (fold_left (engineerStep repoName range) (pr :: pr' :: l) e)
      with (fold_left (engineerStep repoName range) (pr' :: l)
              (engineerStep repoName range e pr)).
    rewrite IH.
    rewrite (touchRepo_repos_ext _ (touchRepo repoName e))
      by apply engineerStep_repos.
    rewrite touchRepo_idempotent. reflexivity.
Qed.

Lemma touchRepo_rest e :
  impactScore (touchRepo repoName e) = impactScore e /\
  reviews (touchRepo repoName e) = reviews e /\
  avgReviewTurnaroundHours (touchRepo repoName e)
  = avgReviewTurnaroundHours e /\
  avatarUrl (touchRepo repoName e) = avatarUrl e.
Proof.
  unfold touchRepo.
  destruct (existsb (String.eqb repoName) (repos e)); simpl; auto.
Qed.

Lemma engineer_fold_rest l : forall e,
  let e' := fold_left (engineerStep repoName range) l e in
  impactScore e' =
    impactScore e + sumOf calculateImpactScore (mergedInWindow range l) /\
  reviews e' = reviews e /\
  avgReviewTurnaroundHours e' = avgReviewTurnaroundHours e /\
  avatarUrl e' = avatarUrl e.
Proof.
  induction l as [|pr l IH]; intros e; cbv zeta.
  - simpl. repeat split; lia.
  - simpl fold_left. specialize (IH (engineerStep repoName range e pr)).
    cbv zeta in IH. destruct IH as (H1 & H2 & H3 & H4).
    rewrite H1, H2, H3, H4. clear H1 H2 H3 H4.
    destruct (touchRepo_rest e) as (T1 & T2 & T3 & T4).
    unfold engineerStep, mergedInWindow. simpl filter.
    destruct (withinRange (merged_at pr) range);
      cbn [creditEngineer impactScore reviews avgReviewTurnaroundHours
           avatarUrl];
      rewrite ?T1, ?T2, ?T3, ?T4; repeat split; try reflexivity.
    change (sumOf calculateImpactScore
              (pr :: filter (fun pr0 => withinRange (merged_at pr0) range) l))
      with (calculateImpactScore pr
            + sumOf calculateImpactScore
                (filter (fun pr0 => withinRange (merged_at pr0) range) l)).
    generalize (calculateImpactScore pr). intros score. lia.
Qed.
End RecordShape.

Lemma sumOf_bounds (f : GitHubPullRequest -> Z) (lo hi : Z)
    (l : list GitHubPullRequest) :
  (forall pr, In pr l -> lo <= f pr <= hi) ->
  lo * count l <= sumOf f l <= hi * count l.
Proof.
  unfold count. induction l as [|pr l IH]; intros H; simpl sumOf.
  - simpl. lia.
  - pose proof (H pr (or_introl eq_refl)).
    assert (forall pr', In pr' l -> lo <= f pr' <= hi) as Hl
      by (intros; apply H; now right).
    specialize (IH Hl). cbn [List.length]. lia.
Qed.

Lemma engineerMetrics_names
    (repoName repoOwner : string) (prs : list GitHubPullRequest)
    (range : RangeDescriptor) :
  map engineer (engineerMetrics (aggregateMetrics repoName repoOwner prs range))
  = JSMap.keys
      (engineerAccumulator (foldPullRequests repoName repoOwner range prs)).
Proof.
  unfold aggregateMetrics. simpl. rewrite map_map.
  change (fun x => engineer (finishEngineer range prs x)) with engineer.
  apply keyedByName_values.
  unfold foldPullRequests. apply fold_keyedByName. constructor.
Qed.

(** X1: the aggregator returns one engineer record per distinct author, in
    the order in which the authors first appear among the collected pull
    requests (pull requests without an author standing under "unknown"). *)
Theorem engineers_in_order_of_first_appearance
    (repoName repoOwner : string) (prs : list GitHubPullRequest)
    (range : RangeDescriptor) :
  let names :=
    map engineer
      (engineerMetrics (aggregateMetrics repoName repoOwner prs range)) in
  names = distinct (map authorOf prs) /\
  NoDup names /\
  (forall a, In a names <-> exists pr, In pr prs /\ authorOf pr = a).
Proof.
  cbv zeta. rewrite engineerMetrics_names. split; [|split].
  - unfold foldPullRequests. rewrite fold_keys. reflexivity.
  - apply final_keys_NoDup.
  - intros a. rewrite final_keys_In, in_map_iff.
    split; intros (pr & H1 & H2); exists pr; auto.
Qed.

(** X2: [activeContributors] is the number of distinct authors among all
    collected pull requests, merged or not. *)
Theorem activeContributors_counts_authors
    (repoName repoOwner : string) (prs : list GitHubPullRequest)
    (range : RangeDescriptor) :
  activeContributors
    (ra_repoMetric (aggregateMetrics repoName repoOwner prs range)) =
  Z.of_nat (List.length (nodup string_dec (map authorOf prs))) /\
  0 <= activeContributors
         (ra_repoMetric (aggregateMetrics repoName repoOwner prs range))
    <= count prs.
Proof.
  rewrite activeContributors_distinct_authors. split; [reflexivity|].
  split; [lia|]. unfold count. apply inj_le.
  rewrite <- (length_map authorOf prs).
  apply NoDup_incl_length; [apply NoDup_nodup|].
  intros a Ha. apply nodup_In in Ha. exact Ha.
Qed.

(** X3: an engineer record of one repository lists that repository alone,
    has no reviews and no review turnaround, carries the avatar of the
    author's first pull request, and its impact score is the sum of the
    impact scores of the author's pull requests merged inside the window. *)
Theorem engineer_record_shape
    (repoName repoOwner : string) (prs : list GitHubPullRequest)
    (range : RangeDescriptor) (e : EngineerMetric) :
  In e (engineerMetrics (aggregateMetrics repoName repoOwner prs range)) ->
  repos e = [repoName] /\
  reviews e = 0 /\
  avgReviewTurnaroundHours e = 0 /\
  impactScore e =
    sumOf calculateImpactScore
      (mergedInWindow range (prsOf (engineer e) prs)) /\
  exists first rest,
    prsOf (engineer e) prs = first :: rest /\
    avatarUrl e =
      match user first with Some u => avatar_url u | None => None end.
Proof.
  intros He.
  apply engineerMetrics_inv in He. destruct He as (first & rest & Hmine & He).
  rewrite Hmine.
  destruct (engineer_fold_rest repoName range (first :: rest)
              (newEngineer (engineer e) first)) as (E1 & E2 & E3 & E4).
  pose proof (engineer_fold_repos repoName range rest
                (newEngineer (engineer e) first) first) as E5.
  set (v := fold_left _ _ _) in *.
  assert (repos e = repos v /\ reviews e = reviews v /\
          avgReviewTurnaroundHours e = avgReviewTurnaroundHours v /\
          impactScore e = impactScore v /\ avatarUrl e = avatarUrl v)
    as (F5 & F2 & F3 & F1 & F4) by (rewrite He; repeat split; reflexivity).
  rewrite F1, F2, F3, F5, E1, E2, E3, E5.
  repeat split; try reflexivity.
  exists first, rest. split; [reflexivity|]. rewrite F4, E4. reflexivity.
Qed.

Lemma engineer_record_shape_witness :
  exists e,
    In e (engineerMetrics
            (aggregateMetrics "web" "acme" rankedSample (between 0 100))) /\
    engineer e = "alice"%string /\
    repos e = ["web"%string] /\
    impactScore e =
      sumOf calculateImpactScore
        (mergedInWindow (between 0 100) (prsOf (engineer e) rankedSample)).
Proof.
  eexists. split; [left; reflexivity|]. split; [reflexivity|].
  destruct (engineer_record_shape "web" "acme" rankedSample (between 0 100) _
              (or_introl eq_refl)) as (H1 & _ & _ & H4 & _).
  split; assumption.
Defined.

(** X4: when no collected pull request has a negative counter, the impact
    score of an engineer record lies between 0 and 100 times the number of
    that engineer's merged pull requests. *)
Theorem engineer_impact_bounded
    (repoName repoOwner : string) (prs : list GitHubPullRequest)
    (range : RangeDescriptor) (e : EngineerMetric) :
  Forall countersNonNegative prs ->
  In e (engineerMetrics (aggregateMetrics repoName repoOwner prs range)) ->
  0 <= impactScore e <= 100 * mergedPRs e.
Proof.
  intros Hwf He.
  pose proof (engineerMetrics_totals repoName repoOwner range prs e He) as Ht.
  cbv zeta in Ht. destruct Ht as (Hm & _).
  apply engineerMetrics_inv in He. destruct He as (first & rest & Hmine & He).
  destruct (engineer_fold_rest repoName range (first :: rest)
              (newEngineer (engineer e) first)) as (E1 & _).
  set (v := fold_left _ _ _) in *.
  assert (impactScore e = impactScore v) as F1 by (rewrite He; reflexivity).
  rewrite F1, E1, Hm, Hmine. change (impactScore (newEngineer _ _)) with 0.
  pose proof (sumOf_bounds calculateImpactScore 0 100
                (mergedInWindow range (first :: rest))) as Hb.
  assert (forall pr, In pr (mergedInWindow range (first :: rest)) ->
                     0 <= calculateImpactScore pr <= 100) as Hall.
  { intros pr Hpr.
    assert (countersNonNegative pr) as Hnn;
      [|pose proof (score_range pr Hnn); destruct (draft pr); lia].
    rewrite Forall_forall in Hwf. apply Hwf.
    unfold mergedInWindow in Hpr. apply filter_In in Hpr.
    destruct Hpr as [Hpr _]. rewrite <- Hmine in Hpr.
    unfold prsOf in Hpr. apply filter_In in Hpr. tauto. }
  specialize (Hb Hall). lia.
Qed.

Lemma engineer_impact_bounded_witness :
  exists e,
    In e (engineerMetrics
            (aggregateMetrics "web" "acme" rankedSample (between 0 100))) /\
    0 <= impactScore e <= 100 * mergedPRs e.
Proof.
  eexists. split; [left; reflexivity|].
  apply (engineer_impact_bounded "web" "acme" rankedSample (between 0 100)).
  - repeat constructor; simpl; lia.
  - left; reflexivity.
Defined.

Lemma sumOf_ones (l : list GitHubPullRequest) :
  sumOf (fun _ => 1) l = count l.
Proof.
  unfold count. induction l as [|pr l IH]; [reflexivity|].
  change (sumOf (fun _ => 1) (pr :: l)) with (1 + sumOf (fun _ => 1) l).
  rewrite IH. cbn [List.length]. lia.
Qed.

Lemma engineer_record_scores
    (repoName repoOwner : string) (prs : list GitHubPullRequest)
    (range : RangeDescriptor) (e : EngineerMetric) :
  In e (engineerMetrics (aggregateMetrics repoName repoOwner prs range)) ->
  impactScore e =
    sumOf calculateImpactScore
      (mergedInWindow range (prsOf (engineer e) prs)) /\
  (mergedPRs e = 0 -> avgCycleTimeHours e = 0).
Proof.
  intros He.
  apply engineerMetrics_inv in He. destruct He as (first & rest & Hmine & He).
  rewrite Hmine.
  destruct (engineer_fold_rest repoName range (first :: rest)
              (newEngineer (engineer e) first)) as (E1 & _).
  set (v := fold_left _ _ _) in *.
  assert (impactScore e = impactScore v /\ mergedPRs e = mergedPRs v)
    as (F1 & F2) by (rewrite He; split; reflexivity).
  split.
  - rewrite F1, E1. reflexivity.
  - intros Hz. rewrite He. unfold finishEngineer. simpl.
    rewrite <- F2, Hz. reflexivity.
Qed.

Lemma engineer_totals
    (repoName repoOwner : string) (prs : list GitHubPullRequest)
    (range : RangeDescriptor) :
  let result := aggregateMetrics repoName repoOwner prs range in
  let r := ra_repoMetric result in
  totalOver mergedPRs (engineerMetrics result) = rm_mergedPRs r /\
  totalOver em_commits (engineerMetrics result) = rm_commits r /\
  totalOver linesAdded (engineerMetrics result) = rm_linesAdded r /\
  totalOver linesDeleted (engineerMetrics result) = rm_linesDeleted r.
Proof.
  intros result r.
  destruct (result_repo_totals repoName repoOwner range prs)
    as (H1 & H2 & H3 & H4 & _).
  fold result in H1, H2, H3, H4. fold r in H1, H2, H3, H4.
  rewrite H1, H2, H3, H4.
  assert (forall f,
            (forall v, f (finishEngineer range prs v) = f v) ->
            totalOver f (engineerMetrics result) =
            totalOver f
              (JSMap.values
                 (engineerAccumulator
                    (foldPullRequests repoName repoOwner range prs))))
    as Hfinish.
  { intros f Hf. unfold result, aggregateMetrics. simpl.
    induction (JSMap.values _) as [|v vs IH]; simpl; [reflexivity|].
    rewrite Hf, IH. reflexivity. }
  assert (forall e, touchRepo repoName e = e \/
                    touchRepo repoName e =
                    mkEngineer (engineer e) (avatarUrl e)
                      (repos e ++ [repoName]) (mergedPRs e) (em_commits e)
                      (reviews e) (linesAdded e) (linesDeleted e)
                      (impactScore e) (avgCycleTimeHours e)
                      (avgReviewTurnaroundHours e) (lastActive e)) as Htouch.
  { intros e. unfold touchRepo.
    destruct (existsb (String.eqb repoName) (repos e)); auto. }
  unfold foldPullRequests in Hfinish.
  repeat split.
  - rewrite Hfinish by reflexivity.
    rewrite (fold_totalOver repoName repoOwner range mergedPRs (fun _ => 1)).
    + rewrite sumOf_ones. reflexivity.
    + reflexivity.
    + intros e. destruct (Htouch e) as [-> | ->]; reflexivity.
    + reflexivity.
  - rewrite Hfinish by reflexivity.
    rewrite (fold_totalOver repoName repoOwner range em_commits commits).
    + reflexivity.
    + reflexivity.
    + intros e. destruct (Htouch e) as [-> | ->]; reflexivity.
    + reflexivity.
  - rewrite Hfinish by reflexivity.
    rewrite (fold_totalOver repoName repoOwner range linesAdded additions).
    + reflexivity.
    + reflexivity.
    + intros e. destruct (Htouch e) as [-> | ->]; reflexivity.
    + reflexivity.
  - rewrite Hfinish by reflexivity.
    rewrite (fold_totalOver repoName repoOwner range linesDeleted deletions).
    + reflexivity.
    + reflexivity.
    + intros e. destruct (Htouch e) as [-> | ->]; reflexivity.
    + reflexivity.
Qed.

(** X5: the merged-side totals of a repository are shared out among its
    engineer records without loss: the merged counts, commits, lines added
    and lines deleted of the engineer records add up to those of the
    repository record, and every collected pull request is counted once,
    as merged or as open. *)
Theorem engineer_totals_add_up
    (repoName repoOwner : string) (prs : list GitHubPullRequest)
    (range : RangeDescriptor) :
  let result := aggregateMetrics repoName repoOwner prs range in
  let r := ra_repoMetric result in
  totalOver mergedPRs (engineerMetrics result) = rm_mergedPRs r /\
  totalOver em_commits (engineerMetrics result) = rm_commits r /\
  totalOver linesAdded (engineerMetrics result) = rm_linesAdded r /\
  totalOver linesDeleted (engineerMetrics result) = rm_linesDeleted r /\
  rm_mergedPRs r + openPRs r = count prs.
Proof.
  intros result r.
  destruct (engineer_totals repoName repoOwner prs range)
    as (H1 & H2 & H3 & H4).
  destruct (result_repo_totals repoName repoOwner range prs)
    as (Hm & _ & _ & _ & Ho).
  pose proof (split_by_window range prs) as Hsplit.
  repeat split; try assumption.
  fold result in Hm, Ho. fold r in Hm, Ho. lia.
Qed.

Lemma round_zero_over (q : Q) : JS.round (JS.div 0 q) = 0.
Proof. rewrite div_zero. reflexivity. Qed.

(** With nothing merged and a frequency of 1, the value the health score
    is rounded from is the integer [6 + max(0, 40 - 2 * open)]. *)
Lemma healthRaw_nothing_merged (open : Z) :
  0 <= open ->
  (healthRaw 0 1 open == inject_Z (6 + Z.max 0 (40 - open * 2)))%Q.
Proof.
  intros Hopen. unfold healthRaw.
  assert (JS.mul (inject_Z 0) (JS.literal (3 # 10)) == 0)%Q as ->.
  { unfold JS.mul. rewrite (binary64_zero (inject_Z 0 * _)); [reflexivity|].
    change (inject_Z 0) with 0%Q. ring. }
  assert (JS.mul (inject_Z 1) 6 == 6)%Q as -> by (vm_compute; reflexivity).
  assert (JS.add 0 6 == inject_Z 6)%Q as -> by (vm_compute; reflexivity).
  unfold JS.add. rewrite <- inject_Z_plus. apply binary64_Z.
  assert (46 <= 2 ^ 53) by (vm_compute; discriminate). lia.
Qed.

(** X6: when no collected pull request was merged inside the window (an
    empty collection included), the repository record has no merged pull
    request, an average lead time of 0 and no high-impact entry, and every
    pull request counts as open.  Over a window whose bounds are dates it
    has the minimal deployment frequency 1, and its health score is 46
    less twice the number of pull requests, and never under 6; over a
    window with a bound that is no date (where nothing is ever merged
    inside) both are [NaN]. *)
Theorem nothing_merged_in_window
    (repoName repoOwner : string) (prs : list GitHubPullRequest)
    (range : RangeDescriptor) :
  mergedInWindow range prs = [] ->
  let result := aggregateMetrics repoName repoOwner prs range in
  let r := ra_repoMetric result in
  rm_mergedPRs r = 0 /\
  openPRs r = count prs /\
  averageLeadTimeHours r = 0 /\
  (forall s u,
     datedFrom range s u ->
     deploymentFrequency r = JS.Integer 1 /\
     healthScore r = JS.Integer (6 + Z.max 0 (40 - 2 * count prs))) /\
  (undated range ->
   (forall collected, mergedInWindow range collected = []) /\
   deploymentFrequency r = JS.NotANumber /\
   healthScore r = JS.NotANumber) /\
  ra_highImpact result = [] /\
  (forall e, In e (engineerMetrics result) ->
     mergedPRs e = 0 /\ impactScore e = 0 /\ avgCycleTimeHours e = 0).
Proof.
  intros Hnone result r.
  destruct (result_repo_totals repoName repoOwner range prs)
    as (H1 & _ & _ & _ & H5).
  fold result in H1, H5. fold r in H1, H5.
  rewrite Hnone in H1. change (count []) with 0 in H1.
  pose proof (split_by_window range prs) as Hsplit.
  rewrite Hnone in Hsplit. change (count []) with 0 in Hsplit.
  assert (openPRs r = count prs) as Hopen by lia.
  set (st := foldPullRequests repoName repoOwner range prs) in *.
  assert (rm_mergedPRs (repoMetric st) = 0) as Hm0 by exact H1.
  assert (openPRs (repoMetric st) = count prs) as Ho0 by exact Hopen.
  split; [assumption|]. split; [assumption|].
  split; [|split; [|split; [|split]]].
  - unfold r, result, aggregateMetrics, deriveRepo.
    cbn [ra_repoMetric averageLeadTimeHours]. fold st.
    rewrite Hm0. reflexivity.
  - intros s u Hdated.
    destruct (deriveRepo_dated range s u prs
                (JSMap.size (engineerAccumulator st)) (repoMetric st) Hdated)
      as (days & _ & _ & Hf & Hh).
    cbv zeta in Hf, Hh.
    change (deriveRepo _ _ _ _) with r in Hf, Hh.
    rewrite Hm0, Ho0 in Hh. rewrite Hm0 in Hf.
    change (inject_Z 0) with 0%Q in Hf, Hh.
    rewrite round_zero_over in Hf, Hh.
    change (Z.max 1 0) with 1 in Hf, Hh.
    split; [exact Hf|].
    assert (0 <= count prs) as Hcount by (unfold count; lia).
    rewrite Hh, healthRaw_nothing_merged, round_Z by exact Hcount.
    f_equal. lia.
  - intros Hun. split.
    { intros collected. apply filter_none. intros pr _.
      apply withinRange_undated, Hun. }
    apply (deriveRepo_undated range prs
             (JSMap.size (engineerAccumulator st)) (repoMetric st) Hun).
  - unfold result, aggregateMetrics. cbn [ra_highImpact]. fold st.
    unfold st, foldPullRequests. rewrite fold_highImpact.
    unfold summaries. rewrite Hnone. reflexivity.
  - intros e He.
    pose proof (engineerMetrics_totals repoName repoOwner range prs e He)
      as Ht.
    cbv zeta in Ht. destruct Ht as (Hm & _).
    destruct (engineer_record_scores repoName repoOwner prs range e He)
      as (Hscore & Hcycle).
    assert (mergedInWindow range (prsOf (engineer e) prs) = []) as Hmine.
    { apply filter_none. intros pr Hpr.
      unfold prsOf in Hpr. apply filter_In in Hpr. destruct Hpr as [Hpr _].
      destruct (withinRange (merged_at pr) range) eqn:E; [|reflexivity].
      exfalso. assert (In pr (mergedInWindow range prs)) as Hin
        by (apply filter_In; auto).
      rewrite Hnone in Hin. contradiction. }
    rewrite Hmine in Hm, Hscore. split; [exact Hm|]. split; [exact Hscore|].
    apply Hcycle. exact Hm.
Qed.

Lemma nothing_merged_in_window_witness :
  healthScore
    (ra_repoMetric (aggregateMetrics "web" "acme" allOpen (between 0 100)))
  = JS.Integer (6 + Z.max 0 (40 - 2 * count allOpen)) /\
  deploymentFrequency
    (ra_repoMetric (aggregateMetrics "web" "acme" allOpen (between 0 100)))
  = JS.Integer 1.
Proof.
  destruct (nothing_merged_in_window "web" "acme" allOpen (between 0 100)
              eq_refl) as (_ & _ & _ & Hdated & _).
  destruct (Hdated 0 100 (conj eq_refl eq_refl)) as (Hf & Hh).
  split; assumption.
Defined.

(** X7: the average cycle time of an engineer record is computed over the
    pull requests whose user carries the record's name; the record "unknown"
    that gathers the pull requests without a user therefore has an average
    cycle time of 0, whatever their lead times, unless some user is
    literally called "unknown". *)
Theorem unknown_has_no_cycle_time
    (repoName repoOwner : string) (prs : list GitHubPullRequest)
    (range : RangeDescriptor) (e : EngineerMetric) :
  In e (engineerMetrics (aggregateMetrics repoName repoOwner prs range)) ->
  engineer e = "unknown"%string ->
  (forall pr u, In pr prs -> user pr = Some u -> login u <> "unknown"%string) ->
  avgCycleTimeHours e = 0.
Proof.
  intros He Hname Hnobody.
  apply engineerMetrics_inv in He. destruct He as (first & rest & _ & He).
  set (v := fold_left _ _ _) in *.
  assert (engineer e = engineer v) as Hv by (rewrite He; reflexivity).
  rewrite He. unfold finishEngineer. cbn [avgCycleTimeHours engineer mergedPRs].
  assert (filter (loginIs (engineer v)) prs = []) as ->.
  { apply filter_none. intros pr Hpr. unfold loginIs.
    destruct (user pr) as [u|] eqn:E; [|reflexivity].
    apply String.eqb_neq. rewrite <- Hv, Hname. eapply Hnobody; eauto. }
  destruct (0 <? mergedPRs v); [|reflexivity].
  apply round_zero_over.
Qed.

Lemma unknown_has_no_cycle_time_witness :
  exists e,
    In e (engineerMetrics
            (aggregateMetrics "web" "acme" slowAuthorless
               (between 0 100000000))) /\
    mergedPRs e = 1 /\ avgCycleTimeHours e = 0.
Proof.
  eexists. split; [left; reflexivity|]. split; [reflexivity|].
  apply (unknown_has_no_cycle_time "web" "acme" slowAuthorless
           (between 0 100000000)).
  - left; reflexivity.
  - reflexivity.
  - intros pr u [<-|[]]. discriminate.
Defined.

Lemma descendingBy_split {A : Type} (key : A -> Z) (l1 l2 : list A) :
  descendingBy key (l1 ++ l2) ->
  descendingBy key l1 /\
  forall a b, In a l1 -> In b l2 -> key b <= key a.
Proof.
  unfold descendingBy. induction l1 as [|x l1 IH]; simpl; intros Hs.
  - split; [constructor|]. intros a b [].
  - inversion Hs as [|? ? Hl Hx]; subst.
    destruct (IH Hl) as (Hs1 & Hcross). split.
    + constructor; [assumption|].
      rewrite Forall_forall in Hx |- *. intros z Hz. apply Hx.
      apply in_or_app. now left.
    + intros a b [<-|Ha] Hb.
      * rewrite Forall_forall in Hx. apply Hx. apply in_or_app. now right.
      * apply Hcross; assumption.
Qed.

(** X8: the high-impact list of a repository holds at most 10 entries, all
    of them summaries of pull requests merged inside the window with a lead
    time of at least one hour, largest change first; no summary left out
    stands for a larger change than one that is listed, and entries of
    equal size keep the order in which they were collected. *)
Theorem highImpact_ranking
    (repoName repoOwner : string) (prs : list GitHubPullRequest)
    (range : RangeDescriptor) :
  let listed :=
    ra_highImpact (aggregateMetrics repoName repoOwner prs range) in
  let all := summaries repoName repoOwner range prs in
  List.length listed = Nat.min 10 (List.length all) /\
  descendingBy churn listed /\
  (exists leftOut,
     Permutation (listed ++ leftOut) all /\
     forall h h', In h listed -> In h' leftOut -> churn h' <= churn h) /\
  (forall k, exists later,
     withKey churn k all = withKey churn k listed ++ later) /\
  (forall h, In h listed -> 1 <= leadTimeHours h).
Proof.
  intros listed all.
  assert (listed = firstn 10 (sort byChurn all)) as Hlisted.
  { unfold listed, aggregateMetrics, foldPullRequests. simpl.
    rewrite fold_highImpact. reflexivity. }
  assert (forall a b, byChurn a b = churn b - churn a) as Hkey
    by reflexivity.
  pose proof (sort_perm byChurn all) as Hperm.
  pose proof (sort_descending byChurn churn Hkey all) as Hsorted.
  rewrite <- (firstn_skipn 10 (sort byChurn all)) in Hperm, Hsorted.
  rewrite <- Hlisted in Hperm, Hsorted.
  destruct (descendingBy_split churn _ _ Hsorted) as (Hdesc & Hcross).
  split; [|split; [assumption|split; [|split]]].
  - rewrite Hlisted, length_firstn, (Permutation_length (sort_perm byChurn all)).
    reflexivity.
  - exists (skipn 10 (sort byChurn all)). split; assumption.
  - intros k. exists (withKey churn k (skipn 10 (sort byChurn all))).
    rewrite <- (sort_stable byChurn churn Hkey all k).
    rewrite <- (firstn_skipn 10 (sort byChurn all)) at 1.
    rewrite <- Hlisted. unfold withKey. apply filter_app.
  - intros h Hh.
    assert (In h all) as Hall.
    { apply (Permutation_in _ Hperm). apply in_or_app. now left. }
    unfold all, summaries in Hall. apply in_map_iff in Hall.
    destruct Hall as (pr & <- & _). unfold summarize. cbn [leadTimeHours].
    lia.
Qed.

Lemma highImpact_ranking_witness :
  List.length
    (ra_highImpact (aggregateMetrics "web" "acme" rankedSample (between 0 100)))
  = 3%nat.
Proof.
  rewrite (proj1 (highImpact_ranking "web" "acme" rankedSample (between 0 100))).
  reflexivity.
Defined.

Lemma engineers_in_order_of_first_appearance_witness :
  map engineer
    (engineerMetrics (aggregateMetrics "web" "acme" rankedSample (between 0 100)))
  = ["alice"%string; "bob"%string].
Proof.
  rewrite (proj1 (engineers_in_order_of_first_appearance
                    "web" "acme" rankedSample (between 0 100))).
  reflexivity.
Defined.

(** ** Week buckets *)

Lemma mondayOf_closed (t : timestamp) :
  mondayOf t =
  (t / MILLISECONDS_PER_DAY - (t / MILLISECONDS_PER_DAY + 3) mod 7)
  * MILLISECONDS_PER_DAY.
Proof.
  unfold mondayOf. cbv zeta.
  set (d := t / MILLISECONDS_PER_DAY). f_equal.
  destruct (Z.eqb_spec ((d + 4) mod 7) 0) as [H0|H0].
  - rewrite H0.
    assert ((d + 3) mod 7 = 6); [|lia].
    pose proof (Z.mod_pos_bound (d + 3) 7 ltac:(lia)).
    pose proof (Z.div_mod (d + 3) 7 ltac:(lia)).
    pose proof (Z.div_mod (d + 4) 7 ltac:(lia)). lia.
  - assert ((d + 3) mod 7 = (d + 4) mod 7 - 1); [|lia].
    pose proof (Z.mod_pos_bound (d + 3) 7 ltac:(lia)).
    pose proof (Z.mod_pos_bound (d + 4) 7 ltac:(lia)).
    pose proof (Z.div_mod (d + 3) 7 ltac:(lia)).
    pose proof (Z.div_mod (d + 4) 7 ltac:(lia)). lia.
Qed.

Lemma mondayOf_of_day (d r : Z) :
  (d + 4) mod 7 = 1 -> 0 <= r < 7 * MILLISECONDS_PER_DAY ->
  mondayOf (d * MILLISECONDS_PER_DAY + r) = d * MILLISECONDS_PER_DAY.
Proof.
  intros Hd Hr. rewrite mondayOf_closed.
  assert (0 < MILLISECONDS_PER_DAY) as Hms by reflexivity.
  rewrite Z.add_comm, Z.div_add by lia.
  set (q := r / MILLISECONDS_PER_DAY).
  assert (0 <= q < 7) as Hq.
  { unfold q. split; [apply Z.div_pos; lia|].
    apply Z.div_lt_upper_bound; lia. }
  f_equal.
  assert ((q + d + 3) mod 7 = q); [|lia].
  pose proof (Z.div_mod (d + 4) 7 ltac:(lia)) as E. rewrite Hd in E.
  replace (q + d + 3) with (q + ((d + 4) / 7) * 7) by lia.
  rewrite Z.mod_add by lia. apply Z.mod_small. lia.
Qed.

Lemma week_start_fixed (t : timestamp) : mondayOf (mondayOf t) = mondayOf t.
Proof.
  rewrite (mondayOf_closed t).
  set (d := t / MILLISECONDS_PER_DAY).
  pose proof (Z.div_mod (d + 3) 7 ltac:(lia)) as E.
  rewrite <- (Z.add_0_r ((d - (d + 3) mod 7) * MILLISECONDS_PER_DAY)) at 1.
  apply mondayOf_of_day.
  - replace (d - (d + 3) mod 7 + 4) with (1 + ((d + 3) / 7) * 7) by lia.
    rewrite Z.mod_add by lia. reflexivity.
  - unfold MILLISECONDS_PER_DAY. lia.
Qed.

(** X9: the week key of a merge instant is the midnight (UTC) of a Monday,
    at most the instant and less than seven days before it; every instant
    of that week, the Monday midnight itself included, has the same key. *)
Theorem week_key_is_its_monday (t : timestamp) :
  let monday := mondayOf t in
  monday mod MILLISECONDS_PER_DAY = 0 /\
  utcDay monday = 1 /\
  monday <= t < monday + 7 * MILLISECONDS_PER_DAY /\
  mondayOf monday = monday /\
  (forall t', monday <= t' < monday + 7 * MILLISECONDS_PER_DAY ->
              mondayOf t' = monday).
Proof.
  intros monday.
  assert (0 < MILLISECONDS_PER_DAY) as Hms by reflexivity.
  set (d := t / MILLISECONDS_PER_DAY).
  set (m := d - (d + 3) mod 7).
  assert (monday = m * MILLISECONDS_PER_DAY) as Hm
    by (unfold monday; apply mondayOf_closed).
  pose proof (Z.mod_pos_bound (d + 3) 7 ltac:(lia)) as Hoff.
  assert ((m + 4) mod 7 = 1) as Hday.
  { unfold m.
    pose proof (Z.div_mod (d + 3) 7 ltac:(lia)) as E.
    replace (d - (d + 3) mod 7 + 4) with (1 + ((d + 3) / 7) * 7) by lia.
    rewrite Z.mod_add by lia. reflexivity. }
  assert (forall t', monday <= t' < monday + 7 * MILLISECONDS_PER_DAY ->
                     mondayOf t' = monday) as Hweek.
  { intros t' Ht'. rewrite Hm in *.
    replace t' with (m * MILLISECONDS_PER_DAY + (t' - m * MILLISECONDS_PER_DAY))
      by lia.
    apply mondayOf_of_day; [assumption|lia]. }
  split; [|split; [|split; [|split]]].
  - rewrite Hm. apply Z.mod_mul. lia.
  - unfold utcDay. rewrite Hm, Z.div_mul by lia. assumption.
  - rewrite Hm.
    pose proof (Z.mul_div_le t MILLISECONDS_PER_DAY Hms).
    pose proof (Z.mul_succ_div_gt t MILLISECONDS_PER_DAY Hms).
    fold d in H, H0. unfold m. nia.
  - apply Hweek. lia.
  - exact Hweek.
Qed.

Lemma week_key_is_its_monday_witness :
  mondayOf 1704290400000 = 1704067200000 /\
  mondayOf 1704067200000 = 1704067200000.
Proof.
  destruct (week_key_is_its_monday 1704067200000) as (_ & _ & _ & Hself & Hweek).
  split; [|exact Hself].
  transitivity (mondayOf 1704067200000); [|exact Hself].
  apply Hweek. vm_compute. split; [discriminate|reflexivity].
Defined.

(** ** Repository identifiers *)

Lemma split_nonempty (sep : ascii) (s : string) : split sep s <> [].
Proof.
  destruct s as [|c s]; simpl; [discriminate|].
  destruct (Ascii.eqb c sep); [discriminate|].
  destruct (split sep s); discriminate.
Qed.

Lemma split_free (sep : ascii) (s : string) :
  freeOf sep s -> split sep s = [s].
Proof.
  induction s as [|c s IH]; simpl; [reflexivity|].
  intros (Hc & Hs). apply Ascii.eqb_neq in Hc. rewrite Hc, IH by assumption.
  reflexivity.
Qed.

Lemma split_app (sep : ascii) (a b : string) :
  freeOf sep a ->
  split sep (a ++ String sep b) = a :: split sep b.
Proof.
  induction a as [|c a IH]; simpl.
  - intros _. rewrite Ascii.eqb_refl. reflexivity.
  - intros (Hc & Ha). apply Ascii.eqb_neq in Hc. rewrite Hc, IH by assumption.
    reflexivity.
Qed.

(** X10: splitting at a separator loses nothing: the parts are never none,
    contain no separator, and joined by the separator give the string
    back.  An identifier [owner/name] whose two parts are free of "/" is
    read as that owner and that name; one without any "/" is read with the
    name "undefined". *)
Theorem split_round_trip (sep : ascii) (s : string) :
  split sep s <> [] /\
  Forall (freeOf sep) (split sep s) /\
  String.concat (String sep EmptyString) (split sep s) = s /\
  (forall owner name,
     freeOf "/" owner -> freeOf "/" name ->
     ownerAndName (owner ++ "/" ++ name) = (owner, name)) /\
  (freeOf "/" s -> ownerAndName s = (s, "undefined"%string)).
Proof.
  split; [apply split_nonempty|]. split; [|split; [|split]].
  - induction s as [|c s IH]; simpl; [repeat constructor|].
    destruct (Ascii.eqb_spec c sep) as [->|Hne].
    + constructor; [exact I|assumption].
    + pose proof (split_nonempty sep s) as Hnz.
      destruct (split sep s) as [|h t]; [contradiction|].
      inversion IH; subst. constructor; [split; assumption|assumption].
  - induction s as [|c s IH]; simpl; [reflexivity|].
    destruct (Ascii.eqb_spec c sep) as [->|Hne].
    + pose proof (split_nonempty sep s) as Hnz.
      destruct (split sep s) as [|h t]; [contradiction|].
      simpl in *. rewrite IH. reflexivity.
    + pose proof (split_nonempty sep s) as Hnz.
      destruct (split sep s) as [|h t]; [contradiction|].
      rewrite <- IH. destruct t; reflexivity.
  - intros owner name Ho Hn. unfold ownerAndName.
    change ("/" ++ name)%string with (String "/" name).
    rewrite split_app, split_free by assumption. reflexivity.
  - intros Hs. unfold ownerAndName. rewrite split_free by assumption.
    reflexivity.
Qed.

Lemma split_round_trip_witness :
  ownerAndName "acme/web" = ("acme"%string, "web"%string) /\
  ownerAndName "acmeweb" = ("acmeweb"%string, "undefined"%string).
Proof.
  split.
  - apply (proj1 (proj2 (proj2 (proj2 (split_round_trip "/" "acme/web"))))
             "acme"%string "web"%string); simpl; repeat split; discriminate.
  - apply (proj2 (proj2 (proj2 (proj2 (split_round_trip "/" "acmeweb")))));
      simpl; repeat split; discriminate.
Defined.

(** ** Outbound calls: what is sent, and what a failure does *)

Section Effects.
Variable platform : Platform.

(** A request that fails is none of the requests that were answered. *)
Lemma failure_is_fresh (l : list Request) (r : Request) (message : string) :
  Forall (answered platform) l -> failsWith platform r message -> ~ In r l.
Proof.
  intros Hl Hr Hin. rewrite Forall_forall in Hl.
  apply (Hl r Hin message Hr).
Qed.

Lemma aborts_ret {A : Type} (a : A) : abortsOnFailure platform (ret a).
Proof.
  intros log outcome log' [= <- <-]. exists []. rewrite app_nil_r.
  split; [reflexivity|constructor].
Qed.

Lemma aborts_bind {A B : Type} (c : Async A) (k : A -> Async B) :
  abortsOnFailure platform c ->
  (forall a, abortsOnFailure platform (k a)) ->
  abortsOnFailure platform (bind c k).
Proof.
  intros Hc Hk log outcome log' Hrun. unfold bind in Hrun.
  destruct (c log) as [[message|a] log1] eqn:Ec.
  - injection Hrun as <- <-.
    destruct (Hc _ _ _ Ec) as (sent & Hsent & Hthrow).
    exists sent. split; assumption.
  - destruct (Hc _ _ _ Ec) as (sent1 & -> & Hsent1).
    destruct (Hk a _ _ _ Hrun) as (sent2 & -> & Hsent2).
    exists (sent1 ++ sent2). rewrite app_assoc. split; [reflexivity|].
    destruct outcome as [message|b].
    + destruct Hsent2 as (earlier & r & -> & Hr & Hearlier & _).
      exists (sent1 ++ earlier), r. rewrite app_assoc.
      assert (Forall (answered platform) (sent1 ++ earlier)) as Hall
        by (apply Forall_app; split; assumption).
      split; [reflexivity|]. split; [exact Hr|]. split; [exact Hall|].
      apply (failure_is_fresh _ _ message Hall Hr).
    + apply Forall_app. split; assumption.
Qed.

Lemma aborts_fetch {T : Type} (token : option string) (request : Request)
    (answer : Answer T) :
  truthy token = true ->
  (forall message, answer = inl message -> failsWith platform request message) ->
  (forall body, answer = inr body -> answered platform request) ->
  abortsOnFailure platform (fetchFromGitHub token request answer).
Proof.
  intros Htoken Hfails Hanswered log outcome log' Hrun.
  rewrite fetchFromGitHub_answer in Hrun by assumption.
  injection Hrun as <- <-. exists [request]. split; [reflexivity|].
  destruct answer as [message|body].
  - exists [], request. split; [reflexivity|].
    split; [apply Hfails; reflexivity|]. split; [constructor|]. intros [].
  - constructor; [|constructor]. apply (Hanswered body). reflexivity.
Qed.
End Effects.

Section CollectorRuns.
Variable platform : Platform.
Variable token : option string.
Hypothesis token_present : truthy token = true.

Lemma pagesFrom_cons page n :
  pagesFrom page (S n) = page :: pagesFrom (page + 1) n.
Proof.
  unfold pagesFrom. simpl. rewrite Z.add_0_r. f_equal.
  rewrite <- seq_shift, map_map. apply map_ext. intros i. lia.
Qed.

Lemma pagesFrom_one page : pagesFrom page 1 = [page].
Proof. unfold pagesFrom. simpl. rewrite Z.add_0_r. reflexivity. Qed.

Lemma listOrgRepos_aborts fuel org : forall repos page flag,
  abortsOnFailure platform
    (listOrgRepos_loop platform token fuel org repos page flag).
Proof.
  induction fuel as [|fuel IH]; intros repos page flag; simpl.
  - apply aborts_ret.
  - destruct (flag && (page <=? 5)); [|apply aborts_ret].
    apply aborts_bind.
    + apply aborts_fetch; [assumption| |].
      * intros message H. exact H.
      * intros body H message H'. simpl in H'. congruence.
    + intros chunk. apply IH.
Qed.

Lemma scanBatch_aborts owner repo range batch : forall prs flag,
  abortsOnFailure platform
    (scanBatch platform token owner repo range batch prs flag).
Proof.
  induction batch as [|pr batch IH]; intros prs flag; cbn [scanBatch].
  - apply aborts_ret.
  - fold (mergedLongBefore range pr).
    destruct (mergedLongBefore range pr); [apply aborts_ret|].
    apply aborts_bind.
    + apply aborts_fetch; [assumption| |].
      * intros message H. exact H.
      * intros body H message H'. simpl in H'. congruence.
    + intros detail. apply IH.
Qed.

Lemma fetchPullRequests_aborts fuel owner repo range : forall prs page flag,
  abortsOnFailure platform
    (fetchPullRequests_loop platform token fuel owner repo range prs page
       flag).
Proof.
  induction fuel as [|fuel IH]; intros prs page flag; simpl.
  - apply aborts_ret.
  - destruct (flag && (page <=? 5)); [|apply aborts_ret].
    apply aborts_bind.
    + apply aborts_fetch; [assumption| |].
      * intros message H. exact H.
      * intros body H message H'. simpl in H'. congruence.
    + intros batch. apply aborts_bind.
      * apply scanBatch_aborts.
      * intros [prs' flag']. apply IH.
Qed.
End CollectorRuns.

(** X11: with a credential, the two paginated collectors only ever append
    to the log of requests, and a request that fails aborts the collection
    at once.  When a collector throws, the error is that of the last
    request it sent; every request it sent before was answered, so the
    failing request is the first to fail, was sent once (it is not
    retried) and nothing is sent after it.  When a collector returns,
    every request it sent was answered. *)
Theorem failed_request_aborts_collection
    (platform : Platform) (token : option string) :
  truthy token = true ->
  (forall org, abortsOnFailure platform (listOrgRepos platform token org)) /\
  (forall fullName range,
     abortsOnFailure platform
       (fetchPullRequestsForRepo platform token fullName range)).
Proof.
  intros Htoken. split.
  - intros org. apply listOrgRepos_aborts. assumption.
  - intros fullName range. unfold fetchPullRequestsForRepo.
    destruct (ownerAndName fullName) as [owner repo].
    apply fetchPullRequests_aborts. assumption.
Qed.

Lemma failed_request_aborts_collection_witness :
  listOrgRepos flakyPlatform (Some "secret"%string) "acme" [] =
  (Threw "502",
   [ListOrgRepos "acme" 1; ListOrgRepos "acme" 2; ListOrgRepos "acme" 3]) /\
  exists sent earlier r,
    [ListOrgRepos "acme" 1; ListOrgRepos "acme" 2; ListOrgRepos "acme" 3]
    = [] ++ sent /\
    sent = earlier ++ [r] /\ failsWith flakyPlatform r "502" /\
    Forall (answered flakyPlatform) earlier /\ ~ In r earlier.
Proof.
  assert (listOrgRepos flakyPlatform (Some "secret"%string) "acme" [] =
          (Threw "502",
           [ListOrgRepos "acme" 1; ListOrgRepos "acme" 2;
            ListOrgRepos "acme" 3])) as Hrun by (vm_compute; reflexivity).
  split; [exact Hrun|].
  destruct (proj1 (failed_request_aborts_collection flakyPlatform
                     (Some "secret"%string) eq_refl) "acme"%string _ _ _ Hrun)
    as (sent & Hsent & earlier & r & Hlast & Hfail & Hearlier & Hfresh).
  exists sent, earlier, r. auto.
Defined.

Section CollectorResults.
Variable platform : Platform.
Variable token : option string.
Hypothesis token_present : truthy token = true.

Lemma listOrgRepos_loop_idle fuel org repos page log :
  listOrgRepos_loop platform token fuel org repos page false log =
  (Returned repos, log).
Proof. destruct fuel; reflexivity. Qed.

Lemma listOrgRepos_loop_run org fuel : forall repos page log,
  1 <= page <= 5 ->
  (Z.to_nat (6 - page) <= fuel)%nat ->
  exists n,
    (1 <= n <= Z.to_nat (6 - page))%nat /\
    snd (listOrgRepos_loop platform token fuel org repos page true log) =
      log ++ map (ListOrgRepos org) (pagesFrom page n) /\
    (forall p, In p (pagesFrom page (n - 1)) ->
       exists chunk,
         orgRepos platform org p = inr chunk /\ List.length chunk = 100%nat) /\
    match fst (listOrgRepos_loop platform token fuel org repos page true log)
    with
    | Threw message =>
        orgRepos platform org (page + Z.of_nat (n - 1)) = inl message
    | Returned result =>
        result = repos ++ flat_map (orgPageOf platform org) (pagesFrom page n)
        /\ exists chunk,
             orgRepos platform org (page + Z.of_nat (n - 1)) = inr chunk /\
             (List.length chunk <> 100%nat \/ page + Z.of_nat (n - 1) = 5)
    end.
Proof.
  induction fuel as [|fuel IH]; intros repos page log Hpage Hfuel; [lia|].
  cbn [listOrgRepos_loop fst snd].
  destruct (Z.leb_spec page 5); [|lia]. cbn [andb].
  unfold bind. rewrite fetchFromGitHub_answer by assumption.
  assert (page + Z.of_nat (1 - 1) = page) as Hlast1 by (simpl; lia).
  destruct (orgRepos platform org page) as [message|chunk] eqn:Echunk.
  - exists 1%nat. rewrite Hlast1, pagesFrom_one.
    change (pagesFrom page (1 - 1)) with (@nil Z). cbn [fst snd map].
    split; [lia|]. split; [reflexivity|]. split; [intros p []|assumption].
  - destruct (Nat.eqb_spec (List.length chunk) 100) as [Hfull|Hshort].
    + destruct (Z.eq_dec page 5) as [Hat5|Hnot5].
      * rewrite listOrgRepos_ceiling by lia.
        exists 1%nat. rewrite Hlast1, pagesFrom_one.
        change (pagesFrom page (1 - 1)) with (@nil Z). cbn [fst snd map].
        split; [lia|]. split; [reflexivity|]. split; [intros p []|].
        split.
        -- cbn [flat_map]. unfold orgPageOf. rewrite Echunk, app_nil_r.
           reflexivity.
        -- exists chunk. auto.
      * destruct (IH (repos ++ chunk) (page + 1)
                    (log ++ [ListOrgRepos org page]) ltac:(lia) ltac:(lia))
          as (n & Hn & Hlog & Hfullpages & Hout).
        exists (S n). rewrite pagesFrom_cons.
        replace (S n - 1)%nat with (S (n - 1)) by lia.
        rewrite pagesFrom_cons.
        replace (page + Z.of_nat (S (n - 1)))
          with (page + 1 + Z.of_nat (n - 1)) by lia.
        split; [lia|]. split; [|split].
        -- rewrite Hlog, <- app_assoc. reflexivity.
        -- intros p [<-|Hp]; [exists chunk; auto|]. apply Hfullpages, Hp.
        -- destruct (fst _) as [message|result]; [assumption|].
           destruct Hout as (-> & Hlast). split; [|assumption].
           cbn [flat_map]. unfold orgPageOf at 2.
           rewrite Echunk, <- app_assoc. reflexivity.
    + rewrite listOrgRepos_loop_idle.
      exists 1%nat. rewrite Hlast1, pagesFrom_one.
      change (pagesFrom page (1 - 1)) with (@nil Z). cbn [fst snd map].
      split; [lia|]. split; [reflexivity|]. split; [intros p []|].
      split.
      * cbn [flat_map]. unfold orgPageOf. rewrite Echunk, app_nil_r.
        reflexivity.
      * exists chunk. auto.
Qed.
End CollectorResults.

(** X12: with a credential, the organisation listing requests pages 1, 2,
    ... in order and nothing else, at least one and at most five; every
    page but the last one requested held exactly 100 repositories.  When
    the listing returns, it returns the pages end to end, and the last page
    was short or was page 5; when it throws, it throws the error of the
    last page requested. *)
Theorem listOrgRepos_pages
    (platform : Platform) (token : option string) (org : string)
    (log : list Request) :
  truthy token = true ->
  exists n,
    (1 <= n <= 5)%nat /\
    snd (listOrgRepos platform token org log) =
      log ++ map (ListOrgRepos org) (pagesFrom 1 n) /\
    (forall p, In p (pagesFrom 1 (n - 1)) ->
       List.length (orgPageOf platform org p) = 100%nat) /\
    match fst (listOrgRepos platform token org log) with
    | Threw message => orgRepos platform org (Z.of_nat n) = inl message
    | Returned result =>
        result = flat_map (orgPageOf platform org) (pagesFrom 1 n) /\
        (List.length (orgPageOf platform org (Z.of_nat n)) <> 100%nat
         \/ n = 5%nat)
    end.
Proof.
  intros Htoken. unfold listOrgRepos.
  destruct (listOrgRepos_loop_run platform token Htoken org 6 [] 1 log
              ltac:(lia) ltac:(simpl; lia))
    as (n & Hn & Hlog & Hfull & Hout).
  change (Z.to_nat (6 - 1)) with 5%nat in Hn.
  replace (1 + Z.of_nat (n - 1)) with (Z.of_nat n) in Hout by lia.
  exists n. split; [assumption|]. split; [assumption|]. split.
  - intros p Hp. destruct (Hfull p Hp) as (chunk & Hchunk & Hlen).
    unfold orgPageOf. rewrite Hchunk. assumption.
  - destruct (fst _) as [message|result]; [assumption|].
    destruct Hout as (Hres & chunk & Hchunk & Hlast). split; [assumption|].
    unfold orgPageOf. rewrite Hchunk. destruct Hlast; [left|right]; lia.
Qed.

Lemma listOrgRepos_pages_witness :
  exists n,
    (1 <= n <= 5)%nat /\
    snd (listOrgRepos flakyPlatform (Some "secret"%string) "acme" []) =
      map (ListOrgRepos "acme") (pagesFrom 1 n).
Proof.
  destruct (listOrgRepos_pages flakyPlatform (Some "secret"%string) "acme" []
              eq_refl) as (n & Hn & Hlog & _).
  exists n. split; assumption.
Defined.

Section PullRuns.
Variable platform : Platform.
Variable token : option string.
Hypothesis token_present : truthy token = true.
Variables (owner repo : string) (range : RangeDescriptor).

Lemma scanBatch_run batch : forall prs flag log result flag' log',
  scanBatch platform token owner repo range batch prs flag log =
    (Returned (result, flag'), log') ->
  result = prs ++ detailsOf platform owner repo range batch /\
  log' = log ++ map (fun pr => GetPull owner repo (number pr))
                  (aheadOfStale range batch) /\
  Forall2 (fun detail pr =>
             pullDetail platform owner repo (number pr) = inr detail)
    (detailsOf platform owner repo range batch) (aheadOfStale range batch).
Proof.
  unfold detailsOf.
  induction batch as [|pr batch IH]; intros prs flag log result flag' log';
    cbn [scanBatch aheadOfStale].
  - intros [= <- _ <-]. simpl. rewrite !app_nil_r. auto.
  - fold (mergedLongBefore range pr).
    destruct (mergedLongBefore range pr).
    + intros [= <- _ <-]. simpl. rewrite !app_nil_r. auto.
    + unfold bind. rewrite fetchFromGitHub_answer by assumption.
      destruct (pullDetail platform owner repo (number pr))
        as [message|detail] eqn:Edetail; [discriminate|].
      intros Hrun. apply IH in Hrun. destruct Hrun as (-> & -> & Hlen).
      cbn [flat_map map]. rewrite Edetail.
      rewrite <- !app_assoc. cbn [app map]. rewrite ?Edetail.
      repeat split; try congruence. constructor; assumption.
Qed.

Lemma fetchPullRequests_loop_run fuel : forall prs page log result log',
  1 <= page <= 5 ->
  (Z.to_nat (6 - page) <= fuel)%nat ->
  fetchPullRequests_loop platform token fuel owner repo range prs page true
    log = (Returned result, log') ->
  exists n,
    (1 <= n <= Z.to_nat (6 - page))%nat /\
    result =
      prs ++ flat_map
               (fun p => detailsOf platform owner repo range
                           (pageOf platform owner repo p))
               (pagesFrom page n) /\
    log' =
      log ++ flat_map (requestsOfPage platform owner repo range)
               (pagesFrom page n) /\
    (forall p, In p (pagesFrom page (n - 1)) ->
       List.length (pageOf platform owner repo p) = perPage) /\
    (List.length (pageOf platform owner repo (page + Z.of_nat (n - 1)))
     <> perPage \/ page + Z.of_nat (n - 1) = 5) /\
    Forall
      (fun p =>
         Forall2 (fun detail pr =>
                    pullDetail platform owner repo (number pr) = inr detail)
           (detailsOf platform owner repo range
              (pageOf platform owner repo p))
           (aheadOfStale range (pageOf platform owner repo p)))
      (pagesFrom page n).
Proof.
  induction fuel as [|fuel IH]; intros prs page log result log' Hpage Hfuel;
    [lia|].
  cbn [fetchPullRequests_loop].
  destruct (Z.leb_spec page 5); [|lia]. cbn [andb].
  unfold bind at 1. rewrite fetchFromGitHub_answer by assumption.
  assert (page + Z.of_nat (1 - 1) = page) as Hlast1 by (simpl; lia).
  destruct (pullList platform owner repo page) as [message|batch] eqn:Ebatch;
    [discriminate|].
  assert (pageOf platform owner repo page = batch) as Hpage_batch
    by (unfold pageOf; rewrite Ebatch; reflexivity).
  unfold bind at 1.
  destruct (scanBatch platform token owner repo range batch prs true
              (log ++ [ListPulls owner repo page]))
    as [[message|[prs1 flag1]] log1] eqn:Escan; [discriminate|].
  apply scanBatch_run in Escan. destruct Escan as (-> & -> & Hdetails).
  rewrite <- Hpage_batch in Hdetails.
  assert (forall rest,
            (log ++ [ListPulls owner repo page]) ++
            map (fun pr => GetPull owner repo (number pr))
              (aheadOfStale range batch) ++ rest =
            log ++ requestsOfPage platform owner repo range page ++ rest)
    as Hreq.
  { intros rest. unfold requestsOfPage. rewrite Hpage_batch, <- !app_assoc.
    reflexivity. }
  assert (forall prs0 log0,
            (prs0, log0) =
            (prs ++ detailsOf platform owner repo range batch,
             (log ++ [ListPulls owner repo page]) ++
             map (fun pr => GetPull owner repo (number pr))
               (aheadOfStale range batch)) ->
            prs0 = prs ++ flat_map
                            (fun p => detailsOf platform owner repo range
                                        (pageOf platform owner repo p)) [page]
            /\ log0 = log ++ flat_map
                               (requestsOfPage platform owner repo range)
                               [page]) as Hsingle.
  { intros prs0 log0 [= -> ->]. cbn [flat_map].
    rewrite Hpage_batch, !app_nil_r. split; [reflexivity|].
    rewrite <- (app_nil_r (map _ _)), Hreq, app_nil_r. reflexivity. }
  destruct (Nat.eqb_spec (List.length batch) perPage) as [Hfull|Hshort].
  - destruct (Z.eq_dec page 5) as [Hat5|Hnot5].
    + rewrite fetch_loop_ceiling by lia. intros [= <- <-].
      exists 1%nat. rewrite Hlast1, pagesFrom_one.
      change (pagesFrom page (1 - 1)) with (@nil Z).
      destruct (Hsingle _ _ eq_refl) as (H1 & H2).
      split; [lia|]. split; [exact H1|]. split; [exact H2|].
      split; [intros p []|]. split; [right; assumption|].
      constructor; [assumption|constructor].
    + intros Hrun.
      apply IH in Hrun; [|lia|lia].
      destruct Hrun as (n & Hn & -> & -> & Hfullpages & Hlast & Hall).
      exists (S n). rewrite pagesFrom_cons.
      replace (S n - 1)%nat with (S (n - 1)) by lia.
      rewrite pagesFrom_cons.
      replace (page + Z.of_nat (S (n - 1)))
        with (page + 1 + Z.of_nat (n - 1)) by lia.
      split; [lia|]. cbn [flat_map]. rewrite Hpage_batch.
      split; [rewrite <- app_assoc; reflexivity|].
      split; [|split; [|split; [assumption|]]].
      * rewrite <- app_assoc. apply Hreq.
      * intros p [<-|Hp]; [rewrite Hpage_batch; assumption|].
        apply Hfullpages, Hp.
      * constructor; assumption.
  - rewrite fetch_loop_stops. intros [= <- <-].
    exists 1%nat. rewrite Hlast1, pagesFrom_one.
    change (pagesFrom page (1 - 1)) with (@nil Z).
    destruct (Hsingle _ _ eq_refl) as (H1 & H2).
    split; [lia|]. split; [exact H1|]. split; [exact H2|].
    split; [intros p []|].
    split; [left; rewrite Hpage_batch; assumption|].
    constructor; [assumption|constructor].
Qed.

Lemma aheadOfStale_fresh batch :
  Forall (fun pr => mergedLongBefore range pr = false)
    (aheadOfStale range batch) /\
  exists rest, batch = aheadOfStale range batch ++ rest.
Proof.
  induction batch as [|pr batch (IH1 & rest & IH2)]; simpl.
  - split; [constructor|]. exists []. reflexivity.
  - destruct (mergedLongBefore range pr) eqn:E.
    + split; [constructor|]. exists (pr :: batch). reflexivity.
    + split; [constructor; assumption|].
      exists rest. simpl. rewrite <- IH2. reflexivity.
Qed.
End PullRuns.

Section PullLog.
Variable platform : Platform.
Variables (owner repo : string) (range : RangeDescriptor).

Lemma lookedUp_lookups (l : list GitHubPullRequest) :
  lookedUp (map (fun pr => GetPull owner repo (number pr)) l) = map number l /\
  listedPages (map (fun pr => GetPull owner repo (number pr)) l) = [].
Proof.
  unfold lookedUp, listedPages.
  induction l as [|pr l (IH1 & IH2)]; simpl; [auto|].
  rewrite IH1, IH2. auto.
Qed.

Lemma log_of_pages (pages : list Z) :
  listedPages (flat_map (requestsOfPage platform owner repo range) pages)
  = pages /\
  lookedUp (flat_map (requestsOfPage platform owner repo range) pages) =
  map number
    (flat_map (fun p => aheadOfStale range (pageOf platform owner repo p))
       pages).
Proof.
  induction pages as [|p pages (IH1 & IH2)]; [auto|].
  cbn [flat_map]. unfold listedPages, lookedUp in *.
  rewrite !flat_map_app, IH1, IH2, map_app.
  unfold requestsOfPage. cbn [flat_map app].
  destruct (lookedUp_lookups
              (aheadOfStale range (pageOf platform owner repo p)))
    as (H1 & H2).
  unfold lookedUp, listedPages in H1, H2. rewrite H1, H2. auto.
Qed.
End PullLog.

(** X13: when the collection of a repository's pull requests returns, the
    listing pages it requested are pages 1, 2, ... up to the first page
    that did not hold exactly 50 entries, and at most page 5.  What the
    pages contain plays no part in this: a pull request merged long before
    the window does not end the pagination. *)
Theorem pull_pagination_follows_page_size
    (platform : Platform) (token : option string)
    (fullName owner repo : string) (range : RangeDescriptor)
    (log log' : list Request) (result : list GitHubPullRequest) :
  truthy token = true ->
  ownerAndName fullName = (owner, repo) ->
  fetchPullRequestsForRepo platform token fullName range log =
    (Returned result, log') ->
  exists n sent,
    (1 <= n <= 5)%nat /\
    log' = log ++ sent /\
    listedPages sent = pagesFrom 1 n /\
    (forall p, In p (pagesFrom 1 (n - 1)) ->
       List.length (pageOf platform owner repo p) = 50%nat) /\
    (List.length (pageOf platform owner repo (Z.of_nat n)) <> 50%nat
     \/ n = 5%nat).
Proof.
  intros Htoken Hname Hrun. unfold fetchPullRequestsForRepo in Hrun.
  rewrite Hname in Hrun.
  apply (fetchPullRequests_loop_run platform token Htoken) in Hrun;
    [|lia|simpl; lia].
  destruct Hrun as (n & Hn & _ & -> & Hfull & Hlast & _).
  change (Z.to_nat (6 - 1)) with 5%nat in Hn.
  replace (1 + Z.of_nat (n - 1)) with (Z.of_nat n) in Hlast by lia.
  exists n, (flat_map (requestsOfPage platform owner repo range)
               (pagesFrom 1 n)).
  split; [assumption|]. split; [reflexivity|].
  split; [apply log_of_pages|]. split; [exact Hfull|].
  destruct Hlast; [left; assumption|right; lia].
Qed.

Lemma pull_pagination_follows_page_size_witness :
  exists sent,
    snd (fetchPullRequestsForRepo threePages (Some "secret"%string)
           "acme/web" window []) = [] ++ sent /\
    listedPages sent = [1; 2; 3].
Proof.
  destruct (fetchPullRequestsForRepo threePages (Some "secret"%string)
              "acme/web" window []) as [[message|result] log'] eqn:Hrun;
    [vm_compute in Hrun; discriminate|].
  destruct (pull_pagination_follows_page_size threePages
              (Some "secret"%string) "acme/web" "acme" "web" window [] log'
              result eq_refl eq_refl Hrun)
    as (n & sent & Hn & Hlog & Hpages & Hfull & Hlast).
  exists sent. split; [exact Hlog|].
  rewrite Hpages.
  assert (n = 3%nat) as ->; [|reflexivity].
  destruct Hn as [Hn1 Hn5].
  destruct n as [|[|[|[|[|[|n]]]]]]; try lia; try reflexivity; exfalso.
  - destruct Hlast as [Hl|Hl]; [apply Hl; reflexivity|discriminate].
  - destruct Hlast as [Hl|Hl]; [apply Hl; reflexivity|discriminate].
  - specialize (Hfull 3 ltac:(vm_compute; auto)). discriminate.
  - specialize (Hfull 3 ltac:(vm_compute; auto)). discriminate.
Defined.

(** X14: when the collection returns, it has listed the pages 1 to [n],
    [n] being the first page that is not full, or 5; the pull requests it
    looked up are, page after page, those listed ahead of the first pull
    request of the page that was merged more than a day before the window;
    none of them is such a pull request, and the list returned holds their
    full records, in that order. *)
Theorem collected_are_details_ahead_of_stale
    (platform : Platform) (token : option string)
    (fullName owner repo : string) (range : RangeDescriptor)
    (log log' : list Request) (result : list GitHubPullRequest) :
  truthy token = true ->
  ownerAndName fullName = (owner, repo) ->
  fetchPullRequestsForRepo platform token fullName range log =
    (Returned result, log') ->
  exists n sent,
    let kept :=
      flat_map (fun p => aheadOfStale range (pageOf platform owner repo p))
        (pagesFrom 1 n) in
    (1 <= n <= 5)%nat /\
    (forall p, In p (pagesFrom 1 (n - 1)) ->
       List.length (pageOf platform owner repo p) = 50%nat) /\
    (List.length (pageOf platform owner repo (Z.of_nat n)) <> 50%nat
     \/ n = 5%nat) /\
    log' = log ++ sent /\
    sent = flat_map (requestsOfPage platform owner repo range) (pagesFrom 1 n)
    /\
    listedPages sent = pagesFrom 1 n /\
    lookedUp sent = map number kept /\
    Forall (fun pr => mergedLongBefore range pr = false) kept /\
    Forall2 (fun detail pr =>
               pullDetail platform owner repo (number pr) = inr detail)
      result kept.
Proof.
  intros Htoken Hname Hrun. unfold fetchPullRequestsForRepo in Hrun.
  rewrite Hname in Hrun.
  apply (fetchPullRequests_loop_run platform token Htoken) in Hrun;
    [|lia|simpl; lia].
  destruct Hrun as (n & Hn & -> & -> & Hfull & Hlast & Hall).
  change (Z.to_nat (6 - 1)) with 5%nat in Hn.
  replace (1 + Z.of_nat (n - 1)) with (Z.of_nat n) in Hlast by lia.
  exists n, (flat_map (requestsOfPage platform owner repo range)
               (pagesFrom 1 n)).
  cbv zeta. split; [exact Hn|]. split; [exact Hfull|].
  split; [destruct Hlast; [left; assumption|right; lia]|].
  split; [reflexivity|]. split; [reflexivity|].
  split; [apply log_of_pages|]. split; [apply log_of_pages|].
  simpl app. clear Hname Hfull Hlast Hn.
  induction (pagesFrom 1 n) as [|p pages IH]; cbn [flat_map].
  - split; constructor.
  - apply Forall_cons_iff in Hall. destruct Hall as (Hp & Hall).
    destruct (IH Hall) as (IH1 & IH2). split.
    + apply Forall_app. split; [apply aheadOfStale_fresh|assumption].
    + apply Forall2_app; assumption.
Qed.

Lemma collected_are_details_ahead_of_stale_witness :
  exists n sent,
    (1 <= n <= 5)%nat /\
    snd (fetchPullRequestsForRepo threePages (Some "secret"%string)
           "acme/web" window []) = [] ++ sent /\
    listedPages sent = pagesFrom 1 n /\
    lookedUp sent =
    map number
      (flat_map (fun p => aheadOfStale window (pageOf threePages "acme" "web" p))
         (pagesFrom 1 n)).
Proof.
  destruct (fetchPullRequestsForRepo threePages (Some "secret"%string)
              "acme/web" window []) as [[message|result] log'] eqn:Hrun;
    [vm_compute in Hrun; discriminate|].
  destruct (collected_are_details_ahead_of_stale threePages
              (Some "secret"%string) "acme/web" "acme" "web" window [] log'
              result eq_refl eq_refl Hrun)
    as (n & sent & Hn & _ & _ & Hlog & _ & Hlisted & Hlook & _).
  exists n, sent. repeat split; try assumption; lia.
Defined.

(** ** Without a credential; language lookup *)

Section NoCredential.
Variable platform : Platform.
Variable token : option string.
Hypothesis token_absent : truthy token = false.

Lemma fetchFromGitHub_refuses {T : Type} (request : Request)
    (answer : Answer T) (log : list Request) :
  fetchFromGitHub token request answer log =
  (Threw "Missing GITHUB_TOKEN", log).
Proof. unfold fetchFromGitHub. rewrite token_absent. reflexivity. Qed.

Lemma listOrgRepos_refuses org log :
  listOrgRepos platform token org log = (Threw "Missing GITHUB_TOKEN", log).
Proof.
  unfold listOrgRepos. cbn [listOrgRepos_loop].
  change (true && (1 <=? 5)) with true. cbv iota.
  unfold bind. rewrite fetchFromGitHub_refuses. reflexivity.
Qed.

Lemma fetchPullRequests_refuses fullName range log :
  fetchPullRequestsForRepo platform token fullName range log =
  (Threw "Missing GITHUB_TOKEN", log).
Proof.
  unfold fetchPullRequestsForRepo.
  destruct (ownerAndName fullName) as [owner repo].
  cbn [fetchPullRequests_loop].
  change (true && (1 <=? 5)) with true. cbv iota.
  unfold bind. rewrite fetchFromGitHub_refuses. reflexivity.
Qed.

Lemma startAll_silent selected : forall log,
  startAll token selected log = (Returned tt, log).
Proof.
  induction selected as [|fullName rest IH]; intros log; [reflexivity|].
  cbn [startAll]. destruct (ownerAndName fullName) as [owner name].
  rewrite token_absent. unfold bind. cbn [ret]. apply IH.
Qed.
End NoCredential.

(** X15: without a credential no outbound call is made at all: the
    organisation listing and the pull request collection throw "Missing
    GITHUB_TOKEN", the snapshot build throws, and the language lookup
    falls back on the primary language, each leaving the log of requests
    as it was. *)
Theorem no_credential_no_request
    (platform : Platform) (token : option string) :
  truthy token = false ->
  (forall org log,
     listOrgRepos platform token org log =
     (Threw "Missing GITHUB_TOKEN", log)) /\
  (forall fullName range log,
     fetchPullRequestsForRepo platform token fullName range log =
     (Threw "Missing GITHUB_TOKEN", log)) /\
  (forall repo log,
     fetchRepoLanguages platform token repo log =
     (Returned (primaryLanguage repo), log)) /\
  (forall org selected range clock log,
     exists message,
       buildSnapshot platform token org selected range clock log =
       (Threw message, log)).
Proof.
  intros Habsent. split; [|split; [|split]].
  - intros org log. apply listOrgRepos_refuses. assumption.
  - intros fullName range log. apply fetchPullRequests_refuses. assumption.
  - intros repo log. unfold fetchRepoLanguages, tryCatch.
    rewrite fetchFromGitHub_refuses by assumption.
    unfold primaryLanguage, truthy, ret.
    destruct (language repo) as [l|]; [|reflexivity].
    destruct (String.eqb l ""); reflexivity.
  - intros org selected range clock log. unfold buildSnapshot, bind at 1.
    destruct selected as [[|fullName rest]|].
    + destruct org as [o|].
      * destruct (truthy (Some o)).
        -- exists "Missing GITHUB_TOKEN"%string.
           rewrite listOrgRepos_refuses by assumption. reflexivity.
        -- eexists. reflexivity.
      * eexists. reflexivity.
    + exists "Missing GITHUB_TOKEN"%string.
      unfold lookupSelected, bind. rewrite startAll_silent by assumption.
      unfold awaitAll. rewrite Habsent. reflexivity.
    + destruct org as [o|].
      * destruct (truthy (Some o)).
        -- exists "Missing GITHUB_TOKEN"%string.
           rewrite listOrgRepos_refuses by assumption. reflexivity.
        -- eexists. reflexivity.
      * eexists. reflexivity.
Qed.

Lemma no_credential_no_request_witness :
  fetchPullRequestsForRepo stalePlatform None "acme/web" window [] =
  (Threw "Missing GITHUB_TOKEN", []).
Proof.
  apply (proj1 (proj2 (no_credential_no_request stalePlatform None eq_refl))).
Defined.

(** X16: the language lookup never throws and sends at most one request.
    With a credential it returns the languages the platform reports, and
    when the platform fails, the primary language of the repository alone
    (nothing for a repository without one, as every explicitly selected
    repository is after its lookup). *)
Theorem fetchRepoLanguages_never_throws
    (platform : Platform) (token : option string) (repo : GitHubRepo)
    (log : list Request) :
  exists langs sent,
    fetchRepoLanguages platform token repo log = (Returned langs, log ++ sent)
    /\ (List.length sent <= 1)%nat /\
    (truthy token = true ->
     sent = [GetLanguages (full_name repo)] /\
     langs = match repoLanguages platform (full_name repo) with
             | inr names => names
             | inl _ => primaryLanguage repo
             end) /\
    (forall message,
       repoLanguages platform (full_name repo) = inl message ->
       langs = primaryLanguage repo) /\
    primaryLanguage (forceNoLanguage repo) = [].
Proof.
  assert (ret (A := list string)
            (if truthy (language repo)
             then match language repo with Some l => [l] | None => [] end
             else []) = ret (primaryLanguage repo)) as Hfallback.
  { unfold primaryLanguage, truthy.
    destruct (language repo) as [l|]; [|reflexivity].
    destruct (String.eqb l ""); reflexivity. }
  unfold fetchRepoLanguages, tryCatch. rewrite Hfallback.
  destruct (truthy token) eqn:Htoken.
  - rewrite fetchFromGitHub_answer by assumption.
    destruct (repoLanguages platform (full_name repo)) as [message|names].
    + exists (primaryLanguage repo), [GetLanguages (full_name repo)].
      repeat split; auto.
    + exists names, [GetLanguages (full_name repo)].
      repeat split; auto. intros message [=].
  - rewrite fetchFromGitHub_refuses by assumption.
    exists (primaryLanguage repo), []. rewrite app_nil_r.
    repeat split; auto; discriminate.
Qed.

Lemma fetchRepoLanguages_never_throws_witness :
  fetchRepoLanguages smallPlatform (Some "secret"%string)
    (mkRepo "web" "acme/web" "acme" (Some "Go"%string) "") [] =
  (Returned ["Go"%string], [GetLanguages "acme/web"]).
Proof.
  destruct (fetchRepoLanguages_never_throws smallPlatform
              (Some "secret"%string)
              (mkRepo "web" "acme/web" "acme" (Some "Go"%string) "") [])
    as (langs & sent & Hrun & _ & Hwith & _).
  destruct (Hwith eq_refl) as (-> & ->). exact Hrun.
Defined.

(** ** Snapshot builder *)

(** Of two selected repositories whose lookups both fail, the build
    throws the error of the lookup that fails first in time, not that of
    the first of the list; both lookups have been sent by then. *)
Example selected_lookups_race :
  buildSnapshot racingPlatform (Some "secret"%string) None
    (Some ["acme/slow"%string; "acme/fast"%string]) window 0 [] =
  (Threw "404", [GetRepo "acme" "slow"; GetRepo "acme" "fast"]).
Proof. vm_compute. reflexivity. Qed.

Section CollectFacts.

Lemma mergeEngineer_engineer existing metric :
  engineer (mergeEngineer existing metric) = engineer existing.
Proof. reflexivity. Qed.

Lemma collectEngineer_keyed agg metric :
  keyedByName agg -> keyedByName (collectEngineer agg metric).
Proof.
  intros Hagg. unfold collectEngineer.
  destruct (JSMap.get (engineer metric) agg) as [existing|] eqn:E.
  - apply keyedByName_set; [|assumption].
    rewrite mergeEngineer_engineer. apply (keyedByName_get _ _ _ Hagg E).
  - apply keyedByName_set; [reflexivity|assumption].
Qed.

Lemma collectEngineer_distinct agg metric :
  NoDup (JSMap.keys agg) -> NoDup (JSMap.keys (collectEngineer agg metric)).
Proof.
  intros Hagg. unfold collectEngineer.
  destruct (JSMap.get (engineer metric) agg); apply NoDup_keys_set; assumption.
Qed.

Variable f : EngineerMetric -> Z.
Hypothesis f_merge :
  forall existing metric, f (mergeEngineer existing metric)
                          = f existing + f metric.

Lemma collectEngineer_total agg metric :
  totalOver f (JSMap.values (collectEngineer agg metric)) =
  totalOver f (JSMap.values agg) + f metric.
Proof.
  unfold collectEngineer.
  destruct (JSMap.get (engineer metric) agg) as [existing|] eqn:E;
    rewrite totalOver_set, E, ?f_merge; lia.
Qed.

Lemma collectAll_total metrics : forall agg,
  totalOver f (JSMap.values (fold_left collectEngineer metrics agg)) =
  totalOver f (JSMap.values agg) + totalOver f metrics.
Proof.
  induction metrics as [|m metrics IH]; intros agg; simpl; [lia|].
  rewrite IH, collectEngineer_total. lia.
Qed.
End CollectFacts.

Lemma collectAll_keyed metrics : forall agg,
  keyedByName agg /\ NoDup (JSMap.keys agg) ->
  keyedByName (fold_left collectEngineer metrics agg) /\
  NoDup (JSMap.keys (fold_left collectEngineer metrics agg)).
Proof.
  induction metrics as [|m metrics IH]; intros agg (Hk & Hd); simpl; [auto|].
  apply IH. split.
  - apply collectEngineer_keyed. assumption.
  - apply collectEngineer_distinct. assumption.
Qed.

Section BucketFacts.

Lemma addToBucket_weeks key pr points :
  map week (addToBucket key pr points) =
  if existsb (fun p => week p =? key) points
  then map week points else map week points ++ [key].
Proof.
  induction points as [|p points IH]; simpl; [reflexivity|].
  destruct (week p =? key); simpl; [reflexivity|].
  rewrite IH. destruct (existsb _ points); reflexivity.
Qed.

Lemma addToBucket_distinct key pr points :
  NoDup (map week points) -> NoDup (map week (addToBucket key pr points)).
Proof.
  intros Hnd. rewrite addToBucket_weeks.
  destruct (existsb (fun p => week p =? key) points) eqn:E; [assumption|].
  apply NoDup_app; [assumption|repeat constructor; intros []|].
  intros w Hw [<-|[]]. apply in_map_iff in Hw. destruct Hw as (p & Hp & Hin).
  assert (existsb (fun p => week p =? key) points = true); [|congruence].
  apply existsb_exists. exists p. split; [assumption|]. apply Z.eqb_eq, Hp.
Qed.

Lemma addToBucket_mondays key pr points :
  mondayOf key = key ->
  Forall (fun p => mondayOf (week p) = week p) points ->
  Forall (fun p => mondayOf (week p) = week p) (addToBucket key pr points).
Proof.
  intros Hkey. induction 1 as [|p points Hp Hrest IH]; simpl.
  - repeat constructor. assumption.
  - destruct (week p =? key); constructor; simpl; assumption.
Qed.

Lemma addToBucket_totals key pr points :
  totalOfWeeks tp_mergedPRs (addToBucket key pr points) =
    totalOfWeeks tp_mergedPRs points + 1 /\
  totalOfWeeks tp_commits (addToBucket key pr points) =
    totalOfWeeks tp_commits points + commits pr /\
  totalOfWeeks tp_linesAdded (addToBucket key pr points) =
    totalOfWeeks tp_linesAdded points + additions pr /\
  totalOfWeeks tp_linesDeleted (addToBucket key pr points) =
    totalOfWeeks tp_linesDeleted points + deletions pr.
Proof.
  induction points as [|p points (IH1 & IH2 & IH3 & IH4)]; simpl.
  - repeat split; lia.
  - destruct (week p =? key); simpl; repeat split; lia.
Qed.

Lemma buckets_fold merged : forall points,
  NoDup (map week points) ->
  Forall (fun p => mondayOf (week p) = week p) points ->
  let points' :=
    fold_left
      (fun points pr => addToBucket (mondayOf (mergedAtOf pr)) pr points)
      merged points in
  NoDup (map week points') /\
  Forall (fun p => mondayOf (week p) = week p) points' /\
  totalOfWeeks tp_mergedPRs points' =
    totalOfWeeks tp_mergedPRs points + count merged /\
  totalOfWeeks tp_commits points' =
    totalOfWeeks tp_commits points + sumOf commits merged /\
  totalOfWeeks tp_linesAdded points' =
    totalOfWeeks tp_linesAdded points + sumOf additions merged /\
  totalOfWeeks tp_linesDeleted points' =
    totalOfWeeks tp_linesDeleted points + sumOf deletions merged.
Proof.
  induction merged as [|pr merged IH]; intros points Hnd Hmon; cbv zeta.
  - simpl. unfold count. simpl. repeat split; auto; lia.
  - simpl fold_left.
    pose proof (week_start_fixed (mergedAtOf pr)) as Hfix.
    specialize (IH (addToBucket (mondayOf (mergedAtOf pr)) pr points)
                  (addToBucket_distinct _ _ _ Hnd)
                  (addToBucket_mondays _ _ _ Hfix Hmon)).
    cbv zeta in IH. destruct IH as (I1 & I2 & I3 & I4 & I5 & I6).
    destruct (addToBucket_totals (mondayOf (mergedAtOf pr)) pr points)
      as (T1 & T2 & T3 & T4).
    rewrite I3, I4, I5, I6, T1, T2, T3, T4.
    change (sumOf commits (pr :: merged))
      with (commits pr + sumOf commits merged).
    change (sumOf additions (pr :: merged))
      with (additions pr + sumOf additions merged).
    change (sumOf deletions (pr :: merged))
      with (deletions pr + sumOf deletions merged).
    assert (count (pr :: merged) = 1 + count merged) as ->
      by (unfold count; cbn [List.length]; lia).
    repeat split; auto; lia.
Qed.
End BucketFacts.

Section BuildFacts.
Variable platform : Platform.
Variable token : option string.
Variable range : RangeDescriptor.

Lemma buildRepo_accounts st repo log st' log' :
  buildRepo platform token range st repo log = (Returned st', log') ->
  exists prs langs, st' = accountRepo range st repo prs langs.
Proof.
  unfold buildRepo, bind.
  destruct (fetchPullRequestsForRepo platform token (full_name repo) range log)
    as [[message|prs] log1]; [discriminate|].
  destruct (fetchRepoLanguages platform token repo log1)
    as [[message|langs] log2]; [discriminate|].
  intros [= <- _]. exists prs, langs. reflexivity.
Qed.

Lemma totalOfRepos_snoc f l r :
  totalOfRepos f (l ++ [r]) = totalOfRepos f l + f r.
Proof. induction l as [|x l IH]; simpl; lia. Qed.

Lemma accountRepo_consistent st repo prs langs :
  consistent st -> consistent (accountRepo range st repo prs langs).
Proof.
  intros [Hkey Hdist Hweeks Hmon (M1 & M2) (C1 & C2) (A1 & A2) (D1 & D2)].
  destruct (collectAll_keyed
              (engineerMetrics
                 (aggregateMetrics (name repo) (owner_login repo) prs range))
              (engineerAggregator st) (conj Hkey Hdist)) as (Hkey' & Hdist').
  destruct (buckets_fold (mergedInWindow range prs) (timelinePoints st)
              Hweeks Hmon) as (W1 & W2 & W3 & W4 & W5 & W6).
  destruct (engineer_totals (name repo) (owner_login repo) prs range)
    as (E1 & E2 & E3 & E4).
  destruct (result_repo_totals (name repo) (owner_login repo) range prs)
    as (R1 & R2 & R3 & R4 & _).
  cbv zeta in W1, W2, W3, W4, W5, W6, E1, E2, E3, E4, R1, R2, R3, R4.
  unfold accountRepo.
  constructor; cbn [engineerAggregator timelinePoints repoMetrics];
    try assumption;
    rewrite totalOfRepos_snoc, collectAll_total by reflexivity;
    cbn [withLanguages rm_mergedPRs rm_commits rm_linesAdded rm_linesDeleted];
    split; lia.
Qed.

Lemma buildRepos_consistent repos : forall st log st' log',
  buildRepos platform token range st repos log = (Returned st', log') ->
  consistent st -> consistent st'.
Proof.
  induction repos as [|repo repos IH]; intros st log st' log'; simpl.
  - intros [= <- _]. auto.
  - unfold bind.
    destruct (buildRepo platform token range st repo log)
      as [[message|st1] log1] eqn:E; [discriminate|].
    intros Hrest Hst. apply buildRepo_accounts in E.
    destruct E as (prs & langs & ->).
    apply (IH _ _ _ _ Hrest). apply accountRepo_consistent. assumption.
Qed.

Lemma emptyBuild_consistent : consistent emptyBuild.
Proof.
  constructor; simpl; try constructor; auto.
Qed.

Lemma buildSnapshot_assembles org selected clock log s log' :
  buildSnapshot platform token org selected range clock log
    = (Returned s, log') ->
  exists repos log1 st,
    workingSet platform token org selected log = (Returned repos, log1) /\
    buildRepos platform token range emptyBuild repos log1
      = (Returned st, log') /\
    s = assemble clock range st.
Proof.
  unfold buildSnapshot. fold (workingSet platform token org selected).
  unfold bind.
  destruct (workingSet platform token org selected log)
    as [[message|repos] log1] eqn:Eset; [discriminate|].
  fold emptyBuild.
  destruct (buildRepos platform token range emptyBuild repos log1)
    as [[message|st] log2] eqn:Ebuild; [discriminate|].
  intros [= <- <-]. exists repos, log1, st.
  split; [reflexivity|]. split; [assumption|reflexivity].
Qed.
End BuildFacts.

Lemma monday_fixed_is_monday (w : timestamp) :
  mondayOf w = w -> w mod MILLISECONDS_PER_DAY = 0 /\ utcDay w = 1.
Proof.
  intros Hfix. rewrite mondayOf_closed in Hfix.
  assert (0 < MILLISECONDS_PER_DAY) as Hms by reflexivity.
  set (d := w / MILLISECONDS_PER_DAY) in *.
  pose proof (Z.mod_pos_bound (d + 3) 7 ltac:(lia)) as Hoff.
  assert (w mod MILLISECONDS_PER_DAY = 0) as Hmod
    by (rewrite <- Hfix; apply Z.mod_mul; lia).
  split; [assumption|].
  assert (d = d - (d + 3) mod 7) as Hsame.
  { unfold d at 1. rewrite <- Hfix. apply Z.div_mul. lia. }
  unfold utcDay. fold d.
  pose proof (Z.div_mod (d + 3) 7 ltac:(lia)) as E.
  replace (d + 4) with (1 + ((d + 3) / 7) * 7) by lia.
  rewrite Z.mod_add by lia. reflexivity.
Qed.

Lemma totalOver_perm f l l' :
  Permutation l l' -> totalOver f l = totalOver f l'.
Proof. induction 1; simpl; lia. Qed.

Lemma totalOfWeeks_perm f l l' :
  Permutation l l' -> totalOfWeeks f l = totalOfWeeks f l'.
Proof. induction 1; simpl; lia. Qed.

Lemma increasing_of_distinct {A : Type} (key : A -> Z) (l : list A) :
  descendingBy (fun a => - key a) l -> NoDup (map key l) ->
  increasingBy key l.
Proof.
  unfold descendingBy, increasingBy.
  induction 1 as [|a l Hl IH Ha]; intros Hnd; [constructor|].
  simpl in Hnd. inversion Hnd as [|? ? Hnotin Hnd']; subst.
  constructor; [apply IH; assumption|].
  rewrite Forall_forall in Ha |- *. intros b Hb.
  specialize (Ha b Hb). simpl in Ha.
  assert (key a <> key b); [|lia].
  intros Heq. apply Hnotin. rewrite Heq. apply in_map. assumption.
Qed.

(** X17: a snapshot that is built carries the clock reading and the range
    it was built for; its high-impact list has at most 20 entries, largest
    change first; its engineers have distinct names and are ordered by
    impact score, highest first; its timeline has exactly one point per
    week, in chronological order, each keyed by a Monday midnight (UTC). *)
Theorem snapshot_rankings
    (platform : Platform) (token : option string)
    (org : option string) (selected : option (list string))
    (range : RangeDescriptor) (clock : timestamp)
    (log log' : list Request) (s : MetricSnapshot) :
  buildSnapshot platform token org selected range clock log
    = (Returned s, log') ->
  generatedAt s = clock /\
  snapshotRange s = range /\
  (List.length (highImpactPRs s) <= 20)%nat /\
  descendingBy churn (highImpactPRs s) /\
  descendingBy impactScore (engineers s) /\
  NoDup (map engineer (engineers s)) /\
  increasingBy week (timeline s) /\
  Forall (fun p => week p mod MILLISECONDS_PER_DAY = 0 /\ utcDay (week p) = 1)
    (timeline s).
Proof.
  intros Hrun. apply buildSnapshot_assembles in Hrun.
  destruct Hrun as (repos & log1 & st & _ & Hbuild & ->).
  apply buildRepos_consistent in Hbuild; [|apply emptyBuild_consistent].
  destruct Hbuild as [Hkey Hdist Hweeks Hmon _ _ _ _].
  unfold assemble. cbn [generatedAt snapshotRange highImpactPRs engineers
                        timeline].
  split; [reflexivity|]. split; [reflexivity|].
  split; [rewrite length_firstn; lia|].
  split.
  { pose proof (sort_descending byChurn churn (fun a b => eq_refl)
                  (allHighImpact st)) as Hs.
    rewrite <- (firstn_skipn 20 (sort byChurn (allHighImpact st))) in Hs.
    apply (descendingBy_split churn _ _ Hs). }
  split.
  { apply (sort_descending _ impactScore). reflexivity. }
  split.
  { apply (Permutation_NoDup
             (l := map engineer (JSMap.values (engineerAggregator st)))).
    - apply Permutation_map, Permutation_sym, sort_perm.
    - rewrite keyedByName_values by assumption. assumption. }
  split.
  { apply increasing_of_distinct.
    - apply (sort_descending _ (fun p => - week p)). intros a b. lia.
    - apply (Permutation_NoDup (l := map week (timelinePoints st)));
        [|assumption].
      apply Permutation_map, Permutation_sym, sort_perm. }
  rewrite Forall_forall in Hmon |- *. intros p Hp.
  apply monday_fixed_is_monday, Hmon.
  apply (Permutation_in _ (sort_perm (fun a b => week a - week b)
                             (timelinePoints st))). assumption.
Qed.

(** X18: in a snapshot that is built, the merged pull requests, the
    commits and the lines added and deleted are the same in total whether
    they are counted per repository, per engineer or per week. *)
Theorem snapshot_totals_agree
    (platform : Platform) (token : option string)
    (org : option string) (selected : option (list string))
    (range : RangeDescriptor) (clock : timestamp)
    (log log' : list Request) (s : MetricSnapshot) :
  buildSnapshot platform token org selected range clock log
    = (Returned s, log') ->
  (totalOfRepos rm_mergedPRs (snapshotRepos s)
     = totalOver mergedPRs (engineers s) /\
   totalOfRepos rm_mergedPRs (snapshotRepos s)
     = totalOfWeeks tp_mergedPRs (timeline s)) /\
  (totalOfRepos rm_commits (snapshotRepos s)
     = totalOver em_commits (engineers s) /\
   totalOfRepos rm_commits (snapshotRepos s)
     = totalOfWeeks tp_commits (timeline s)) /\
  (totalOfRepos rm_linesAdded (snapshotRepos s)
     = totalOver linesAdded (engineers s) /\
   totalOfRepos rm_linesAdded (snapshotRepos s)
     = totalOfWeeks tp_linesAdded (timeline s)) /\
  (totalOfRepos rm_linesDeleted (snapshotRepos s)
     = totalOver linesDeleted (engineers s) /\
   totalOfRepos rm_linesDeleted (snapshotRepos s)
     = totalOfWeeks tp_linesDeleted (timeline s)).
Proof.
  intros Hrun. apply buildSnapshot_assembles in Hrun.
  destruct Hrun as (repos & log1 & st & _ & Hbuild & ->).
  apply buildRepos_consistent in Hbuild; [|apply emptyBuild_consistent].
  destruct Hbuild as [_ _ _ _ (M1 & M2) (C1 & C2) (A1 & A2) (D1 & D2)].
  unfold assemble. cbn [snapshotRepos engineers timeline].
  rewrite !(totalOver_perm _ _ _ (sort_perm _ _)).
  rewrite !(totalOfWeeks_perm _ _ _ (sort_perm _ _)).
  repeat split; assumption.
Qed.

Lemma snapshot_rankings_witness :
  exists s log',
    buildSnapshot smallPlatform (Some "secret"%string) (Some "acme"%string)
      None (between 0 100) 12345 [] = (Returned s, log') /\
    descendingBy churn (highImpactPRs s) /\
    increasingBy week (timeline s).
Proof.
  destruct (buildSnapshot smallPlatform (Some "secret"%string)
              (Some "acme"%string) None (between 0 100) 12345 [])
    as [[message|s] log'] eqn:Hrun; [vm_compute in Hrun; discriminate|].
  exists s, log'. split; [reflexivity|].
  destruct (snapshot_rankings _ _ _ _ _ _ _ _ _ Hrun)
    as (_ & _ & _ & Hhi & _ & _ & Hweeks & _).
  split; assumption.
Defined.

Lemma snapshot_totals_agree_witness :
  exists s log',
    buildSnapshot smallPlatform (Some "secret"%string) (Some "acme"%string)
      None (between 0 100) 12345 [] = (Returned s, log') /\
    totalOfRepos rm_mergedPRs (snapshotRepos s)
      = totalOfWeeks tp_mergedPRs (timeline s).
Proof.
  destruct (buildSnapshot smallPlatform (Some "secret"%string)
              (Some "acme"%string) None (between 0 100) 12345 [])
    as [[message|s] log'] eqn:Hrun; [vm_compute in Hrun; discriminate|].
  exists s, log'. split; [reflexivity|].
  apply (snapshot_totals_agree _ _ _ _ _ _ _ _ _ Hrun).
Defined.

Section RepoIdentity.
Variables (repoName repoOwner : string) (range : RangeDescriptor).

Lemma repoStep_identity r pr :
  recordIdentity (repoStep range r pr) = recordIdentity r /\
  issuesClosed (repoStep range r pr) = issuesClosed r.
Proof.
  unfold repoStep. destruct (withinRange (merged_at pr) range); auto.
Qed.

Lemma repo_fold_identity prs : forall r,
  recordIdentity (fold_left (repoStep range) prs r) = recordIdentity r /\
  issuesClosed (fold_left (repoStep range) prs r) = issuesClosed r.
Proof.
  induction prs as [|pr prs IH]; intros r; simpl; [auto|].
  destruct (IH (repoStep range r pr)) as (H1 & H2).
  destruct (repoStep_identity r pr) as (H3 & H4).
  rewrite H1, H2. auto.
Qed.

Lemma aggregate_identity prs :
  let r := ra_repoMetric (aggregateMetrics repoName repoOwner prs range) in
  recordIdentity r = (repoName, repoOwner, (repoOwner ++ "/" ++ repoName)%string)
  /\ issuesClosed r = 0.
Proof.
  cbv zeta. unfold aggregateMetrics, foldPullRequests. cbn [ra_repoMetric].
  rewrite fold_repoMetric.
  destruct (repo_fold_identity prs
              (repoMetric (initAgg repoName repoOwner))) as (H1 & H2).
  unfold recordIdentity, deriveRepo in *.
  cbn [rm_name rm_owner rm_fullName issuesClosed] in *.
  rewrite H2. split; [exact H1|reflexivity].
Qed.

End RepoIdentity.

Section BuildRepos.
Variable platform : Platform.
Variable token : option string.
Variable range : RangeDescriptor.

Lemma buildRepos_records repos : forall st log st' log',
  buildRepos platform token range st repos log = (Returned st', log') ->
  exists added,
    repoMetrics st' = repoMetrics st ++ added /\
    map recordIdentity added = map repoIdentity repos /\
    Forall (fun r => issuesClosed r = 0) added /\
    (forall s u, datedFrom range s u -> Forall soundHealth added) /\
    (undated range -> Forall noHealth added).
Proof.
  induction repos as [|repo repos IH]; intros st log st' log'; simpl.
  - intros [= <- _]. exists []. rewrite app_nil_r.
    repeat split; try constructor.
  - unfold bind.
    destruct (buildRepo platform token range st repo log)
      as [[message|st1] log1] eqn:E; [discriminate|].
    intros Hrest. apply buildRepo_accounts in E.
    destruct E as (prs & langs & ->).
    apply IH in Hrest.
    destruct Hrest as (added & Hadd & Hid & Hclosed & Hdated & Hundated).
    unfold accountRepo in Hadd. cbn [repoMetrics] in Hadd.
    destruct (aggregate_identity (name repo) (owner_login repo) range prs)
      as (I1 & I2).
    destruct (aggregate_health (name repo) (owner_login repo) prs range)
      as (H1 & H2).
    cbv zeta in I1, I2, H1, H2.
    eexists (_ :: added). split; [|split; [|split; [|split]]].
    + rewrite Hadd, <- app_assoc. reflexivity.
    + cbn [map]. rewrite Hid. f_equal. exact I1.
    + constructor; [exact I2|assumption].
    + intros s u Hsu. constructor; [|apply (Hdated s u Hsu)].
      destruct (H1 s u Hsu) as (f & h & Hf & Hf1 & _ & _ & Hh & _ & Hrange).
      exists f, h. auto.
    + intros Hun. constructor; [|apply (Hundated Hun)].
      apply (H2 Hun).
Qed.
End BuildRepos.

(** X19: a snapshot that is built has one repository record for each
    repository of the working set (the repositories selected, or else
    those the organisation lists), in the same order and under the same
    name and owner.  Over a window whose bounds are dates, each record has
    a deployment frequency of at least 1 and a health score between 6 and
    100; over a window with a bound that is no date, both are [NaN] in
    each record. *)
Theorem snapshot_repos_follow_working_set
    (platform : Platform) (token : option string)
    (org : option string) (selected : option (list string))
    (range : RangeDescriptor) (clock : timestamp)
    (log log' : list Request) (s : MetricSnapshot) :
  buildSnapshot platform token org selected range clock log
    = (Returned s, log') ->
  exists repos log1,
    workingSet platform token org selected log = (Returned repos, log1) /\
    map recordIdentity (snapshotRepos s) = map repoIdentity repos /\
    (forall start finish,
       datedFrom range start finish -> Forall soundHealth (snapshotRepos s)) /\
    (undated range -> Forall noHealth (snapshotRepos s)).
Proof.
  intros Hrun. apply buildSnapshot_assembles in Hrun.
  destruct Hrun as (repos & log1 & st & Hset & Hbuild & ->).
  apply buildRepos_records in Hbuild.
  destruct Hbuild as (added & Hadd & Hid & _ & Hdated & Hundated).
  exists repos, log1. split; [assumption|].
  unfold assemble. cbn [snapshotRepos]. rewrite Hadd. simpl app.
  split; [assumption|]. split; assumption.
Qed.

Lemma snapshot_repos_follow_working_set_witness :
  exists s log',
    buildSnapshot smallPlatform (Some "secret"%string) None
      (Some ["acme/web"%string]) (between 0 100) 12345 [] = (Returned s, log')
    /\ map recordIdentity (snapshotRepos s)
       = [("web"%string, "acme"%string, "acme/web"%string)]
    /\ Forall soundHealth (snapshotRepos s).
Proof.
  destruct (buildSnapshot smallPlatform (Some "secret"%string) None
              (Some ["acme/web"%string]) (between 0 100) 12345 [])
    as [[message|s] log'] eqn:Hrun; [vm_compute in Hrun; discriminate|].
  exists s, log'. split; [reflexivity|].
  destruct (snapshot_repos_follow_working_set _ _ _ _ _ _ _ _ _ Hrun)
    as (repos & log1 & Hset & Hid & Hdated & _).
  split; [|apply (Hdated 0 100); split; reflexivity].
  rewrite Hid. vm_compute in Hset. injection Hset as <- _. reflexivity.
Defined.

(** ** The dashboard on the answers of the route *)

Lemma dashboard_sum_from {T : Type} (f : T -> Z) (l : list T) : forall a,
  fold_left (fun acc item => acc + f item) l a =
  a + fold_right (fun item acc => f item + acc) 0 l.
Proof.
  induction l as [|x l IH]; intros a; simpl; [lia|]. rewrite IH. lia.
Qed.

Lemma dashboard_sum_total {T : Type} (f : T -> Z) (l : list T) :
  Dashboard.sum l f = fold_right (fun item acc => f item + acc) 0 l.
Proof. unfold Dashboard.sum. rewrite dashboard_sum_from. lia. Qed.

(** X20: for a snapshot built by the route, the totals of the dashboard's
    summary cards (summed over the repositories) equal the same measures
    summed over the engineer table and over the weekly timeline; the
    average impact shown is 0 when the snapshot has no engineer. *)
Theorem dashboard_totals_match
    (platform : Platform) (token : option string)
    (org : option string) (selected : option (list string))
    (range : RangeDescriptor) (clock : timestamp)
    (log log' : list Request) (s : MetricSnapshot) :
  buildSnapshot platform token org selected range clock log
    = (Returned s, log') ->
  let t := Dashboard.totals (Some s) in
  (Dashboard.totalMergedPRs t = Dashboard.sum (engineers s) mergedPRs /\
   Dashboard.totalMergedPRs t = Dashboard.sum (timeline s) tp_mergedPRs) /\
  (Dashboard.totalCommits t = Dashboard.sum (engineers s) em_commits /\
   Dashboard.totalCommits t = Dashboard.sum (timeline s) tp_commits) /\
  (Dashboard.totalLinesAdded t = Dashboard.sum (engineers s) linesAdded /\
   Dashboard.totalLinesAdded t = Dashboard.sum (timeline s) tp_linesAdded) /\
  (Dashboard.totalLinesDeleted t = Dashboard.sum (engineers s) linesDeleted /\
   Dashboard.totalLinesDeleted t = Dashboard.sum (timeline s) tp_linesDeleted)
  /\ (engineers s = [] -> Dashboard.averageImpact t = 0).
Proof.
  intros Hrun t. apply buildSnapshot_assembles in Hrun.
  destruct Hrun as (repos & log1 & st & _ & Hbuild & ->).
  apply buildRepos_consistent in Hbuild; [|apply emptyBuild_consistent].
  destruct Hbuild as [_ _ _ _ (M1 & M2) (C1 & C2) (A1 & A2) (D1 & D2)].
  unfold t, Dashboard.totals, assemble.
  cbn [Dashboard.totalMergedPRs Dashboard.totalCommits
       Dashboard.totalLinesAdded Dashboard.totalLinesDeleted
       Dashboard.averageImpact snapshotRepos engineers timeline].
  rewrite !dashboard_sum_total.
  fold (totalOfRepos rm_mergedPRs (repoMetrics st)).
  fold (totalOfRepos rm_commits (repoMetrics st)).
  fold (totalOfRepos rm_linesAdded (repoMetrics st)).
  fold (totalOfRepos rm_linesDeleted (repoMetrics st)).
  pose proof (fun f => totalOver_perm f _ _
                (sort_perm (fun a b => impactScore b - impactScore a)
                   (JSMap.values (engineerAggregator st)))) as Pe.
  pose proof (fun f => totalOfWeeks_perm f _ _
                (sort_perm (fun a b => week a - week b)
                   (timelinePoints st))) as Pw.
  unfold totalOver in Pe. unfold totalOfWeeks in Pw.
  rewrite !Pe, !Pw.
  split; [split; assumption|]. split; [split; assumption|].
  split; [split; assumption|]. split; [split; assumption|].
  intros Hnone.
  assert (sort (fun a b => impactScore b - impactScore a)
            (JSMap.values (engineerAggregator st)) = []) as ->
    by exact Hnone.
  reflexivity.
Qed.

Lemma dashboard_totals_match_witness :
  exists s log',
    buildSnapshot smallPlatform (Some "secret"%string) (Some "acme"%string)
      None (between 0 100) 12345 [] = (Returned s, log') /\
    Dashboard.totalMergedPRs (Dashboard.totals (Some s))
      = Dashboard.sum (timeline s) tp_mergedPRs.
Proof.
  destruct (buildSnapshot smallPlatform (Some "secret"%string)
              (Some "acme"%string) None (between 0 100) 12345 [])
    as [[message|s] log'] eqn:Hrun; [vm_compute in Hrun; discriminate|].
  exists s, log'. split; [reflexivity|].
  apply (dashboard_totals_match _ _ _ _ _ _ _ _ _ Hrun).
Defined.



(** ** Extremes of the impact score *)

(** X22: for a pull request without negative counters, the impact score is
    100 exactly when it is not a draft and all three inputs are saturated
    (30 changed lines, 20 files, 10 commits), and 0 exactly when it changes
    no line, no file and has no commit; marking a pull request as draft
    never raises its score. *)
Theorem impact_score_extremes (pr : GitHubPullRequest) :
  countersNonNegative pr ->
  (calculateImpactScore pr = 100 <->
   draft pr = false /\ 30 <= sizeOf pr /\ 20 <= changed_files pr
   /\ 10 <= commits pr) /\
  (calculateImpactScore pr = 0 <->
   sizeOf pr = 0 /\ changed_files pr = 0 /\ commits pr = 0) /\
  (forall pr',
     sizeOf pr' = sizeOf pr -> changed_files pr' = changed_files pr ->
     commits pr' = commits pr -> draft pr' = true ->
     calculateImpactScore pr' <= calculateImpactScore pr).
Proof.
  intros Hpr. pose proof (score_range pr Hpr) as Hrange.
  destruct Hpr as (Ha & Hd & Hf & Hc).
  assert (0 <= sizeOf pr) as Hs by (unfold sizeOf; lia).
  rewrite calculateImpactScore_weigh in *.
  set (s := Z.min 30 (sizeOf pr)) in *.
  set (f := Z.min 20 (changed_files pr)) in *.
  set (c := Z.min 10 (commits pr)) in *.
  assert (0 <= s <= 30 /\ 0 <= f <= 20 /\ 0 <= c <= 10) as (Bs & Bf & Bc)
    by (unfold s, f, c; lia).
  split; [|split].
  - split.
    + intros H.
      destruct (draft pr) eqn:Hdraft; [lia|]. split; [reflexivity|].
      assert (weigh 29 20 10 false = 98) as T1 by (vm_compute; reflexivity).
      assert (weigh 30 19 10 false = 99) as T2 by (vm_compute; reflexivity).
      assert (weigh 30 20 9 false = 98) as T3 by (vm_compute; reflexivity).
      destruct (Z_lt_le_dec s 30) as [Hlt|Hge].
      { pose proof (weigh_mono s 29 f 20 c 10 false ltac:(lia) ltac:(lia)
                      ltac:(lia)). lia. }
      destruct (Z_lt_le_dec f 20) as [Hlt|Hge'].
      { pose proof (weigh_mono s 30 f 19 c 10 false ltac:(lia) ltac:(lia)
                      ltac:(lia)). lia. }
      destruct (Z_lt_le_dec c 10) as [Hlt|Hge''].
      { pose proof (weigh_mono s 30 f 20 c 9 false ltac:(lia) ltac:(lia)
                      ltac:(lia)). lia. }
      unfold s, f, c in *. lia.
    + intros (Hdraft & H1 & H2 & H3). rewrite Hdraft.
      replace s with 30 by (unfold s; lia).
      replace f with 20 by (unfold f; lia).
      replace c with 10 by (unfold c; lia).
      vm_compute. reflexivity.
  - split.
    + intros H.
      assert (1 <= weigh 1 0 0 (draft pr) /\ 1 <= weigh 0 1 0 (draft pr) /\
              1 <= weigh 0 0 1 (draft pr)) as (T1 & T2 & T3)
        by (destruct (draft pr); vm_compute; repeat split; discriminate).
      destruct (Z_lt_le_dec 0 s) as [Hpos|Hzero].
      { pose proof (weigh_mono 1 s 0 f 0 c (draft pr) ltac:(lia) ltac:(lia)
                      ltac:(lia)). lia. }
      destruct (Z_lt_le_dec 0 f) as [Hpos|Hzero'].
      { pose proof (weigh_mono 0 s 1 f 0 c (draft pr) ltac:(lia) ltac:(lia)
                      ltac:(lia)). lia. }
      destruct (Z_lt_le_dec 0 c) as [Hpos|Hzero''].
      { pose proof (weigh_mono 0 s 0 f 1 c (draft pr) ltac:(lia) ltac:(lia)
                      ltac:(lia)). lia. }
      unfold s, f, c in *. lia.
    + intros (H1 & H2 & H3).
      replace s with 0 by (unfold s; lia).
      replace f with 0 by (unfold f; lia).
      replace c with 0 by (unfold c; lia).
      destruct (draft pr); vm_compute; reflexivity.
  - intros pr' E1 E2 E3 Hdraft.
    rewrite calculateImpactScore_weigh, E1, E2, E3, Hdraft.
    fold s f c.
    destruct (draft pr); [lia|].
    apply weigh_draft; lia.
Qed.

Lemma impact_score_extremes_witness :
  calculateImpactScore (samplePR 25 5 20 10 false) = 100 /\
  calculateImpactScore (samplePR 0 0 0 0 true) = 0.
Proof.
  split.
  - apply (proj1 (impact_score_extremes (samplePR 25 5 20 10 false)
                    ltac:(unfold countersNonNegative; simpl; lia))).
    unfold sizeOf; simpl; repeat split; lia.
  - apply (proj1 (proj2 (impact_score_extremes (samplePR 0 0 0 0 true)
                    ltac:(unfold countersNonNegative; simpl; lia)))).
    unfold sizeOf; simpl; repeat split; lia.
Defined.
